(** * Verification of the used-car preprocessing pipeline

    Shallow embedding of [src/data/preprocessing.py] (class
    [DataPreprocessor]) together with the parts of pandas and scikit-learn
    that the class calls.

    Conventions of the embedding.
    - A pandas [DataFrame] is a row index (a list of integer labels) and a list
      of named columns with pairwise distinct labels.  A column is either a
      numeric column (dtype [float64]; [None] is [NaN]) or an [object] column
      of strings ([None] is a missing value).
    - Real numbers are exact rationals ([Q]); rounding of IEEE doubles is
      not modelled.  Square roots, which only the scaler needs, are supplied
      by a parameter.
    - The rows that [remove_outliers_iqr] keeps depend on that rounding.
      Module [Float64] embeds the method once more, on frames of IEEE 754
      binary64 numbers; what is stated about the rows it keeps is stated
      there.  A decimal literal of a double stands for the nearest double,
      as in Python.
    - Python exceptions are values of [exn]; a function that may raise
      returns a [result]. *)

From Stdlib Require Import List String Ascii Bool Arith ZArith QArith Qround Lia.
From Stdlib Require Import Permutation Sorted Lqa Floats.
Import ListNotations.

#[local] Set Warnings "-inexact-float".

Local Open Scope string_scope.
Local Open Scope list_scope.

(** ** Exceptions and the error monad *)

Inductive exn : Type :=
| KeyError (key : string)
| TypeError
| ValueError
| NotFittedError.

Inductive result (A : Type) : Type :=
| Ok (a : A)
| Raise (e : exn).

Arguments Ok {A} a.
Arguments Raise {A} e.

Definition bind {A B : Type} (r : result A) (k : A -> result B) : result B :=
  match r with
  | Ok a => k a
  | Raise e => Raise e
  end.

Notation "x <- r ;; k" := (bind r (fun x => k))
  (at level 61, r at next level, right associativity).

Fixpoint mapM {A B : Type} (f : A -> result B) (l : list A) : result (list B) :=
  match l with
  | [] => Ok []
  | a :: t => b <- f a ;; bs <- mapM f t ;; Ok (b :: bs)
  end.

(** ** Rational helpers *)

Definition Qsum (l : list Q) : Q := fold_right Qplus 0%Q l.

(** The present (non-[NaN]) entries of a float column. *)
Fixpoint present {A : Type} (l : list (option A)) : list A :=
  match l with
  | [] => []
  | Some a :: t => a :: present t
  | None :: t => present t
  end.

(** A column without missing values. *)
Definition no_missing {A : Type} (v : list (option A)) : Prop :=
  Forall (fun o => o <> None) v.

Definition Qlen (l : list Q) : Q := inject_Z (Z.of_nat (List.length l)).

(** Arithmetic mean; undefined ([NaN]) on the empty list. *)
Definition Qmean (l : list Q) : option Q :=
  match l with
  | [] => None
  | _ => Some (Qsum l / Qlen l)%Q
  end.

(** [numpy.round]: to the nearest integer, halves to the even neighbour. *)
Definition round_half_even (q : Q) : Z :=
  let f := Qfloor q in
  match Qcompare (q - inject_Z f)%Q (1 # 2)%Q with
  | Lt => f
  | Gt => (f + 1)%Z
  | Eq => if Z.even f then f else (f + 1)%Z
  end.

(** Stable insertion sort under a boolean order. *)
Section Sort.
Context {A : Type} (leb : A -> A -> bool).

Fixpoint insert (x : A) (l : list A) : list A :=
  match l with
  | [] => [x]
  | h :: t => if leb x h then x :: l else h :: insert x t
  end.

Definition sort (l : list A) : list A := fold_right insert [] l.
End Sort.

(** ** pandas *)

Module Pandas.

Inductive column : Type :=
| NumCol (v : list (option Q))
| ObjCol (v : list (option string)).

Record DataFrame : Type := mkDF {
  index : list Z;
  columns : list (string * column)
}.

(** A [Series]: one column with its row index. *)
Record Series : Type := mkSeries {
  s_index : list Z;
  s_values : column
}.

Definition col_length (c : column) : nat :=
  match c with
  | NumCol v => List.length v
  | ObjCol v => List.length v
  end.

Definition names (df : DataFrame) : list string := map fst (columns df).

Definition nrows (df : DataFrame) : nat := List.length (index df).

(** Every column is as long as the index. *)
Definition aligned (df : DataFrame) : Prop :=
  Forall (fun nc => col_length (snd nc) = nrows df) (columns df).

(** No cell of the frame is missing. *)
Definition complete_column (c : column) : Prop :=
  match c with
  | NumCol v => no_missing v
  | ObjCol v => no_missing v
  end.

Definition complete (df : DataFrame) : Prop :=
  Forall (fun nc => complete_column (snd nc)) (columns df).

(** [RangeIndex(n)]: the labels 0, 1, ..., n-1. *)
Definition RangeIndex (n : nat) : list Z := map Z.of_nat (seq 0 n).

(** [name in df.columns] *)
Definition has_column (name : string) (df : DataFrame) : bool :=
  existsb (String.eqb name) (names df).

Fixpoint lookup (name : string) (cols : list (string * column)) : option column :=
  match cols with
  | [] => None
  | (n, c) :: t => if String.eqb name n then Some c else lookup name t
  end.

(** [df[name]] *)
Definition getitem (df : DataFrame) (name : string) : result column :=
  match lookup name (columns df) with
  | Some c => Ok c
  | None => Raise (KeyError name)
  end.

(** [df[name] = c]: replaces the column in place when the label exists and
    appends it otherwise. *)
Fixpoint set_col (name : string) (c : column) (cols : list (string * column))
  : list (string * column) :=
  match cols with
  | [] => [(name, c)]
  | (n, c') :: t =>
      if String.eqb name n then (n, c) :: t else (n, c') :: set_col name c t
  end.

Definition setitem (df : DataFrame) (name : string) (c : column) : DataFrame :=
  mkDF (index df) (set_col name c (columns df)).

(** [df.drop(columns=labels)]: every label must exist. *)
Definition drop (df : DataFrame) (labels : list string) : result DataFrame :=
  match find (fun l => negb (has_column l df)) labels with
  | Some l => Raise (KeyError l)
  | None =>
      Ok (mkDF (index df)
            (filter (fun nc => negb (existsb (String.eqb (fst nc)) labels))
               (columns df)))
  end.

(** [df.select_dtypes(include='object').columns] *)
Definition is_object (c : column) : bool :=
  match c with
  | ObjCol _ => true
  | NumCol _ => false
  end.

Definition object_columns (df : DataFrame) : list string :=
  map fst (filter (fun nc => is_object (snd nc)) (columns df)).

(** *** Categoricals: [astype('category')] *)

Fixpoint insert_category (s : string) (cats : list string) : list string :=
  match cats with
  | [] => [s]
  | h :: t =>
      match String.compare s h with
      | Lt => s :: cats
      | Eq => cats
      | Gt => h :: insert_category s t
      end
  end.

(** [.cat.categories]: the distinct observed values in increasing order. *)
Definition categories (v : list (option string)) : list string :=
  fold_right insert_category [] (present v).

Fixpoint index_of (s : string) (l : list string) : option nat :=
  match l with
  | [] => None
  | h :: t => if String.eqb s h then Some O else option_map S (index_of s t)
  end.

(** [.cat.codes]: position in the categories, and -1 for a missing value. *)
Definition cat_code (cats : list string) (o : option string) : Z :=
  match o with
  | None => (-1)%Z
  | Some s =>
      match index_of s cats with
      | Some i => Z.of_nat i
      | None => (-1)%Z
      end
  end.

Definition cat_codes (v : list (option string)) : list Z :=
  map (cat_code (categories v)) v.

(** [Series.map(dict(enumerate(cats)))] at one integer key: a key outside
    the dictionary gives a missing value. *)
Definition map_enumerate (cats : list string) (z : Z) : option string :=
  if (z <? 0)%Z then None else nth_error cats (Z.to_nat z).

(** [astype(str)] on an object column: a missing value becomes the text
    [nan]. *)
Definition astype_str (v : list (option string)) : list string :=
  map (fun o => match o with Some s => s | None => "nan" end) v.

(** *** Quantiles *)

(** [Series.quantile(q)] with linear interpolation, for q = num/den in
    [0,1]: missing values are skipped; the result is [NaN] when nothing is
    left. *)
Definition quantile (v : list (option Q)) (num den : Z) : option Q :=
  let xs := sort Qle_bool (present v) in
  match xs with
  | [] => None
  | x0 :: _ =>
      let h := (inject_Z (Z.of_nat (List.length xs) - 1) * (num # Z.to_pos den))%Q in
      let lo := Z.to_nat (Qfloor h) in
      let frac := (h - inject_Z (Qfloor h))%Q in
      let a := nth lo xs x0 in
      let b := nth (S lo) xs a in
      Some (a + frac * (b - a))%Q
  end.

(** *** Row selection *)

Fixpoint mask_filter {A : Type} (mask : list bool) (l : list A) : list A :=
  match mask, l with
  | true :: m, a :: t => a :: mask_filter m t
  | false :: m, _ :: t => mask_filter m t
  | _, _ => []
  end.

(** The positions a mask keeps, in increasing order. *)
Definition kept (mask : list bool) : list nat :=
  filter (fun i => nth i mask false) (seq 0 (List.length mask)).

Definition mask_column (mask : list bool) (c : column) : column :=
  match c with
  | NumCol v => NumCol (mask_filter mask v)
  | ObjCol v => ObjCol (mask_filter mask v)
  end.

(** [df[mask]] for a boolean mask aligned with the rows. *)
Definition select_rows (df : DataFrame) (mask : list bool) : DataFrame :=
  mkDF (mask_filter mask (index df))
       (map (fun nc => (fst nc, mask_column mask (snd nc))) (columns df)).

(** [df.reset_index(drop=True)] *)
Definition reset_index (df : DataFrame) : DataFrame :=
  mkDF (RangeIndex (nrows df)) (columns df).

(** [pd.DataFrame(arr, columns=labels)] for an [n]-row float matrix given
    by its columns: one label per column is required; the index is fresh. *)
Definition of_array (n : nat) (arr : list (list (option Q)))
    (labels : list string) : result DataFrame :=
  if (List.length arr =? List.length labels)%nat
  then Ok (mkDF (RangeIndex n) (combine labels (map NumCol arr)))
  else Raise ValueError.

(** [df[labels] = arr]: column [j] of the float matrix goes to label [j]. *)
Definition assign_columns (df : DataFrame) (labels : list string)
    (arr : list (list (option Q))) : DataFrame :=
  fold_left (fun d la => setitem d (fst la) (NumCol (snd la)))
    (combine labels arr) df.

(** *** Element-wise arithmetic on columns *)

Definition lift2 (f : Q -> Q -> Q) (a b : option Q) : option Q :=
  match a, b with
  | Some x, Some y => Some (f x y)
  | _, _ => None
  end.

Fixpoint zip_with {A B C : Type} (f : A -> B -> C) (l : list A) (m : list B)
  : list C :=
  match l, m with
  | a :: l', b :: m' => f a b :: zip_with f l' m'
  | _, _ => []
  end.

(** [a * b] on two columns of one frame; strings cannot be multiplied. *)
Definition col_mul (a b : column) : result column :=
  match a, b with
  | NumCol x, NumCol y => Ok (NumCol (zip_with (lift2 Qmult) x y))
  | _, _ => Raise TypeError
  end.

(** [k - a] for a number [k]. *)
Definition rsub (k : Q) (a : column) : result column :=
  match a with
  | NumCol x => Ok (NumCol (map (option_map (fun v => (k - v)%Q)) x))
  | ObjCol _ => Raise TypeError
  end.

End Pandas.

(** ** scikit-learn *)

Module KNNImputer.

(** A float matrix, stored as its list of columns; every column has [n]
    entries, where [n] is passed along. *)
Definition matrix : Type := list (list (option Q)).

Definition row_at (X : matrix) (i : nat) : list (option Q) :=
  map (fun c => nth i c None) X.

Fixpoint sq_diffs (x y : list (option Q)) : list Q :=
  match x, y with
  | Some a :: x', Some b :: y' => ((a - b) * (a - b))%Q :: sq_diffs x' y'
  | _ :: x', _ :: y' => sq_diffs x' y'
  | _, _ => []
  end.

(** The square of [nan_euclidean_distances]: the squared differences over
    the coordinates present in both rows, scaled by
    (number of coordinates) / (number of coordinates used); [NaN] when no
    coordinate is shared.  Squares order the rows as the distances do. *)
Definition nan_euclidean_sq (x y : list (option Q)) : option Q :=
  match sq_diffs x y with
  | [] => None
  | ds => Some (inject_Z (Z.of_nat (List.length x)) / Qlen ds * Qsum ds)%Q
  end.

Definition is_nan {A : Type} (o : option A) : bool :=
  match o with
  | Some _ => false
  | None => true
  end.

(** Order of the partition on distances: [NaN] goes last. *)
Definition dist_leb (a b : option Q * Q) : bool :=
  match fst a, fst b with
  | Some x, Some y => Qle_bool x y
  | Some _, None => true
  | None, Some _ => false
  | None, None => true
  end.

(** The rows in which the column is present, each with its distance to the
    receiver row [i] and its value in the column. *)
Definition potential_donors (X : matrix) (n : nat) (col : list (option Q))
    (i : nat) : list (option Q * Q) :=
  flat_map
    (fun j =>
       match nth j col None with
       | Some v => [(nan_euclidean_sq (row_at X i) (row_at X j), v)]
       | None => []
       end)
    (seq 0 n).

(** [_calc_impute] with uniform weights: the average of the
    min(n_neighbors, number of donors) nearest donors, a donor at an
    undefined distance weighing 0.  Ties are broken by row order. *)
Definition calc_impute (k : nat) (donors : list (option Q * Q)) : option Q :=
  let nearest := firstn (Nat.min k (List.length donors)) (sort dist_leb donors) in
  Qmean (map snd (filter (fun d => negb (is_nan (fst d))) nearest)).

(** A receiver with no donor at a defined distance takes the column mean. *)
Definition impute_cell (k : nat) (X : matrix) (n : nat) (col : list (option Q))
    (i : nat) : option Q :=
  let donors := potential_donors X n col i in
  if forallb (fun d => is_nan (fst d)) donors
  then Qmean (present col)
  else calc_impute k donors.

Definition transform_column (k : nat) (X : matrix) (n : nat)
    (col : list (option Q)) : list (option Q) :=
  map (fun i =>
         match nth i col None with
         | Some v => Some v
         | None => impute_cell k X n col i
         end)
      (seq 0 n).

(** [_valid_mask]: the columns that are not entirely missing. *)
Definition is_valid (col : list (option Q)) : bool :=
  existsb (fun o => negb (is_nan o)) col.

(** [KNNImputer(n_neighbors=k).fit_transform(X)] for an [n]-row matrix:
    rejects a non-positive [k] and an empty matrix, drops the columns that
    are entirely missing and fills the missing cells of the others. *)
Definition fit_transform (n_neighbors : Z) (n : nat) (X : matrix)
  : result matrix :=
  if (n_neighbors <=? 0)%Z then Raise ValueError
  else if ((n =? 0)%nat || (List.length X =? 0)%nat)%bool then Raise ValueError
  else Ok (map (transform_column (Z.to_nat n_neighbors) X n)
             (filter is_valid X)).

End KNNImputer.

Module OrdinalEncoder.

(** [handle_unknown]: ['error'], or ['use_encoded_value'] together with
    [unknown_value]. *)
Inductive unknown_policy : Type :=
| RaiseOnUnknown
| UseEncodedValue (unknown_value : Z).

(** What [fit] learns: the categories of each column, and the column names
    when it was fitted on a frame. *)
Record fitted : Type := mkFitted {
  categories_ : list (list string);
  feature_names_in_ : option (list string)
}.

Record t : Type := mkEncoder {
  handle_unknown : unknown_policy;
  state : option fitted
}.

Definition encode_value (p : unknown_policy) (cats : list string) (s : string)
  : result Q :=
  match Pandas.index_of s cats with
  | Some i => Ok (inject_Z (Z.of_nat i))
  | None =>
      match p with
      | RaiseOnUnknown => Raise ValueError
      | UseEncodedValue v => Ok (inject_Z v)
      end
  end.

Fixpoint encode_columns (p : unknown_policy) (cats : list (list string))
    (X : list (list string)) : result (list (list Q)) :=
  match cats, X with
  | c :: cats', x :: X' =>
      col <- mapM (encode_value p c) x ;;
      rest <- encode_columns p cats' X' ;;
      Ok (col :: rest)
  | _, _ => Ok []
  end.

Definition names_eqb (a b : list string) : bool :=
  if list_eq_dec string_dec a b then true else false.

(** [enc.transform(X)] on a frame with column labels [names] and string
    columns [X]. *)
Definition transform (enc : t) (names : list string) (X : list (list string))
  : result (list (list Q)) :=
  match state enc with
  | None => Raise NotFittedError
  | Some st =>
      if match feature_names_in_ st with
         | Some fn => negb (names_eqb fn names)
         | None => false
         end
      then Raise ValueError
      else if negb (List.length X =? List.length (categories_ st))%nat
      then Raise ValueError
      else encode_columns (handle_unknown enc) (categories_ st) X
  end.

End OrdinalEncoder.

Module StandardScaler.

(** The fitted state: mean and scale of each column ([None] for a column
    without any value), or [None] before the first fit. *)
Definition t : Type := option (list (option (Q * Q))).

Section WithSqrt.
(** The square root of the platform. *)
Variable fsqrt : Q -> Q.

(** Mean and scale of one column, missing values ignored; a zero scale is
    replaced by 1. *)
Definition fit_column (v : list (option Q)) : option (Q * Q) :=
  let xs := present v in
  match Qmean xs with
  | None => None
  | Some mu =>
      let var := (Qsum (map (fun x => (x - mu) * (x - mu)) xs) / Qlen xs)%Q in
      let s := fsqrt var in
      Some (mu, if Qeq_bool s 0 then 1%Q else s)
  end.

Definition transform_column (v : list (option Q)) : list (option Q) :=
  match fit_column v with
  | Some (mu, scale) => map (option_map (fun x => ((x - mu) / scale)%Q)) v
  | None => v
  end.

Definition as_float (c : Pandas.column) : result (list (option Q)) :=
  match c with
  | Pandas.NumCol v => Ok v
  | Pandas.ObjCol _ => Raise ValueError
  end.

(** [scaler.fit_transform(X)] on the [n]-row frame with columns [cols]:
    the new state and the scaled columns. *)
Definition fit_transform (n : nat) (cols : list Pandas.column)
  : result (t * list (list (option Q))) :=
  X <- mapM as_float cols ;;
  if ((n =? 0)%nat || (List.length X =? 0)%nat)%bool then Raise ValueError
  else Ok (Some (map fit_column X), map transform_column X).
End WithSqrt.

End StandardScaler.

(** ** The class [DataPreprocessor] *)

Module DataPreprocessor.
Import Pandas.

Record t : Type := mkPreprocessor {
  ordinal_encoder : OrdinalEncoder.t;
  scaler : StandardScaler.t
}.

(** The encoder built when nothing can be loaded:
    [OrdinalEncoder(handle_unknown='use_encoded_value', unknown_value=-1)]. *)
Definition fallback_encoder : OrdinalEncoder.t :=
  OrdinalEncoder.mkEncoder (OrdinalEncoder.UseEncodedValue (-1)) None.

(** [__init__]: [loaded] is the outcome of [joblib.load(encoder_path)],
    [None] standing for any exception it raises. *)
Definition init (loaded : option OrdinalEncoder.t) : t :=
  mkPreprocessor
    (match loaded with
     | Some enc => enc
     | None => fallback_encoder
     end)
    None.

(** Lines 39-40: an object column is replaced by its category codes. *)
Definition encode_for_knn (c : column) : list (option Q) :=
  match c with
  | NumCol v => v
  | ObjCol v => map (fun z => Some (inject_Z z)) (cat_codes v)
  end.

(** [.round().astype(int)]: a [NaN] cannot be cast. *)
Definition round_to_int (o : option Q) : result Z :=
  match o with
  | Some q => Ok (round_half_even q)
  | None => Raise ValueError
  end.

(** Lines 50-53: the imputed codes of an object column are rounded and
    mapped back through the enumeration of the original categories.  With
    an empty enumeration the mapped column is a float column of [NaN]. *)
Definition decode_column (original : column) (imputed : list (option Q))
  : result column :=
  match original with
  | NumCol _ => Ok (NumCol imputed)
  | ObjCol v =>
      ints <- mapM round_to_int imputed ;;
      match categories v with
      | [] => Ok (NumCol (map (fun _ => None) ints))
      | cats => Ok (ObjCol (map (map_enumerate cats) ints))
      end
  end.

(** One column of [df] next to the column of [df_imputed] in the same
    position: the result keeps the label of [df_imputed], whose columns
    are all floats. *)
Definition decode_named (p : (string * column) * (string * column))
  : result (string * column) :=
  match snd (snd p) with
  | NumCol imputed =>
      c <- decode_column (snd (fst p)) imputed ;; Ok (fst (snd p), c)
  | ObjCol _ => Raise TypeError
  end.

Definition knn_impute (df : DataFrame) (n_neighbors : Z) : result DataFrame :=
  let df_encoded :=
    map (fun nc => (fst nc, encode_for_knn (snd nc))) (columns df) in
  arr <- KNNImputer.fit_transform n_neighbors (nrows df) (map snd df_encoded) ;;
  df_imputed <- of_array (nrows df) arr (map fst df_encoded) ;;
  cols <- mapM decode_named (combine (columns df) (columns df_imputed)) ;;
  Ok (mkDF (index df_imputed) cols).

(** Comparisons with [NaN] are false. *)
Definition ge (a b : option Q) : bool :=
  match a, b with
  | Some x, Some y => Qle_bool y x
  | _, _ => false
  end.

Definition le (a b : option Q) : bool := ge b a.

(** The method in exact arithmetic, as [preprocess_data] chains it: it is
    called on [milage] and [price] after the encoding step, where the
    column it finds is numeric.  [Float64.remove_outliers_iqr] is the
    method on doubles, with the case of a column of strings that holds no
    value. *)
Definition remove_outliers_iqr (df : DataFrame) (column : string)
  : result DataFrame :=
  c <- getitem df column ;;
  match c with
  | ObjCol _ => Raise TypeError
  | NumCol v =>
      let Q1 := quantile v 1 4 in
      let Q3 := quantile v 3 4 in
      let IQR := lift2 Qminus Q3 Q1 in
      let lower_bound := lift2 Qminus Q1 (lift2 Qmult (Some (3 # 2)) IQR) in
      let upper_bound := lift2 Qplus Q3 (lift2 Qmult (Some (3 # 2)) IQR) in
      Ok (select_rows df
            (map (fun x => ge x lower_bound && le x upper_bound) v))
  end.

Definition create_features (df : DataFrame) : result DataFrame :=
  let df_new := df in
  engine <- getitem df_new "engine" ;;
  transmission <- getitem df_new "transmission" ;;
  engine_transmission <- col_mul engine transmission ;;
  let df_new := setitem df_new "engine_transmission" engine_transmission in
  int_col <- getitem df_new "int_col" ;;
  ext_col <- getitem df_new "ext_col" ;;
  int_ext_color <- col_mul int_col ext_col ;;
  let df_new := setitem df_new "int_ext_color" int_ext_color in
  df_new <- drop df_new ["engine"; "transmission"; "int_col"; "ext_col"] ;;
  model_year <- getitem df_new "model_year" ;;
  car_age <- rsub (inject_Z 2024) model_year ;;
  let df_new := setitem df_new "car_age" car_age in
  drop df_new ["model_year"].

(** The object columns with their values, in column order. *)
Definition object_items (df : DataFrame)
  : list (string * list (option string)) :=
  flat_map (fun nc => match snd nc with
                      | ObjCol v => [(fst nc, v)]
                      | NumCol _ => []
                      end) (columns df).

(** [df[cat_cols].astype(str)], column by column. *)
Definition object_values (df : DataFrame) : list (list string) :=
  flat_map (fun nc => match snd nc with
                      | ObjCol v => [astype_str v]
                      | NumCol _ => []
                      end) (columns df).

Definition preprocess_data (self : t) (df : DataFrame) (is_training : bool)
  : result DataFrame :=
  let df_processed := df in
  df_processed <-
    (if has_column "id" df_processed
     then drop df_processed ["id"]
     else Ok df_processed) ;;
  df_processed <- knn_impute df_processed 25 ;;
  df_processed <-
    (let cat_cols := object_columns df_processed in
     if (0 <? List.length cat_cols)%nat then
       arr <- OrdinalEncoder.transform (ordinal_encoder self) cat_cols
                (object_values df_processed) ;;
       Ok (assign_columns df_processed cat_cols (map (map Some) arr))
     else Ok df_processed) ;;
  df_processed <- create_features df_processed ;;
  if is_training then
    df_processed <- remove_outliers_iqr df_processed "milage" ;;
    df_processed <- remove_outliers_iqr df_processed "price" ;;
    Ok (reset_index df_processed)
  else Ok df_processed.

Definition numeric_cols : list string :=
  ["brand"; "model"; "milage"; "int_ext_color"; "engine_transmission"].

Section WithSqrt.
Variable fsqrt : Q -> Q.

(** Returns the preprocessor with its refitted scaler next to [(X, y)]. *)
Definition prepare_for_training (self : t) (df : DataFrame)
    (target_col : string) (scale_features : bool)
  : result (t * (DataFrame * Series)) :=
  df_processed <- preprocess_data self df true ;;
  scaled <-
    (if scale_features then
       cols <- mapM (getitem df_processed) numeric_cols ;;
       fitted <- StandardScaler.fit_transform fsqrt (nrows df_processed) cols ;;
       Ok (mkPreprocessor (ordinal_encoder self) (fst fitted),
           assign_columns df_processed numeric_cols (snd fitted))
     else Ok (self, df_processed)) ;;
  let df_processed := snd scaled in
  X <- drop df_processed [target_col] ;;
  y <- getitem df_processed target_col ;;
  Ok (fst scaled, (X, mkSeries (index df_processed) y)).
End WithSqrt.

End DataPreprocessor.

(** ** The pipeline as the specification words it

    The specification (its section 4.5) gives [preprocess_data] as a
    sequence of stages.  The stages and the two sequences below are
    written from those words, to be compared with the function translated
    from the source; the other definitions state what the claims say about
    encoders and about the test of the outlier filter. *)

Module Pipeline.
Import Pandas DataPreprocessor.

(** The columns the composer consumes and the columns it produces. *)
Definition source_columns : list string :=
  ["engine"; "transmission"; "int_col"; "ext_col"; "model_year"].

Definition feature_columns : list string :=
  ["engine_transmission"; "int_ext_color"; "car_age"].

(** "Drop [id] if present" (lines 116-117 of the source). *)
Definition drop_id (df : DataFrame) : result DataFrame :=
  if has_column "id" df then drop df ["id"] else Ok df.

(** "Encode categoricals" (lines 123-125 of the source): nothing to do
    without a categorical column; otherwise the encoder transforms the
    stringified categorical columns, which take the codes. *)
Definition encode_categoricals (self : DataPreprocessor.t) (df : DataFrame)
  : result DataFrame :=
  let cat_cols := object_columns df in
  if (0 <? List.length cat_cols)%nat then
    arr <- OrdinalEncoder.transform (ordinal_encoder self) cat_cols
             (object_values df) ;;
    Ok (assign_columns df cat_cols (map (map Some) arr))
  else Ok df.

(** A fitted encoder accepts the categorical columns of a frame: it was
    fitted on as many columns, under the same labels if it recorded any. *)
Definition encoder_accepts (st : OrdinalEncoder.fitted) (df : DataFrame)
  : Prop :=
  match OrdinalEncoder.feature_names_in_ st with
  | Some fn => fn = object_columns df
  | None => True
  end /\
  List.length (OrdinalEncoder.categories_ st) = List.length (object_columns df).

(** The test [remove_outliers_iqr] applies to one value of the column. *)
Definition iqr_mask (v : list (option Q)) (x : option Q) : bool :=
  let Q1 := quantile v 1 4 in
  let Q3 := quantile v 3 4 in
  let IQR := lift2 Qminus Q3 Q1 in
  ge x (lift2 Qminus Q1 (lift2 Qmult (Some (3 # 2)) IQR))
  && le x (lift2 Qplus Q3 (lift2 Qmult (Some (3 # 2)) IQR)).

(** Training: drop [id] if present, impute with 25 neighbours, encode the
    categorical columns, compose the features, remove the outliers of
    [milage], then those of [price], reset the row index. *)
Definition training_sequence (self : DataPreprocessor.t) (df : DataFrame)
  : result DataFrame :=
  a <- drop_id df ;;
  b <- knn_impute a 25 ;;
  c <- encode_categoricals self b ;;
  d <- create_features c ;;
  e <- remove_outliers_iqr d "milage" ;;
  f <- remove_outliers_iqr e "price" ;;
  Ok (reset_index f).

(** Inference: drop [id] if present, impute, encode, compose; nothing
    else. *)
Definition inference_sequence (self : DataPreprocessor.t) (df : DataFrame)
  : result DataFrame :=
  a <- drop_id df ;;
  b <- knn_impute a 25 ;;
  c <- encode_categoricals self b ;;
  create_features c.

(** The variant the specification rules out for the second filter: the
    rows of [df] are kept by the bounds of [column] computed on another
    frame [reference]. *)
Definition remove_outliers_by_bounds_of (reference df : DataFrame)
    (column : string) : result DataFrame :=
  r <- getitem reference column ;;
  c <- getitem df column ;;
  match r, c with
  | NumCol w, NumCol v =>
      let Q1 := quantile w 1 4 in
      let Q3 := quantile w 3 4 in
      let IQR := lift2 Qminus Q3 Q1 in
      let lower_bound := lift2 Qminus Q1 (lift2 Qmult (Some (3 # 2)) IQR) in
      let upper_bound := lift2 Qplus Q3 (lift2 Qmult (Some (3 # 2)) IQR) in
      Ok (select_rows df
            (map (fun x => ge x lower_bound && le x upper_bound) v))
  | _, _ => Raise TypeError
  end.

Definition training_sequence_independent_filters
    (self : DataPreprocessor.t) (df : DataFrame) : result DataFrame :=
  a <- drop_id df ;;
  b <- knn_impute a 25 ;;
  c <- encode_categoricals self b ;;
  d <- create_features c ;;
  e <- remove_outliers_iqr d "milage" ;;
  f <- remove_outliers_by_bounds_of d e "price" ;;
  Ok (reset_index f).

End Pipeline.

(** ** The outlier filter in double precision

    Which rows [remove_outliers_iqr] keeps is decided by comparisons with
    two bounds, and the rounding of the quartiles and of the bounds can
    decide a comparison.  This module embeds the function once more, on
    frames whose numeric columns hold IEEE 754 binary64 numbers: the
    kernel's [float], with its infinities and with NaN, which is pandas'
    missing value.  [Series.quantile] is followed down to numpy's
    [percentile] (method [linear]) and its [_lerp]. *)

Module Float64.
Local Open Scope float_scope.

Inductive column : Type :=
| NumCol (v : list float)
| ObjCol (v : list (option string)).

Record DataFrame : Type := mkDF {
  index : list Z;
  columns : list (string * column)
}.

Definition col_length (c : column) : nat :=
  match c with
  | NumCol v => List.length v
  | ObjCol v => List.length v
  end.

Definition names (df : DataFrame) : list string := map fst (columns df).

Definition nrows (df : DataFrame) : nat := List.length (index df).

(** Every column is as long as the index. *)
Definition aligned (df : DataFrame) : Prop :=
  Forall (fun nc => col_length (snd nc) = nrows df) (columns df).

Fixpoint lookup (name : string) (cols : list (string * column)) : option column :=
  match cols with
  | [] => None
  | (n, c) :: t => if String.eqb name n then Some c else lookup name t
  end.

(** [df[name]] *)
Definition getitem (df : DataFrame) (name : string) : result column :=
  match lookup name (columns df) with
  | Some c => Ok c
  | None => Raise (KeyError name)
  end.

Definition mask_column (mask : list bool) (c : column) : column :=
  match c with
  | NumCol v => NumCol (Pandas.mask_filter mask v)
  | ObjCol v => ObjCol (Pandas.mask_filter mask v)
  end.

(** [df[mask]] for a boolean mask aligned with the rows: the kept rows
    keep their index labels. *)
Definition select_rows (df : DataFrame) (mask : list bool) : DataFrame :=
  mkDF (Pandas.mask_filter mask (index df))
       (map (fun nc => (fst nc, mask_column mask (snd nc))) (columns df)).

(** The row at position [i]: its index label and its labelled cells. *)
Inductive cell : Type :=
| Num (x : float)
| Obj (o : option string).

Definition cell_at (c : column) (i : nat) : cell :=
  match c with
  | NumCol v => Num (nth i v nan)
  | ObjCol v => Obj (nth i v None)
  end.

Definition row (df : DataFrame) (i : nat) : Z * list (string * cell) :=
  (nth i (index df) 0%Z,
   map (fun nc => (fst nc, cell_at (snd nc) i)) (columns df)).

Definition rows (df : DataFrame) : list (Z * list (string * cell)) :=
  map (row df) (seq 0 (nrows df)).

(** *** numpy *)

(** An integer as a double. *)
Definition of_Z (z : Z) : float :=
  if (z <? 0)%Z then - PrimFloat.of_uint63 (Uint63Axioms.of_Z (- z))
  else PrimFloat.of_uint63 (Uint63Axioms.of_Z z).

(** [numpy.floor] of a finite double, as an integer. *)
Definition floor (x : float) : Z :=
  match Prim2SF x with
  | S754_finite s m e => Z.shiftl (if s then Zneg m else Zpos m) e
  | _ => 0%Z
  end.

(** [_lerp(a, b, t)]: [a + (b - a) * t], replaced by
    [b - (b - a) * (1 - t)] where [t >= 0.5]. *)
Definition lerp (a b t : float) : float :=
  let diff_b_a := b - a in
  if 0.5 <=? t then b - diff_b_a * (1 - t) else a + diff_b_a * t.

(** The value at the virtual index [(n - 1) * quantile] of an array in
    ascending order ([_quantile], method [linear]): at or above the last
    index both neighbours are the last element and the previous index
    counts as -1; below it the neighbours are the elements at the floor of
    the virtual index and next to it. *)
Definition interpolate (arr : list float) (quantile : float) : float :=
  let n := Z.of_nat (List.length arr) in
  let virtual_index := of_Z (n - 1) * quantile in
  if of_Z (n - 1) <=? virtual_index then
    let last := nth (Z.to_nat (n - 1)) arr nan in
    lerp last last (virtual_index - of_Z (-1))
  else
    let previous_index := floor virtual_index in
    let previous := nth (Z.to_nat previous_index) arr nan in
    let next := nth (Z.to_nat (previous_index + 1)) arr nan in
    lerp previous next (virtual_index - of_Z previous_index).

(** [numpy.percentile(a, q)] on a non-empty array without NaN: the array
    is put in ascending order. *)
Definition percentile (a : list float) (q : float) : float :=
  interpolate (sort PrimFloat.leb a) (q / 100).

(** *** pandas *)

(** The values of a column that are not missing. *)
Definition dropna (v : list float) : list float :=
  filter (fun x => negb (PrimFloat.is_nan x)) v.

(** [Series.quantile(q)] on a float column: the missing values are
    masked out, and the percentile [q * 100] of the others is taken; NaN
    when nothing is left. *)
Definition quantile (v : list float) (q : float) : float :=
  match dropna v with
  | [] => nan
  | values => percentile values (q * 100)
  end.

(** *** The method *)

(** On a column of strings the quantile raises as soon as there is a
    string to interpolate; with no value at all it is NaN, and so are the
    bounds, with which every comparison is false. *)
Definition remove_outliers_iqr (df : DataFrame) (column : string)
  : result DataFrame :=
  c <- getitem df column ;;
  match c with
  | ObjCol v =>
      match present v with
      | [] => Ok (select_rows df (map (fun _ => false) v))
      | _ => Raise TypeError
      end
  | NumCol v =>
      let Q1 := quantile v 0.25 in
      let Q3 := quantile v 0.75 in
      let IQR := Q3 - Q1 in
      let lower_bound := Q1 - 1.5 * IQR in
      let upper_bound := Q3 + 1.5 * IQR in
      Ok (select_rows df
            (map (fun x => (lower_bound <=? x) && (x <=? upper_bound)) v))
  end.

(** *** The contract, as the specification words it *)

(** [p] is the percentile [q] of the column "by linear interpolation":
    the value interpolated, at the position (n - 1) * q, in the ascending
    arrangement of the n values of the column that are not missing. *)
Definition is_percentile (v : list float) (q p : float) : Prop :=
  exists xs,
    Permutation xs (dropna v) /\
    Sorted (fun a b => (a <=? b) = true) xs /\
    xs <> [] /\
    p = interpolate xs q.

(** A value lies within [Q1 - 1.5 IQR, Q3 + 1.5 IQR] of the column, the
    quartiles, their difference and the two bounds being doubles. *)
Definition within_iqr (v : list float) (x : float) : Prop :=
  let Q1 := quantile v 0.25 in
  let Q3 := quantile v 0.75 in
  let IQR := Q3 - Q1 in
  (Q1 - 1.5 * IQR <=? x) = true /\ (x <=? Q3 + 1.5 * IQR) = true.

End Float64.

(** ** Concrete frames and encoders *)

Module Examples.
Import Pandas.

(** A float column of integers. *)
Definition floats (l : list Z) : column :=
  NumCol (map (fun z => Some (inject_Z z)) l).

(** An encoder as [joblib.load] may return it: fitted on one column
    [brand] with the single category [audi], under scikit-learn's default
    policy for unknown values. *)
Definition strict_encoder : OrdinalEncoder.t :=
  OrdinalEncoder.mkEncoder OrdinalEncoder.RaiseOnUnknown
    (Some (OrdinalEncoder.mkFitted [["audi"]] (Some ["brand"]))).

(** A one-row frame at inference whose brand the encoders never saw. *)
Definition unseen_frame : DataFrame :=
  mkDF [0%Z] [("brand", ObjCol [Some "bmw"])].

(** A frame with a categorical column in which a value is missing. *)
Definition missing_brand_frame : DataFrame :=
  mkDF [0%Z; 1%Z; 2%Z]
    [("brand", ObjCol [Some "audi"; None; Some "bmw"]);
     ("milage", NumCol [Some (inject_Z 10); Some (inject_Z 20); None])].

(** A training frame whose [brand] column holds no value at all. *)
Definition brandless_frame : DataFrame :=
  mkDF [0%Z; 1%Z; 2%Z; 3%Z]
    [("brand", ObjCol [None; None; None; None]);
     ("model", floats [1; 2; 3; 4]%Z);
     ("milage", floats [10; 20; 30; 40]%Z);
     ("engine", floats [1; 2; 1; 2]%Z);
     ("transmission", floats [1; 1; 2; 2]%Z);
     ("int_col", floats [3; 4; 3; 4]%Z);
     ("ext_col", floats [1; 2; 3; 4]%Z);
     ("model_year", floats [2020; 2021; 2022; 2023]%Z);
     ("price", floats [100; 200; 300; 400]%Z)].

(** A training frame on which the order of the two filters shows: the row
    removed for its [milage] carries the largest [price]. *)
Definition order_frame : DataFrame :=
  mkDF [0%Z; 1%Z; 2%Z; 3%Z; 4%Z; 5%Z]
    [("milage", floats [10; 11; 12; 13; 14; 1000]%Z);
     ("engine", floats [1; 1; 1; 1; 1; 1]%Z);
     ("transmission", floats [1; 1; 1; 1; 1; 1]%Z);
     ("int_col", floats [1; 1; 1; 1; 1; 1]%Z);
     ("ext_col", floats [1; 1; 1; 1; 1; 1]%Z);
     ("model_year", floats [2020; 2020; 2020; 2020; 2020; 2020]%Z);
     ("price", floats [1; 2; 3; 4; 20; 1000]%Z)].

(** A frame as met at inference: an [id] column, two categorical columns,
    a missing [milage], and row labels that are not positional. *)
Definition inference_frame : DataFrame :=
  mkDF [10%Z; 20%Z; 30%Z]
    [("id", floats [7; 8; 9]%Z);
     ("brand", ObjCol [Some "audi"; Some "bmw"; Some "audi"]);
     ("model", ObjCol [Some "a4"; Some "x5"; Some "q7"]);
     ("milage", NumCol [Some (inject_Z 10); None; Some (inject_Z 30)]);
     ("engine", floats [1; 2; 1]%Z);
     ("transmission", floats [1; 1; 2]%Z);
     ("int_col", floats [3; 4; 3]%Z);
     ("ext_col", floats [1; 2; 3]%Z);
     ("model_year", floats [2020; 2021; 2022]%Z)].

(** An encoder fitted on [brand] and [model] with the sentinel policy;
    it has not seen the model [q7]. *)
Definition fitted_encoder : OrdinalEncoder.t :=
  OrdinalEncoder.mkEncoder (OrdinalEncoder.UseEncodedValue (-1))
    (Some (OrdinalEncoder.mkFitted [["audi"; "bmw"]; ["a4"; "x5"]]
             (Some ["brand"; "model"]))).

(** A frame without missing values. *)
Definition complete_frame : DataFrame :=
  mkDF [4%Z; 2%Z]
    [("brand", ObjCol [Some "bmw"; Some "audi"]);
     ("milage", floats [10; 20]%Z)].

(** Two frames in which [engine] and [transmission] are still strings;
    the second has no [int_col]. *)
Definition string_engine_frame : DataFrame :=
  mkDF [0%Z]
    [("engine", ObjCol [Some "V6"]);
     ("transmission", ObjCol [Some "automatic"]);
     ("int_col", floats [3]%Z);
     ("ext_col", floats [1]%Z);
     ("model_year", floats [2020]%Z)].

Definition string_engine_frame_without_int_col : DataFrame :=
  mkDF [0%Z]
    [("engine", ObjCol [Some "V6"]);
     ("transmission", ObjCol [Some "automatic"]);
     ("ext_col", floats [1]%Z);
     ("model_year", floats [2020]%Z)].

End Examples.

(** ** Further frames *)

Module Frames.
Import Pandas.

(** A square root to six decimal places, for running the scaler. *)
Definition sqrt6 (q : Q) : Q :=
  (Z.sqrt (Qnum q * 1000000000000 / Zpos (Qden q)) # 1000000)%Q.

(** A frame with columns and no row. *)
Definition empty_frame : DataFrame :=
  mkDF []
    [("brand", ObjCol []);
     ("milage", NumCol []);
     ("price", NumCol [])].

(** A frame with an [engine] column and nothing else. *)
Definition engine_frame : DataFrame :=
  mkDF [0%Z] [("engine", Examples.floats [1]%Z)].

(** A frame whose [milage] column holds no value at all. *)
Definition unmeasured_frame : DataFrame :=
  mkDF [0%Z; 1%Z]
    [("milage", NumCol [None; None]);
     ("price", Examples.floats [100; 200]%Z)].

(** A training frame with every column the pipeline reads: an [id], two
    categorical columns known to [Examples.fitted_encoder], one missing
    [milage] and one far out. *)
Definition training_frame : DataFrame :=
  mkDF [0%Z; 1%Z; 2%Z; 3%Z; 4%Z; 5%Z]
    [("id", Examples.floats [1; 2; 3; 4; 5; 6]%Z);
     ("brand",
      ObjCol [Some "audi"; Some "bmw"; Some "audi"; Some "bmw"; Some "audi";
              Some "bmw"]);
     ("model",
      ObjCol [Some "a4"; Some "x5"; Some "a4"; Some "x5"; Some "a4";
              Some "x5"]);
     ("milage",
      NumCol [Some (inject_Z 10); Some (inject_Z 11); None;
              Some (inject_Z 13); Some (inject_Z 14); Some (inject_Z 1000)]);
     ("engine", Examples.floats [1; 2; 1; 2; 1; 2]%Z);
     ("transmission", Examples.floats [1; 1; 2; 2; 3; 3]%Z);
     ("int_col", Examples.floats [3; 4; 3; 4; 3; 4]%Z);
     ("ext_col", Examples.floats [1; 2; 3; 4; 5; 6]%Z);
     ("model_year", Examples.floats [2018; 2019; 2020; 2021; 2022; 2023]%Z);
     ("price", Examples.floats [100; 200; 300; 400; 500; 600]%Z)].

(** Four rows whose smallest [milage] is the lower bound of the exact
    interval, and falls below the bound computed in doubles. *)
Definition boundary_frame : Float64.DataFrame :=
  Float64.mkDF [0%Z; 1%Z; 2%Z; 3%Z]
    [("brand", Float64.ObjCol [Some "a"; Some "b"; Some "c"; Some "d"]);
     ("milage", Float64.NumCol [2.8; 3.5; 3.4; 3.7]%float)].

(** A frame of doubles with a column of strings without any value and a
    numeric column without any value. *)
Definition blank_frame : Float64.DataFrame :=
  Float64.mkDF [0%Z; 1%Z]
    [("brand", Float64.ObjCol [None; None]);
     ("milage", Float64.NumCol [nan; nan]%float);
     ("price", Float64.NumCol [100; 200]%float)].

End Frames.

(** * Properties *)

Import Pandas.

(** ** Generic list facts *)

Lemma bind_ok {A B : Type} (r : result A) (k : A -> result B) (b : B) :
  bind r k = Ok b -> exists a, r = Ok a /\ k a = Ok b.
Proof.
  destruct r as [a|e]; simpl; intros H; [exists a; auto | discriminate].
Qed.

Ltac bind_inv H :=
  let a := fresh "x" in
  let Ha := fresh "Hx" in
  apply bind_ok in H; destruct H as [a [Ha H]]; cbv beta in H.

Lemma mapM_length {A B : Type} (f : A -> result B) (l : list A) (m : list B) :
  mapM f l = Ok m -> List.length m = List.length l.
Proof.
  revert m; induction l as [|a l IH]; simpl; intros m H.
  - injection H as <-; reflexivity.
  - bind_inv H. bind_inv H. injection H as <-. simpl. f_equal. now apply IH.
Qed.

Lemma mapM_ok_map {A B : Type} (f : A -> result B) (g : A -> B) (l : list A) :
  (forall a, In a l -> f a = Ok (g a)) -> mapM f l = Ok (map g l).
Proof.
  induction l as [|a l IH]; simpl; intros H; [reflexivity|].
  rewrite (H a) by now left. simpl. rewrite IH by (intros; apply H; now right).
  reflexivity.
Qed.

Lemma map_nth_seq {A : Type} (l : list A) (d : A) :
  map (fun i => nth i l d) (seq 0 (List.length l)) = l.
Proof.
  induction l as [|a l IH]; simpl; [reflexivity|].
  f_equal. rewrite <- seq_shift, map_map. exact IH.
Qed.

(** ** Rounding *)

Lemma round_half_even_integer (z : Z) : round_half_even (inject_Z z) = z.
Proof.
  unfold round_half_even. rewrite Qfloor_Z.
  assert (H : (inject_Z z - inject_Z z ?= 1 # 2)%Q = Lt).
  { apply Qlt_alt.
    setoid_replace (inject_Z z - inject_Z z)%Q with 0%Q by ring.
    reflexivity. }
  now rewrite H.
Qed.

(** ** Categories and codes *)

Lemma insert_category_in (s x : string) (cats : list string) :
  In x (insert_category s cats) <-> x = s \/ In x cats.
Proof.
  induction cats as [|h t IH]; simpl.
  - intuition.
  - destruct (String.compare s h) eqn:E; simpl.
    + apply String.compare_eq_iff in E; subst h. intuition.
    + intuition.
    + rewrite IH. intuition.
Qed.

Lemma categories_in (v : list (option string)) (s : string) :
  In s (categories v) <-> In (Some s) v.
Proof.
  unfold categories. induction v as [|[a|] v IH]; simpl.
  - tauto.
  - rewrite insert_category_in, IH. split; intros [H|H]; auto.
    + left; now subst.
    + left; now injection H.
  - rewrite IH. split; [auto | intros [H|H]; [discriminate | auto]].
Qed.

Lemma index_of_nth_error (s : string) (l : list string) (i : nat) :
  index_of s l = Some i -> nth_error l i = Some s.
Proof.
  revert i; induction l as [|h t IH]; simpl; intros i H; [discriminate|].
  destruct (String.eqb s h) eqn:E.
  - injection H as <-. apply String.eqb_eq in E. now subst.
  - destruct (index_of s t) as [j|]; simpl in H; [|discriminate].
    injection H as <-. simpl. now apply IH.
Qed.

Lemma index_of_in (s : string) (l : list string) :
  In s l -> exists i, index_of s l = Some i.
Proof.
  induction l as [|h t IH]; simpl; intros H; [contradiction|].
  destruct (String.eqb s h) eqn:E; [now exists O|].
  destruct H as [H|H]; [subst; now rewrite String.eqb_refl in E|].
  destruct (IH H) as [i Hi]. exists (S i). now rewrite Hi.
Qed.

Lemma map_enumerate_of_nat (cats : list string) (i : nat) :
  map_enumerate cats (Z.of_nat i) = nth_error cats i.
Proof.
  unfold map_enumerate.
  destruct (Z.ltb_spec (Z.of_nat i) 0); [lia|]. now rewrite Nat2Z.id.
Qed.

(** Decoding the code of an observed value gives the value back. *)
Lemma decode_code (cats : list string) (s : string) :
  In s cats ->
  map_enumerate cats (round_half_even (inject_Z (cat_code cats (Some s)))) = Some s.
Proof.
  intros H. rewrite round_half_even_integer. simpl.
  destruct (index_of_in s cats H) as [i Hi]. rewrite Hi.
  rewrite map_enumerate_of_nat. now apply index_of_nth_error.
Qed.

Lemma roundtrip_values (cats : list string) (v : list (option string)) :
  no_missing v -> (forall s, In (Some s) v -> In s cats) ->
  map (fun z => map_enumerate cats (round_half_even (inject_Z z)))
    (map (cat_code cats) v) = v.
Proof.
  induction v as [|o v IH]; simpl; intros Hm Hin; [reflexivity|].
  inversion Hm as [|? ? Ho Hv]; subst.
  destruct o as [s|]; [|congruence].
  f_equal.
  - apply decode_code. apply Hin. now left.
  - apply IH; auto.
Qed.

(** ** The category round trip of [knn_impute] *)

Import DataPreprocessor Pipeline.

Lemma mapM_round_codes (zs : list Z) :
  mapM round_to_int (map (fun z => Some (inject_Z z)) zs) = Ok zs.
Proof.
  induction zs as [|z zs IH]; simpl; [reflexivity|].
  rewrite IH. simpl. now rewrite round_half_even_integer.
Qed.

Lemma roundtrip_codes (v : list (option string)) :
  no_missing v -> map (map_enumerate (categories v)) (cat_codes v) = v.
Proof.
  intros Hm. unfold cat_codes.
  transitivity
    (map (fun z => map_enumerate (categories v) (round_half_even (inject_Z z)))
       (map (cat_code (categories v)) v)).
  - apply map_ext. intros z. now rewrite round_half_even_integer.
  - apply roundtrip_values; [exact Hm|]. intros s. apply categories_in.
Qed.

Lemma categories_nonempty (v : list (option string)) :
  no_missing v -> v <> [] -> categories v <> [].
Proof.
  intros Hm Hv Hc. destruct v as [|[s|] v]; [congruence| |].
  - assert (In s (categories (Some s :: v))) as Hin
      by (apply categories_in; now left).
    rewrite Hc in Hin. contradiction.
  - inversion Hm; congruence.
Qed.

Lemma decode_encode_object (v : list (option string)) :
  no_missing v -> v <> [] ->
  decode_column (ObjCol v) (encode_for_knn (ObjCol v)) = Ok (ObjCol v).
Proof.
  intros Hm Hv. simpl. rewrite mapM_round_codes. simpl.
  pose proof (categories_nonempty v Hm Hv) as Hc.
  pose proof (roundtrip_codes v Hm) as Hr.
  destruct (categories v) as [|c cs]; [congruence|]. now rewrite Hr.
Qed.

(** C9.  For a categorical column without missing values, the temporary
    integer encoding of [knn_impute] (the category codes, as floats)
    followed by its inverse (round, cast to integer, look up in the
    enumeration of the same categories) gives the original strings back;
    on a non-empty column this is what the decoding step of [knn_impute]
    returns. *)
Theorem knn_category_roundtrip (v : list (option string)) :
  no_missing v ->
  map (fun z => map_enumerate (categories v) (round_half_even (inject_Z z)))
    (cat_codes v) = v
  /\ (v <> [] ->
      decode_column (ObjCol v) (encode_for_knn (ObjCol v)) = Ok (ObjCol v)).
Proof.
  intros Hm. split.
  - unfold cat_codes. apply roundtrip_values; [exact Hm|].
    intros s. apply categories_in.
  - intros Hv. now apply decode_encode_object.
Qed.

Lemma knn_category_roundtrip_witness :
  let v := [Some "suv"; Some "coupe"; Some "suv"; Some "sedan"] in
  map (fun z => map_enumerate (categories v) (round_half_even (inject_Z z)))
    (cat_codes v) = v
  /\ (v <> [] ->
      decode_column (ObjCol v) (encode_for_knn (ObjCol v)) = Ok (ObjCol v)).
Proof.
  apply knn_category_roundtrip.
  repeat constructor; discriminate.
Defined.

(** ** [knn_impute] on a frame without missing values *)

Lemma nth_no_missing {A : Type} (v : list (option A)) (i : nat) :
  no_missing v -> (i < List.length v)%nat -> exists a, nth i v None = Some a.
Proof.
  intros Hm Hi. unfold no_missing in Hm. rewrite Forall_forall in Hm.
  pose proof (Hm (nth i v None) (nth_In v None Hi)) as H.
  destruct (nth i v None) as [a|]; [now exists a | congruence].
Qed.

Lemma transform_column_complete (k : nat) (X : KNNImputer.matrix)
    (col : list (option Q)) :
  no_missing col ->
  KNNImputer.transform_column k X (List.length col) col = col.
Proof.
  intros Hm. unfold KNNImputer.transform_column.
  transitivity (map (fun i => nth i col None) (seq 0 (List.length col)));
    [|apply map_nth_seq].
  apply map_ext_in. intros i Hi. apply in_seq in Hi.
  destruct (nth_no_missing col i Hm) as [a Ha]; [lia|]. now rewrite Ha.
Qed.

Lemma is_valid_complete (col : list (option Q)) :
  no_missing col -> col <> [] -> KNNImputer.is_valid col = true.
Proof.
  intros Hm Hc. destruct col as [|[a|] col]; [congruence|reflexivity|].
  inversion Hm; congruence.
Qed.

Lemma encode_for_knn_length (c : column) :
  List.length (encode_for_knn c) = col_length c.
Proof.
  destruct c as [v|v]; simpl; [reflexivity|].
  unfold cat_codes. now rewrite !length_map.
Qed.

Lemma encode_for_knn_complete (c : column) :
  complete_column c -> no_missing (encode_for_knn c).
Proof.
  destruct c as [v|v]; simpl; intros H; [exact H|].
  apply Forall_forall. intros o Ho. apply in_map_iff in Ho.
  destruct Ho as [z [<- _]]. discriminate.
Qed.

Lemma decode_encode (c : column) :
  complete_column c -> (0 < col_length c)%nat ->
  decode_column c (encode_for_knn c) = Ok c.
Proof.
  destruct c as [v|v]; intros Hm Hl; [reflexivity|].
  apply decode_encode_object; [exact Hm|].
  intros ->. simpl in Hl. lia.
Qed.

Lemma map_id_in {A : Type} (f : A -> A) (l : list A) :
  (forall a, In a l -> f a = a) -> map f l = l.
Proof.
  intros H. rewrite <- (map_id l) at 2. now apply map_ext_in.
Qed.

Lemma filter_all {A : Type} (p : A -> bool) (l : list A) :
  (forall a, In a l -> p a = true) -> filter p l = l.
Proof.
  induction l as [|a l IH]; simpl; intros H; [reflexivity|].
  rewrite (H a) by now left. f_equal. apply IH. intros; apply H; now right.
Qed.

Lemma decode_all (cols : list (string * column)) :
  (forall nc, In nc cols ->
     complete_column (snd nc) /\ (0 < col_length (snd nc))%nat) ->
  mapM decode_named
    (combine cols
       (combine (map fst (map (fun nc => (fst nc, encode_for_knn (snd nc))) cols))
          (map NumCol
             (map snd (map (fun nc => (fst nc, encode_for_knn (snd nc))) cols)))))
  = Ok cols.
Proof.
  induction cols as [|[n c] cols IH]; simpl; intros H; [reflexivity|].
  unfold decode_named at 1. simpl.
  destruct (H (n, c)) as [Hc Hl]; [now left|]. simpl in Hc, Hl.
  rewrite decode_encode by assumption. simpl.
  rewrite IH by (intros; apply H; now right). reflexivity.
Qed.

Lemma knn_impute_complete_ok (df : DataFrame) (k : Z) :
  aligned df -> complete df ->
  (0 < k)%Z -> (0 < nrows df)%nat -> columns df <> [] ->
  knn_impute df k = Ok (mkDF (RangeIndex (nrows df)) (columns df)).
Proof.
  intros Ha Hc Hk Hn Hcols. unfold knn_impute, KNNImputer.fit_transform.
  unfold aligned in Ha. unfold complete in Hc. rewrite Forall_forall in Ha, Hc.
  destruct (Z.leb_spec k 0); [lia|].
  destruct (Nat.eqb_spec (nrows df) 0); [lia|]. rewrite !length_map.
  destruct (Nat.eqb_spec (List.length (columns df)) 0) as [E|_].
  { destruct (columns df); [congruence | discriminate]. }
  simpl.
  set (X := map snd (map (fun nc => (fst nc, encode_for_knn (snd nc))) (columns df))).
  assert (HX : forall col, In col X ->
            no_missing col /\ List.length col = nrows df).
  { intros col Hin. unfold X in Hin. rewrite map_map in Hin. simpl in Hin.
    apply in_map_iff in Hin. destruct Hin as [nc [<- Hnc]]. split.
    - apply encode_for_knn_complete. now apply Hc.
    - rewrite encode_for_knn_length. now apply Ha. }
  rewrite filter_all.
  2:{ intros col Hin. destruct (HX col Hin) as [Hm Hl].
      apply is_valid_complete; [exact Hm|]. intros ->. simpl in Hl. lia. }
  rewrite map_id_in.
  2:{ intros col Hin. destruct (HX col Hin) as [Hm Hl].
      rewrite <- Hl. now apply transform_column_complete. }
  unfold of_array. unfold X. rewrite !length_map, Nat.eqb_refl. simpl.
  rewrite decode_all; [reflexivity|].
  intros nc Hin. split; [now apply Hc|]. rewrite (Ha nc Hin). exact Hn.
Qed.

Lemma knn_impute_ok_guards (df df' : DataFrame) (k : Z) :
  knn_impute df k = Ok df' ->
  (0 < k)%Z /\ (0 < nrows df)%nat /\ columns df <> [].
Proof.
  unfold knn_impute, KNNImputer.fit_transform. intros H.
  destruct (Z.leb_spec k 0); [discriminate|].
  destruct (Nat.eqb_spec (nrows df) 0); [discriminate|].
  rewrite !length_map in H.
  destruct (Nat.eqb_spec (List.length (columns df)) 0) as [E|E]; [discriminate|].
  repeat split; [assumption | lia |]. intros Hc. now rewrite Hc in E.
Qed.

(** C8.  On a frame without missing values [knn_impute] changes no cell and
    keeps the columns in their order: whenever it returns, the returned
    columns (labels, order, dtypes and values; numbers compared as
    rationals) are the input's, and it does return when the frame has at
    least one row and one column and the neighbour count is positive (the
    imputer rejects every other call). *)
Theorem knn_impute_without_missing (df : DataFrame) (k : Z) :
  aligned df -> complete df ->
  ((0 < k)%Z -> (0 < nrows df)%nat -> columns df <> [] ->
   exists df', knn_impute df k = Ok df') /\
  (forall df', knn_impute df k = Ok df' -> columns df' = columns df).
Proof.
  intros Ha Hc. split.
  - intros Hk Hn Hcols. eexists. now apply knn_impute_complete_ok.
  - intros df' H.
    destruct (knn_impute_ok_guards df df' k H) as [Hk [Hn Hcols]].
    rewrite knn_impute_complete_ok in H by assumption.
    injection H as <-. reflexivity.
Qed.

(** ** Row index and row count along the pipeline *)

Lemma mapM_Forall {A B : Type} (f : A -> result B) (P : B -> Prop)
    (l : list A) (m : list B) :
  (forall a b, In a l -> f a = Ok b -> P b) ->
  mapM f l = Ok m -> Forall P m.
Proof.
  revert m; induction l as [|a l IH]; simpl; intros m HP H.
  - injection H as <-. constructor.
  - bind_inv H. bind_inv H. injection H as <-. constructor.
    + apply (HP a); [now left | assumption].
    + apply IH; [|assumption]. intros a0 b0 Hin. apply HP. now right.
Qed.

Lemma RangeIndex_length (n : nat) : List.length (RangeIndex n) = n.
Proof. unfold RangeIndex. now rewrite length_map, length_seq. Qed.

Lemma transform_column_length (k : nat) (X : KNNImputer.matrix) (n : nat)
    (col : list (option Q)) :
  List.length (KNNImputer.transform_column k X n col) = n.
Proof. unfold KNNImputer.transform_column. now rewrite length_map, length_seq. Qed.

Lemma decode_column_length (c c' : column) (imputed : list (option Q)) :
  decode_column c imputed = Ok c' -> col_length c' = List.length imputed.
Proof.
  destruct c as [v|v]; simpl; intros H.
  - injection H as <-. reflexivity.
  - bind_inv H. apply mapM_length in Hx.
    destruct (categories v); injection H as <-; simpl;
      now rewrite length_map.
Qed.

Lemma knn_impute_index (df df' : DataFrame) (k : Z) :
  knn_impute df k = Ok df' -> index df' = RangeIndex (nrows df).
Proof.
  unfold knn_impute. intros H. bind_inv H. bind_inv H. bind_inv H.
  injection H as <-. simpl. unfold of_array in Hx0.
  destruct (_ =? _)%nat in Hx0; [|discriminate]. now injection Hx0 as <-.
Qed.

Lemma knn_impute_aligned (df df' : DataFrame) (k : Z) :
  knn_impute df k = Ok df' ->
  Forall (fun nc => col_length (snd nc) = nrows df) (columns df').
Proof.
  unfold knn_impute. intros H. bind_inv H. bind_inv H. bind_inv H.
  injection H as <-. simpl.
  unfold KNNImputer.fit_transform in Hx.
  destruct (_ <=? _)%Z in Hx; [discriminate|].
  destruct (_ || _)%bool in Hx; [discriminate|]. injection Hx as <-.
  unfold of_array in Hx0.
  destruct (_ =? _)%nat in Hx0; [|discriminate]. injection Hx0 as <-.
  simpl in Hx1. revert Hx1. apply mapM_Forall.
  intros [[n c] [n' c']] [m d] Hin. unfold decode_named. simpl.
  apply in_combine_r in Hin. apply in_combine_r in Hin.
  apply in_map_iff in Hin. destruct Hin as [col [E Hcol]].
  apply in_map_iff in Hcol. destruct Hcol as [col0 [<- _]]. subst c'.
  intros H. bind_inv H. injection H as _ <-.
  apply decode_column_length in Hx. rewrite Hx.
  apply transform_column_length.
Qed.

Lemma set_col_Forall (P : string * column -> Prop) (name : string) (c : column)
    (cols : list (string * column)) :
  (forall n, P (n, c)) -> Forall P cols -> Forall P (set_col name c cols).
Proof.
  intros Hc. induction 1 as [|[n c'] t Hh Ht IH]; simpl.
  - constructor; auto.
  - destruct (String.eqb name n); constructor; auto.
Qed.

Lemma assign_columns_index (df : DataFrame) (labels : list string)
    (arr : list (list (option Q))) :
  index (assign_columns df labels arr) = index df.
Proof.
  unfold assign_columns. generalize (combine labels arr) as l. intros l.
  revert df. induction l as [|la l IH]; intros df; simpl; [reflexivity|].
  now rewrite IH.
Qed.

Lemma assign_columns_aligned (n : nat) (df : DataFrame) (labels : list string)
    (arr : list (list (option Q))) :
  Forall (fun col => List.length col = n) arr ->
  Forall (fun nc => col_length (snd nc) = n) (columns df) ->
  Forall (fun nc => col_length (snd nc) = n)
    (columns (assign_columns df labels arr)).
Proof.
  unfold assign_columns. intros Harr.
  assert (Hl : Forall (fun la => List.length (snd la) = n) (combine labels arr)).
  { apply Forall_forall. intros [l a] Hin. apply in_combine_r in Hin.
    rewrite Forall_forall in Harr. now apply Harr. }
  clear Harr. revert df. induction Hl as [|[l a] t Hh Ht IH]; intros df Hdf.
  - exact Hdf.
  - simpl. apply IH. simpl. apply set_col_Forall; auto.
Qed.

Lemma drop_index (df df' : DataFrame) (labels : list string) :
  drop df labels = Ok df' -> index df' = index df.
Proof.
  unfold drop. destruct (find _ labels); [discriminate|].
  now injection 1 as <-.
Qed.

Lemma drop_Forall (P : string * column -> Prop) (df df' : DataFrame)
    (labels : list string) :
  drop df labels = Ok df' -> Forall P (columns df) -> Forall P (columns df').
Proof.
  unfold drop. destruct (find _ labels); [discriminate|].
  injection 1 as <-. simpl. intros H. rewrite Forall_forall in *.
  intros x Hx. apply filter_In in Hx. now apply H.
Qed.

Lemma lookup_In (name : string) (cols : list (string * column)) (c : column) :
  lookup name cols = Some c -> In (name, c) cols.
Proof.
  induction cols as [|[n c'] t IH]; simpl; [discriminate|].
  destruct (String.eqb name n) eqn:E.
  - injection 1 as ->. apply String.eqb_eq in E. subst. now left.
  - intros H. right. now apply IH.
Qed.

Lemma getitem_In (df : DataFrame) (name : string) (c : column) :
  getitem df name = Ok c -> In (name, c) (columns df).
Proof.
  unfold getitem. destruct (lookup name (columns df)) eqn:E; [|discriminate].
  injection 1 as ->. now apply lookup_In.
Qed.

Lemma zip_with_length {A B C : Type} (f : A -> B -> C) (l : list A) (m : list B) :
  List.length l = List.length m ->
  List.length (zip_with f l m) = List.length l.
Proof.
  revert m; induction l as [|a l IH]; intros [|b m]; simpl; try discriminate;
    auto.
Qed.

Lemma col_mul_length (a b c : column) (n : nat) :
  col_mul a b = Ok c -> col_length a = n -> col_length b = n -> col_length c = n.
Proof.
  destruct a as [x|x], b as [y|y]; simpl; try discriminate.
  injection 1 as <-. simpl. intros Hx Hy.
  rewrite zip_with_length; congruence.
Qed.

Lemma rsub_length (k : Q) (a c : column) :
  rsub k a = Ok c -> col_length c = col_length a.
Proof.
  destruct a as [x|x]; simpl; [|discriminate].
  injection 1 as <-. simpl. apply length_map.
Qed.

Lemma create_features_index (df df' : DataFrame) :
  create_features df = Ok df' -> index df' = index df.
Proof.
  unfold create_features. intros H. cbv zeta in H.
  repeat bind_inv H.
  apply drop_index in H, Hx5. simpl in *. congruence.
Qed.

Lemma create_features_aligned (n : nat) (df df' : DataFrame) :
  create_features df = Ok df' ->
  Forall (fun nc => col_length (snd nc) = n) (columns df) ->
  Forall (fun nc => col_length (snd nc) = n) (columns df').
Proof.
  unfold create_features. intros H Hdf. cbv zeta in H.
  repeat bind_inv H.
  assert (Hget : forall d name c,
             Forall (fun nc => col_length (snd nc) = n) (columns d) ->
             getitem d name = Ok c -> col_length c = n).
  { intros d name c Hd Hg. apply getitem_In in Hg.
    rewrite Forall_forall in Hd. exact (Hd _ Hg). }
  pose proof (Hget _ _ _ Hdf Hx) as L1.
  pose proof (Hget _ _ _ Hdf Hx0) as L2.
  pose proof (col_mul_length _ _ _ n Hx1 L1 L2) as L3.
  assert (Hd1 : Forall (fun nc => col_length (snd nc) = n)
                  (columns (setitem df "engine_transmission" x1))).
  { simpl. apply set_col_Forall; auto. }
  pose proof (Hget _ _ _ Hd1 Hx2) as L4.
  pose proof (Hget _ _ _ Hd1 Hx3) as L5.
  pose proof (col_mul_length _ _ _ n Hx4 L4 L5) as L6.
  assert (Hd2 : Forall (fun nc => col_length (snd nc) = n)
                  (columns (setitem (setitem df "engine_transmission" x1)
                              "int_ext_color" x4))).
  { simpl. apply set_col_Forall; auto. }
  pose proof (drop_Forall _ _ _ _ Hx5 Hd2) as Hd3.
  pose proof (Hget _ _ _ Hd3 Hx6) as L7.
  pose proof (rsub_length _ _ _ Hx7) as L8.
  apply (drop_Forall _ _ _ _ H). simpl. apply set_col_Forall; auto.
  intros name. simpl. congruence.
Qed.

Lemma encode_columns_lengths (p : OrdinalEncoder.unknown_policy) (n : nat)
    (cats : list (list string)) (X : list (list string)) (arr : list (list Q)) :
  OrdinalEncoder.encode_columns p cats X = Ok arr ->
  Forall (fun x => List.length x = n) X ->
  Forall (fun col => List.length col = n) arr.
Proof.
  revert X arr. induction cats as [|c cats IH]; intros [|x X] arr; simpl;
    try (injection 1 as <-; constructor).
  intros H HX. bind_inv H. bind_inv H. injection H as <-.
  inversion HX; subst. constructor.
  - apply mapM_length in Hx. congruence.
  - eapply IH; eauto.
Qed.

Lemma transform_lengths (enc : OrdinalEncoder.t) (n : nat)
    (labels : list string) (X : list (list string)) (arr : list (list Q)) :
  OrdinalEncoder.transform enc labels X = Ok arr ->
  Forall (fun x => List.length x = n) X ->
  Forall (fun col => List.length col = n) arr.
Proof.
  unfold OrdinalEncoder.transform.
  destruct (OrdinalEncoder.state enc) as [st|]; [|discriminate].
  destruct (match OrdinalEncoder.feature_names_in_ st with
            | Some fn => _ | None => _ end); [discriminate|].
  destruct (negb _); [discriminate|].
  apply encode_columns_lengths.
Qed.

Lemma object_values_lengths (n : nat) (df : DataFrame) :
  Forall (fun nc => col_length (snd nc) = n) (columns df) ->
  Forall (fun x => List.length x = n) (object_values df).
Proof.
  unfold object_values. induction 1 as [|[l [v|v]] t Hh Ht IH]; simpl.
  - constructor.
  - exact IH.
  - constructor; [|exact IH]. unfold astype_str. now rewrite length_map.
Qed.

Lemma encode_categoricals_index (self : DataPreprocessor.t) (df df' : DataFrame) :
  encode_categoricals self df = Ok df' -> index df' = index df.
Proof.
  unfold encode_categoricals. destruct (_ <? _)%nat.
  - intros H. bind_inv H. injection H as <-. apply assign_columns_index.
  - now injection 1 as <-.
Qed.

Lemma encode_categoricals_aligned (self : DataPreprocessor.t) (n : nat)
    (df df' : DataFrame) :
  encode_categoricals self df = Ok df' ->
  Forall (fun nc => col_length (snd nc) = n) (columns df) ->
  Forall (fun nc => col_length (snd nc) = n) (columns df').
Proof.
  unfold encode_categoricals. destruct (_ <? _)%nat.
  - intros H Hdf. bind_inv H. injection H as <-.
    apply assign_columns_aligned; [|exact Hdf].
    apply (transform_lengths _ n) in Hx; [|now apply object_values_lengths].
    rewrite Forall_forall in *. intros col Hin.
    apply in_map_iff in Hin. destruct Hin as [c [<- Hc]].
    rewrite length_map. now apply Hx.
  - now injection 1 as <-.
Qed.

Lemma drop_id_nrows (df df' : DataFrame) :
  drop_id df = Ok df' -> nrows df' = nrows df.
Proof.
  unfold drop_id, nrows. destruct (has_column "id" df).
  - intros H. apply drop_index in H. now rewrite H.
  - now injection 1 as <-.
Qed.

Lemma preprocess_data_inference (self : DataPreprocessor.t) (df : DataFrame) :
  preprocess_data self df false = Pipeline.inference_sequence self df.
Proof.
  change (preprocess_data self df false)
    with (a <- drop_id df ;;
          b <- knn_impute a 25 ;;
          c <- encode_categoricals self b ;;
          d <- create_features c ;;
          Ok d).
  unfold Pipeline.inference_sequence.
  destruct (drop_id df) as [a|]; simpl; [|reflexivity].
  destruct (knn_impute a 25) as [b|]; simpl; [|reflexivity].
  destruct (encode_categoricals self b) as [c|]; simpl; [|reflexivity].
  destruct (create_features c); reflexivity.
Qed.

Lemma preprocess_data_training (self : DataPreprocessor.t) (df : DataFrame) :
  preprocess_data self df true = Pipeline.training_sequence self df.
Proof. reflexivity. Qed.

Lemma inference_index (self : DataPreprocessor.t) (df df' : DataFrame) :
  Pipeline.inference_sequence self df = Ok df' ->
  index df' = RangeIndex (nrows df).
Proof.
  unfold Pipeline.inference_sequence. intros H. do 3 bind_inv H.
  apply create_features_index in H. apply encode_categoricals_index in Hx1.
  apply knn_impute_index in Hx0. apply drop_id_nrows in Hx. congruence.
Qed.

Lemma inference_aligned (self : DataPreprocessor.t) (df df' : DataFrame) :
  Pipeline.inference_sequence self df = Ok df' ->
  Forall (fun nc => col_length (snd nc) = nrows df) (columns df').
Proof.
  unfold Pipeline.inference_sequence. intros H. do 3 bind_inv H.
  apply (create_features_aligned _ _ _ H).
  apply (encode_categoricals_aligned _ _ _ _ Hx1).
  apply drop_id_nrows in Hx. rewrite <- Hx.
  now apply (knn_impute_aligned _ _ 25).
Qed.

(** C6.  The inference path is exactly drop-id, imputation, encoding and
    feature composition, with no outlier removal; whenever it returns, the
    result has as many rows as the input: its index and every one of its
    columns have the input's row count. *)
Theorem inference_keeps_row_count (self : DataPreprocessor.t)
    (df df' : DataFrame) :
  preprocess_data self df false = Ok df' ->
  preprocess_data self df false = Pipeline.inference_sequence self df /\
  nrows df' = nrows df /\
  Forall (fun nc => col_length (snd nc) = nrows df) (columns df').
Proof.
  intros H. split; [apply preprocess_data_inference|].
  rewrite preprocess_data_inference in H.
  split.
  - apply inference_index in H. unfold nrows at 1. rewrite H.
    apply RangeIndex_length.
  - now apply inference_aligned in H.
Qed.

(** C2.  On the training path [preprocess_data] is the composition, in this
    order, of: drop [id] if present, [knn_impute] with 25 neighbours,
    ordinal encoding of the categorical columns, [create_features],
    [remove_outliers_iqr] on [milage], [remove_outliers_iqr] on [price] and
    the index reset.  The [price] filter is applied to, and takes its
    quartiles from, the result of the [milage] filter: taking them from the
    frame before that filter gives another result on [order_frame]. *)
Theorem training_is_the_ordered_composition (self : DataPreprocessor.t)
    (df : DataFrame) :
  preprocess_data self df true = Pipeline.training_sequence self df /\
  preprocess_data (init None) Examples.order_frame true
    <> Pipeline.training_sequence_independent_filters (init None)
         Examples.order_frame.
Proof.
  split.
  - unfold Pipeline.training_sequence, preprocess_data, drop_id,
      encode_categoricals. reflexivity.
  - intros H. vm_compute in H. discriminate H.
Qed.

(** ** Sorting *)

Lemma insert_perm {A : Type} (leb : A -> A -> bool) (x : A) (l : list A) :
  Permutation (insert leb x l) (x :: l).
Proof.
  induction l as [|h t IH]; simpl; [reflexivity|].
  destruct (leb x h); [reflexivity|].
  rewrite IH. apply perm_swap.
Qed.

Lemma sort_perm {A : Type} (leb : A -> A -> bool) (l : list A) :
  Permutation (sort leb l) l.
Proof.
  induction l as [|a l IH]; simpl; [reflexivity|].
  unfold sort in *. simpl. rewrite insert_perm. now constructor.
Qed.

Lemma sort_length {A : Type} (leb : A -> A -> bool) (l : list A) :
  List.length (sort leb l) = List.length l.
Proof. apply Permutation_length, sort_perm. Qed.

(** ** Row selection by a mask *)

Lemma filter_map_swap' {A B : Type} (p : B -> bool) (f : A -> B) (l : list A) :
  filter p (map f l) = map f (filter (fun a => p (f a)) l).
Proof.
  induction l as [|a l IH]; simpl; [reflexivity|].
  destruct (p (f a)); simpl; now rewrite IH.
Qed.

Lemma kept_cons (b : bool) (m : list bool) :
  kept (b :: m) = (if b then [O] else []) ++ map S (kept m).
Proof.
  unfold kept. simpl List.length. rewrite <- cons_seq, <- seq_shift. simpl.
  rewrite filter_map_swap'. simpl. now destruct b.
Qed.

Lemma mask_filter_kept {A : Type} (d : A) (mask : list bool) (l : list A) :
  List.length l = List.length mask ->
  mask_filter mask l = map (fun i => nth i l d) (kept mask).
Proof.
  revert l. induction mask as [|b m IH]; intros [|a t]; simpl; try discriminate.
  - reflexivity.
  - intros H. injection H as H. rewrite kept_cons, map_app, map_map.
    rewrite <- (IH t H). now destruct b.
Qed.

Lemma kept_length_le (mask : list bool) :
  (List.length (kept mask) <= List.length mask)%nat.
Proof.
  unfold kept. etransitivity; [apply filter_length_le|].
  now rewrite length_seq.
Qed.

Lemma nth_map_in {A B : Type} (f : A -> B) (l : list A) (j : nat) (d : A) (e : B) :
  (j < List.length l)%nat -> nth j (map f l) e = f (nth j l d).
Proof.
  intros H. rewrite (nth_indep _ e (f d)) by now rewrite length_map.
  apply map_nth.
Qed.

Lemma kept_map {A : Type} (f : A -> bool) (d : A) (v : list A) :
  f d = false ->
  kept (map f v) = filter (fun i => f (nth i v d)) (seq 0 (List.length v)).
Proof.
  intros Hd. unfold kept. rewrite length_map. apply filter_ext.
  intros i. rewrite <- Hd. apply map_nth.
Qed.

(** ** The feature composer *)

Lemma lookup_set_col (x name : string) (c : column) (cols : list (string * column)) :
  lookup x (set_col name c cols) =
    if String.eqb x name then Some c else lookup x cols.
Proof.
  induction cols as [|[n c'] t IH]; simpl.
  - reflexivity.
  - destruct (String.eqb name n) eqn:E; simpl.
    + apply String.eqb_eq in E. subst n.
      destruct (String.eqb x name); reflexivity.
    + rewrite IH. destruct (String.eqb x n) eqn:E'; [|reflexivity].
      apply String.eqb_eq in E'. subst n.
      rewrite String.eqb_sym in E. now rewrite E.
Qed.

Lemma lookup_filter (x : string) (labels : list string)
    (cols : list (string * column)) :
  lookup x (filter (fun nc => negb (existsb (String.eqb (fst nc)) labels)) cols) =
    if existsb (String.eqb x) labels then None else lookup x cols.
Proof.
  induction cols as [|[n c] t IH]; simpl.
  - now destruct (existsb _ labels).
  - destruct (existsb (String.eqb n) labels) eqn:En; simpl.
    + rewrite IH. destruct (String.eqb x n) eqn:E; [|reflexivity].
      apply String.eqb_eq in E. subst n. now rewrite En.
    + destruct (String.eqb x n) eqn:E; [|exact IH].
      apply String.eqb_eq in E. subst n. now rewrite En.
Qed.

Lemma has_column_lookup (x : string) (df : DataFrame) :
  has_column x df =
    match lookup x (columns df) with Some _ => true | None => false end.
Proof.
  unfold has_column, names. induction (columns df) as [|[n c] t IH]; simpl.
  - reflexivity.
  - destruct (String.eqb x n); [reflexivity | exact IH].
Qed.

Lemma lookup_names (x : string) (cols : list (string * column)) :
  In x (map fst cols) <-> lookup x cols <> None.
Proof.
  induction cols as [|[n c] t IH]; simpl.
  - split; [contradiction | congruence].
  - destruct (String.eqb x n) eqn:E.
    + apply String.eqb_eq in E. subst. split; [discriminate | now left].
    + apply String.eqb_neq in E. rewrite <- IH. split; [|now right].
      intros [H|H]; [congruence | exact H].
Qed.

Lemma drop_ok (df : DataFrame) (labels : list string) :
  (forall l, In l labels -> lookup l (columns df) <> None) ->
  drop df labels =
    Ok (mkDF (index df)
          (filter (fun nc => negb (existsb (String.eqb (fst nc)) labels))
             (columns df))).
Proof.
  intros H. unfold drop.
  replace (find (fun l => negb (has_column l df)) labels) with (@None string);
    [reflexivity|].
  symmetry. induction labels as [|l labels IH]; simpl; [reflexivity|].
  rewrite has_column_lookup.
  destruct (lookup l (columns df)) eqn:E.
  - simpl. apply IH. intros; apply H; now right.
  - exfalso. apply (H l); [now left | exact E].
Qed.

(** Decides the comparisons of string literals in the goal. *)
Ltac str_eval :=
  repeat match goal with
    | |- context [existsb (String.eqb ?a) ?l] =>
        let r := eval compute in (existsb (String.eqb a) l) in
        match r with
        | true => change (existsb (String.eqb a) l) with true
        | false => change (existsb (String.eqb a) l) with false
        end
    | |- context [String.eqb ?a ?b] =>
        let r := eval compute in (String.eqb a b) in
        match r with
        | true => change (String.eqb a b) with true
        | false => change (String.eqb a b) with false
        end
    end;
  cbv iota.

Ltac lookup_eval :=
  cbn [columns index setitem];
  repeat (rewrite lookup_filter || rewrite lookup_set_col);
  str_eval.

Ltac all_present :=
  let l := fresh "l" in
  let Hl := fresh "Hl" in
  intros l Hl; simpl in Hl;
  repeat (destruct Hl as [<-|Hl]); try contradiction;
  lookup_eval; congruence.

Ltac getitem_step H :=
  unfold getitem at 1; lookup_eval; rewrite H; cbn [bind].

(** What the composer returns on numeric source columns. *)
Lemma create_features_ok (df : DataFrame) (e t ic ec my : list (option Q)) :
  lookup "engine" (columns df) = Some (NumCol e) ->
  lookup "transmission" (columns df) = Some (NumCol t) ->
  lookup "int_col" (columns df) = Some (NumCol ic) ->
  lookup "ext_col" (columns df) = Some (NumCol ec) ->
  lookup "model_year" (columns df) = Some (NumCol my) ->
  exists df',
    create_features df = Ok df' /\
    index df' = index df /\
    forall x,
      lookup x (columns df') =
        if existsb (String.eqb x) source_columns then None
        else if String.eqb x "car_age"
        then Some (NumCol (map (option_map (fun y => (inject_Z 2024 - y)%Q)) my))
        else if String.eqb x "int_ext_color"
        then Some (NumCol (zip_with (lift2 Qmult) ic ec))
        else if String.eqb x "engine_transmission"
        then Some (NumCol (zip_with (lift2 Qmult) e t))
        else lookup x (columns df).
Proof.
  intros He Ht Hic Hec Hmy. unfold create_features. cbv zeta.
  getitem_step He. getitem_step Ht. cbn [col_mul bind].
  getitem_step Hic. getitem_step Hec. cbn [col_mul bind].
  rewrite drop_ok by all_present. cbn [bind].
  getitem_step Hmy. cbn [rsub bind].
  rewrite drop_ok by all_present.
  eexists. split; [reflexivity|]. split; [reflexivity|].
  intros x. cbn [columns index setitem].
  rewrite lookup_filter, lookup_set_col, lookup_filter, !lookup_set_col.
  simpl.
  destruct (String.eqb x "model_year") eqn:E1;
    [apply String.eqb_eq in E1; subst; reflexivity|].
  destruct (String.eqb x "engine") eqn:E2;
    [apply String.eqb_eq in E2; subst; reflexivity|].
  destruct (String.eqb x "transmission") eqn:E3;
    [apply String.eqb_eq in E3; subst; reflexivity|].
  destruct (String.eqb x "int_col") eqn:E4;
    [apply String.eqb_eq in E4; subst; reflexivity|].
  destruct (String.eqb x "ext_col") eqn:E5;
    [apply String.eqb_eq in E5; subst; reflexivity|].
  simpl. rewrite ?orb_false_r.
  destruct (String.eqb x "car_age"); [reflexivity|].
  destruct (String.eqb x "int_ext_color"); reflexivity.
Qed.

Ltac getitem_case name H :=
  unfold getitem at 1; lookup_eval;
  destruct (lookup name (columns _)) as [[?v|?v]|] eqn:H; cbn [bind col_mul rsub].

Ltac raise_done :=
  eexists; split; [reflexivity|];
  let Hnum := fresh "Hnum" in
  intros Hnum;
  first
    [ match goal with
      | |- exists k, _ /\ _ /\ KeyError ?s = KeyError k =>
          exists s; split; [simpl; tauto | split; [assumption | reflexivity]]
      end
    | exfalso;
      match goal with
      | H : lookup ?x _ = Some (ObjCol ?v) |- _ =>
          specialize (Hnum x (ObjCol v)); simpl in Hnum;
          assert (true = false) by (apply Hnum; [tauto | exact H]);
          discriminate
      end ].

(** What the composer does when a source column is absent. *)
Lemma create_features_missing (df : DataFrame) :
  (exists x, In x source_columns /\ lookup x (columns df) = None) ->
  exists e,
    create_features df = Raise e /\
    ((forall x c, In x source_columns -> lookup x (columns df) = Some c ->
                  is_object c = false) ->
     exists k, In k source_columns /\ lookup k (columns df) = None /\
               e = KeyError k).
Proof.
  intros Habs. unfold create_features. cbv zeta.
  getitem_case "engine" He; [| |raise_done].
  - getitem_case "transmission" Ht; [| |raise_done].
    + getitem_case "int_col" Hic; [| |raise_done].
      * getitem_case "ext_col" Hec; [| |raise_done].
        -- rewrite drop_ok by all_present. cbn [bind].
           getitem_case "model_year" Hmy; [| raise_done | raise_done].
           exfalso. destruct Habs as [x [Hin Hx]]. simpl in Hin.
           repeat (destruct Hin as [<-|Hin]; [congruence|]). exact Hin.
        -- raise_done.
      * getitem_case "ext_col" Hec; raise_done.
    + raise_done.
  - getitem_case "transmission" Ht; raise_done.
Qed.

(** C4 (as amended).  On a frame whose five source columns are numeric,
    [create_features] returns a frame with the same rows in which
    [engine_transmission] is the element-wise product of [engine] and
    [transmission], [int_ext_color] that of [int_col] and [ext_col], and
    [car_age] is 2024 minus [model_year], element-wise; the labels of the
    result are the input's without the five source columns, plus these
    three; every other column is the input's.  When one of the five is
    absent it raises: a missing-key error for an absent source column,
    provided the source columns that are present are numeric (two present
    string columns are multiplied, and raise a type error, before a later
    label is looked up). *)
Theorem create_features_on_numeric_columns (df : DataFrame) :
  (forall e t ic ec my,
     lookup "engine" (columns df) = Some (NumCol e) ->
     lookup "transmission" (columns df) = Some (NumCol t) ->
     lookup "int_col" (columns df) = Some (NumCol ic) ->
     lookup "ext_col" (columns df) = Some (NumCol ec) ->
     lookup "model_year" (columns df) = Some (NumCol my) ->
     exists df',
       create_features df = Ok df' /\
       index df' = index df /\
       lookup "engine_transmission" (columns df')
         = Some (NumCol (zip_with (lift2 Qmult) e t)) /\
       lookup "int_ext_color" (columns df')
         = Some (NumCol (zip_with (lift2 Qmult) ic ec)) /\
       lookup "car_age" (columns df')
         = Some (NumCol (map (option_map (fun y => (inject_Z 2024 - y)%Q)) my)) /\
       (forall x, In x (names df') <->
                  (In x (names df) /\ ~ In x source_columns)
                  \/ In x feature_columns) /\
       (forall x, ~ In x source_columns -> ~ In x feature_columns ->
                  lookup x (columns df') = lookup x (columns df))) /\
  ((exists x, In x source_columns /\ lookup x (columns df) = None) ->
   exists e,
     create_features df = Raise e /\
     ((forall x c, In x source_columns -> lookup x (columns df) = Some c ->
                   is_object c = false) ->
      exists k, In k source_columns /\ lookup k (columns df) = None /\
                e = KeyError k)).
Proof.
  split; [|apply create_features_missing].
  intros e t ic ec my He Ht Hic Hec Hmy.
  destruct (create_features_ok df e t ic ec my He Ht Hic Hec Hmy)
    as [df' [Hok [Hidx Hl]]].
  exists df'. split; [exact Hok|]. split; [exact Hidx|].
  split; [rewrite Hl; reflexivity|].
  split; [rewrite Hl; reflexivity|].
  split; [rewrite Hl; reflexivity|].
  split.
  - intros x. unfold names. rewrite !lookup_names, Hl.
    unfold source_columns, feature_columns.
    destruct (existsb (String.eqb x) _) eqn:Es.
    + apply existsb_exists in Es. destruct Es as [y [Hy Exy]].
      apply String.eqb_eq in Exy. subst y. split; [congruence|].
      intros [[_ Hn]|Hf]; [contradiction|].
      exfalso. simpl in Hy, Hf.
      repeat (destruct Hy as [<-|Hy];
              [repeat (destruct Hf as [Hf|Hf]; [discriminate|]); exact Hf|]).
      exact Hy.
    + assert (Hns : ~ In x ["engine"; "transmission"; "int_col"; "ext_col";
                            "model_year"]).
      { intros Hin.
        assert (existsb (String.eqb x)
                  ["engine"; "transmission"; "int_col"; "ext_col";
                   "model_year"] = true) as Et.
        { apply existsb_exists. exists x. split; [exact Hin|].
          apply String.eqb_refl. }
        congruence. }
      destruct (String.eqb x "car_age") eqn:E1.
      { apply String.eqb_eq in E1. subst. split; [intros _|discriminate].
        right. simpl. tauto. }
      destruct (String.eqb x "int_ext_color") eqn:E2.
      { apply String.eqb_eq in E2. subst. split; [intros _|discriminate].
        right. simpl. tauto. }
      destruct (String.eqb x "engine_transmission") eqn:E3.
      { apply String.eqb_eq in E3. subst. split; [intros _|discriminate].
        right. simpl. tauto. }
      apply String.eqb_neq in E1, E2, E3. split.
      * intros H. left. split; assumption.
      * intros [[H _]|Hf]; [exact H|]. exfalso. simpl in Hf.
        destruct Hf as [Hf|[Hf|[Hf|Hf]]]; congruence || contradiction.
  - intros x Hs Hf. rewrite Hl.
    destruct (existsb (String.eqb x) source_columns) eqn:Es.
    { exfalso. apply existsb_exists in Es. destruct Es as [y [Hy Exy]].
      apply String.eqb_eq in Exy. subst y. contradiction. }
    assert (E : forall y, In y feature_columns -> String.eqb x y = false).
    { intros y Hy. apply String.eqb_neq. intros ->. contradiction. }
    rewrite !E by (simpl; tauto). reflexivity.
Qed.

(** ** The categorical encoder *)

Lemma index_of_not_in (s : string) (l : list string) :
  ~ In s l -> index_of s l = None.
Proof.
  intros H. destruct (index_of s l) as [i|] eqn:E; [|reflexivity].
  exfalso. apply H. apply index_of_nth_error in E.
  now apply nth_error_In in E.
Qed.

(** The code of one value under the policy [use_encoded_value]. *)
Lemma encode_value_sentinel (u : Z) (cats : list string) (s : string) :
  OrdinalEncoder.encode_value (OrdinalEncoder.UseEncodedValue u) cats s =
    Ok (match index_of s cats with
        | Some i => inject_Z (Z.of_nat i)
        | None => inject_Z u
        end).
Proof.
  unfold OrdinalEncoder.encode_value. now destruct (index_of s cats).
Qed.

Lemma encode_columns_sentinel (u : Z) (cats : list (list string))
    (X : list (list string)) :
  exists arr,
    OrdinalEncoder.encode_columns (OrdinalEncoder.UseEncodedValue u) cats X
      = Ok arr /\
    forall j c x, nth_error cats j = Some c -> nth_error X j = Some x ->
      nth_error arr j =
        Some (map (fun s => match index_of s c with
                            | Some i => inject_Z (Z.of_nat i)
                            | None => inject_Z u
                            end) x).
Proof.
  revert X. induction cats as [|c cats IH]; intros X.
  - exists []. split; [reflexivity|]. intros [|j]; discriminate.
  - destruct X as [|x X].
    + exists []. split; [reflexivity|]. intros [|j] ? ?; discriminate.
    + destruct (IH X) as [arr [Harr Hnth]]. simpl.
      rewrite (mapM_ok_map _ _ x (fun a _ => encode_value_sentinel u c a)).
      simpl. rewrite Harr. simpl. eexists. split; [reflexivity|].
      intros [|j] c' x'; simpl.
      * intros [= <-] [= <-]. reflexivity.
      * apply Hnth.
Qed.

Lemma object_columns_items (df : DataFrame) :
  object_columns df = map fst (object_items df).
Proof.
  unfold object_columns, object_items.
  induction (columns df) as [|[n [v|v]] t IH]; simpl; congruence.
Qed.

Lemma object_values_items (df : DataFrame) :
  object_values df = map (fun p => astype_str (snd p)) (object_items df).
Proof.
  unfold object_values, object_items.
  induction (columns df) as [|[n [v|v]] t IH]; simpl; congruence.
Qed.

Lemma object_items_in (df : DataFrame) (name : string) (v : list (option string)) :
  In (name, v) (object_items df) -> In (name, ObjCol v) (columns df).
Proof.
  unfold object_items. intros H. apply in_flat_map in H.
  destruct H as [[n c] [Hin H]]. destruct c as [w|w]; simpl in H; [contradiction|].
  destruct H as [[= <- <-]|[]]. exact Hin.
Qed.

Lemma NoDup_object_columns (df : DataFrame) :
  NoDup (names df) -> NoDup (object_columns df).
Proof.
  unfold names, object_columns. induction (columns df) as [|[n c] t IH]; simpl.
  - constructor.
  - intros H. inversion H as [|? ? Hn Ht]; subst.
    destruct (is_object c); simpl; [|now apply IH].
    constructor; [|now apply IH]. intros Hin. apply Hn.
    apply in_map_iff in Hin. destruct Hin as [p [<- Hp]].
    apply filter_In in Hp. apply in_map. tauto.
Qed.

Lemma fold_setitem_other (l : string) (la : list (string * list (option Q)))
    (df : DataFrame) :
  ~ In l (map fst la) ->
  lookup l (columns (fold_left (fun d p => setitem d (fst p) (NumCol (snd p))) la df))
    = lookup l (columns df).
Proof.
  revert df. induction la as [|[l' a] la IH]; intros df H; simpl; [reflexivity|].
  rewrite IH by (intros Hin; apply H; now right).
  simpl. rewrite lookup_set_col.
  destruct (String.eqb l l') eqn:E; [|reflexivity].
  apply String.eqb_eq in E. subst. exfalso. apply H. now left.
Qed.

Lemma fold_setitem_in (l : string) (a : list (option Q))
    (la : list (string * list (option Q))) (df : DataFrame) :
  NoDup (map fst la) -> In (l, a) la ->
  lookup l (columns (fold_left (fun d p => setitem d (fst p) (NumCol (snd p))) la df))
    = Some (NumCol a).
Proof.
  revert df. induction la as [|[l' a'] la IH]; intros df Hnd Hin;
    [contradiction|].
  simpl in Hnd. inversion Hnd as [|? ? Hn Hnd']; subst. simpl.
  destruct Hin as [[= -> ->]|Hin].
  - rewrite fold_setitem_other by exact Hn. simpl.
    rewrite lookup_set_col. now rewrite String.eqb_refl.
  - now apply IH.
Qed.

Lemma NoDup_combine_fst {A B : Type} (l : list A) (m : list B) :
  NoDup l -> NoDup (map fst (combine l m)).
Proof.
  revert m. induction l as [|a l IH]; intros m H; simpl; [constructor|].
  destruct m as [|b m]; simpl; [constructor|].
  inversion H as [|? ? Hn Hl]; subst. constructor; [|now apply IH].
  intros Hin. apply Hn. apply in_map_iff in Hin.
  destruct Hin as [[a' b'] [<- Hp]]. now apply in_combine_l in Hp.
Qed.

Lemma nth_error_combine {A B : Type} (l : list A) (m : list B) (j : nat)
    (a : A) (b : B) :
  nth_error l j = Some a -> nth_error m j = Some b ->
  nth_error (combine l m) j = Some (a, b).
Proof.
  revert m j. induction l as [|x l IH]; intros [|y m] [|j]; simpl;
    try discriminate.
  - now intros [= ->] [= ->].
  - apply IH.
Qed.

Lemma assign_columns_lookup (df : DataFrame) (labels : list string)
    (arr : list (list (option Q))) (j : nat) (l : string) (a : list (option Q)) :
  NoDup labels -> nth_error labels j = Some l -> nth_error arr j = Some a ->
  lookup l (columns (assign_columns df labels arr)) = Some (NumCol a).
Proof.
  intros Hnd Hl Ha. unfold assign_columns. apply fold_setitem_in.
  - now apply NoDup_combine_fst.
  - apply (nth_error_In _ j). now apply nth_error_combine.
Qed.

Lemma encode_categoricals_sentinel (self : DataPreprocessor.t)
    (st : OrdinalEncoder.fitted) (df : DataFrame) :
  OrdinalEncoder.state (ordinal_encoder self) = Some st ->
  OrdinalEncoder.handle_unknown (ordinal_encoder self)
    = OrdinalEncoder.UseEncodedValue (-1) ->
  Pipeline.encoder_accepts st df ->
  NoDup (names df) ->
  exists df',
    encode_categoricals self df = Ok df' /\
    forall j name v cats i s,
      nth_error (object_items df) j = Some (name, v) ->
      nth_error (OrdinalEncoder.categories_ st) j = Some cats ->
      nth_error (astype_str v) i = Some s ->
      ~ In s cats ->
      exists col,
        lookup name (columns df') = Some (NumCol col) /\
        nth_error col i = Some (Some (inject_Z (-1))).
Proof.
  intros Hst Hpol [Hfn Hlen] Hnd. unfold encode_categoricals.
  destruct (Nat.ltb_spec 0 (List.length (object_columns df))) as [Hpos|Hzero].
  - unfold OrdinalEncoder.transform. rewrite Hst, Hpol.
    assert (Hnames : match OrdinalEncoder.feature_names_in_ st with
                     | Some fn => negb (OrdinalEncoder.names_eqb fn (object_columns df))
                     | None => false
                     end = false).
    { destruct (OrdinalEncoder.feature_names_in_ st) as [fn|]; [|reflexivity].
      unfold OrdinalEncoder.names_eqb.
      destruct (list_eq_dec string_dec fn (object_columns df)); [reflexivity|].
      contradiction. }
    rewrite Hnames.
    assert (HlenX : List.length (object_values df)
                    = List.length (OrdinalEncoder.categories_ st)).
    { rewrite Hlen, object_values_items, object_columns_items.
      now rewrite !length_map. }
    rewrite HlenX, Nat.eqb_refl. simpl negb. cbv iota.
    destruct (encode_columns_sentinel (-1) (OrdinalEncoder.categories_ st)
                (object_values df)) as [arr [Harr Hnth]].
    rewrite Harr. cbn [bind]. eexists. split; [reflexivity|].
    intros j name v cats i s Hitem Hcats Hs Hunseen.
    eexists. split.
    + apply (assign_columns_lookup _ _ _ j).
      * now apply NoDup_object_columns.
      * rewrite object_columns_items. now apply map_nth_error with (f := fst) in Hitem.
      * apply map_nth_error. apply (Hnth j cats (astype_str v)); [exact Hcats|].
        rewrite object_values_items.
        now apply map_nth_error with (f := fun p => astype_str (snd p)) in Hitem.
    + apply map_nth_error.
      apply map_nth_error with (f := fun s => match index_of s cats with
                                            | Some i => inject_Z (Z.of_nat i)
                                            | None => inject_Z (-1)
                                            end) in Hs.
      rewrite Hs. now rewrite index_of_not_in.
  - exists df. split; [reflexivity|].
    intros j name v cats i s Hitem. exfalso.
    rewrite object_columns_items, length_map in Hzero.
    destruct (object_items df); [now destruct j | simpl in Hzero; lia].
Qed.

Lemma encode_categoricals_unfitted (df : DataFrame) :
  object_columns df <> [] ->
  encode_categoricals (init None) df = Raise NotFittedError.
Proof.
  intros H. unfold encode_categoricals.
  destruct (object_columns df) as [|c cs]; [congruence|]. reflexivity.
Qed.

(** C5 (as amended).  The encoder built when nothing can be loaded is
    configured with the sentinel -1 for unknown values, and a failed load
    is not fatal: construction always succeeds, with that encoder, unfitted,
    in place of the persisted one.  A loaded encoder is used as it is.  When
    the encoder in use is fitted, accepts the categorical columns of the
    frame and has that policy, the encoding step of [preprocess_data]
    returns and writes -1 in every cell whose (stringified) value is not
    among the categories the encoder learnt for its column.  On the
    fallback encoder, which nothing in the class fits, the encoding step
    raises a not-fitted error as soon as there is a categorical column. *)
Theorem unseen_category_gets_sentinel :
  (OrdinalEncoder.handle_unknown fallback_encoder
     = OrdinalEncoder.UseEncodedValue (-1) /\
   OrdinalEncoder.state fallback_encoder = None) /\
  (ordinal_encoder (init None) = fallback_encoder /\
   forall enc, ordinal_encoder (init (Some enc)) = enc) /\
  (forall self st df,
     OrdinalEncoder.state (ordinal_encoder self) = Some st ->
     OrdinalEncoder.handle_unknown (ordinal_encoder self)
       = OrdinalEncoder.UseEncodedValue (-1) ->
     Pipeline.encoder_accepts st df ->
     NoDup (names df) ->
     exists df',
       encode_categoricals self df = Ok df' /\
       forall j name v cats i s,
         nth_error (object_items df) j = Some (name, v) ->
         nth_error (OrdinalEncoder.categories_ st) j = Some cats ->
         nth_error (astype_str v) i = Some s ->
         ~ In s cats ->
         exists col,
           lookup name (columns df') = Some (NumCol col) /\
           nth_error col i = Some (Some (inject_Z (-1)))) /\
  (forall df, object_columns df <> [] ->
     encode_categoricals (init None) df = Raise NotFittedError).
Proof.
  split; [split; reflexivity|].
  split; [split; [reflexivity | intros enc; reflexivity]|].
  split; [apply encode_categoricals_sentinel|].
  apply encode_categoricals_unfitted.
Qed.

(** C5 as stated fails: with a persisted encoder under scikit-learn's
    default policy an unseen value makes the encoding step of
    [preprocess_data] raise, and with the fallback encoder every value
    does. *)
Lemma unseen_category_can_raise :
  preprocess_data (init (Some Examples.strict_encoder)) Examples.unseen_frame false
    = Raise ValueError /\
  preprocess_data (init None) Examples.unseen_frame false
    = Raise NotFittedError.
Proof. split; vm_compute; reflexivity. Qed.

(** ** What [knn_impute] does fill *)

Lemma filter_length_eq {A : Type} (p : A -> bool) (l : list A) :
  List.length (filter p l) = List.length l -> filter p l = l.
Proof.
  induction l as [|a l IH]; simpl; [reflexivity|].
  destruct (p a); simpl; intros H.
  - f_equal. apply IH. congruence.
  - pose proof (filter_length_le p l). lia.
Qed.

Lemma mapM_nth_error {A B : Type} (f : A -> result B) (l : list A)
    (m : list B) (j : nat) (a : A) :
  mapM f l = Ok m -> nth_error l j = Some a ->
  exists b, nth_error m j = Some b /\ f a = Ok b.
Proof.
  revert m j. induction l as [|x l IH]; intros m j H Hj; [now destruct j|].
  simpl in H. bind_inv H. bind_inv H. injection H as <-.
  destruct j as [|j]; simpl in *.
  - injection Hj as <-. eauto.
  - eapply IH; eauto.
Qed.

Lemma mapM_map {A B C : Type} (f : A -> result B) (g : B -> C) (h : A -> C)
    (l : list A) (m : list B) :
  (forall a b, f a = Ok b -> g b = h a) ->
  mapM f l = Ok m -> map g m = map h l.
Proof.
  intros Hf. revert m. induction l as [|x l IH]; intros m H; simpl in H.
  - now injection H as <-.
  - bind_inv H. bind_inv H. injection H as <-. simpl. f_equal; auto.
Qed.

Lemma combine_labels (cols : list (string * column))
    (Y : list (list (option Q))) :
  List.length Y = List.length cols ->
  map (fun p : (string * column) * (string * column) => fst (snd p))
    (combine cols (combine (map fst cols) (map NumCol Y))) = map fst cols.
Proof.
  revert Y. induction cols as [|[n c] cols IH]; intros [|y Y]; simpl;
    try discriminate; [reflexivity|].
  intros H. f_equal. apply IH. congruence.
Qed.

(** The shape of a successful call: every encoded column has a value, and
    the result decodes, column by column, the imputed matrix. *)
Lemma knn_impute_ok_inv (df df' : DataFrame) (k : Z) :
  knn_impute df k = Ok df' ->
  let X := map (fun nc => encode_for_knn (snd nc)) (columns df) in
  (0 < k)%Z /\
  Forall (fun col => KNNImputer.is_valid col = true) X /\
  mapM decode_named
    (combine (columns df)
       (combine (names df)
          (map NumCol
             (map (KNNImputer.transform_column (Z.to_nat k) X (nrows df)) X))))
    = Ok (columns df').
Proof.
  intros H X. unfold knn_impute, KNNImputer.fit_transform in H.
  rewrite !map_map in H. simpl in H. fold X in H.
  destruct (Z.leb_spec k 0); [discriminate|].
  destruct (_ || _)%bool; [discriminate|]. cbn [bind] in H.
  unfold of_array in H. rewrite !length_map in H.
  destruct (Nat.eqb_spec (List.length (filter KNNImputer.is_valid X))
              (List.length (columns df))) as [E|E]; [|discriminate].
  cbn [bind columns index] in H.
  assert (EX : filter KNNImputer.is_valid X = X).
  { apply filter_length_eq. unfold X at 2. now rewrite length_map. }
  rewrite EX in H. bind_inv H. injection H as <-. simpl.
  split; [assumption|]. split; [|exact Hx].
  apply Forall_forall. intros col Hin. rewrite <- EX in Hin.
  now apply filter_In in Hin.
Qed.

(** The labels of the result are the input's, in order. *)
Lemma knn_impute_keeps_labels (df df' : DataFrame) (k : Z) :
  knn_impute df k = Ok df' -> names df' = names df.
Proof.
  intros H. destruct (knn_impute_ok_inv df df' k H) as [_ [_ Hd]].
  assert (Hfst : forall a b, decode_named a = Ok b -> fst b = fst (snd a)).
  { intros a b Hb. unfold decode_named in Hb.
    destruct (snd (snd a)); [|discriminate].
    bind_inv Hb. now injection Hb as <-. }
  unfold names at 1.
  rewrite (mapM_map _ fst (fun p => fst (snd p)) _ _ Hfst Hd).
  apply combine_labels. now rewrite !length_map.
Qed.

Lemma insert_head_finite (a : option Q * Q) (s : list (option Q * Q)) :
  (KNNImputer.is_nan (fst a) = false \/
   exists h t, s = h :: t /\ KNNImputer.is_nan (fst h) = false) ->
  exists h t, insert KNNImputer.dist_leb a s = h :: t /\
              KNNImputer.is_nan (fst h) = false.
Proof.
  intros H. destruct s as [|h t]; simpl.
  - destruct H as [H|[h [t [E _]]]]; [eauto | discriminate].
  - destruct (KNNImputer.dist_leb a h) eqn:E.
    + unfold KNNImputer.dist_leb in E. destruct H as [H|[h' [t' [Eq Hh]]]].
      * eauto.
      * injection Eq as <- <-. exists a, (h :: t). split; [reflexivity|].
        destruct (fst a), (fst h); simpl in *; congruence.
    + unfold KNNImputer.dist_leb in E. exists h, (insert KNNImputer.dist_leb a t).
      split; [reflexivity|].
      destruct (fst a), (fst h); simpl in *; congruence.
Qed.

Lemma sort_head_finite (l : list (option Q * Q)) :
  forallb (fun d => KNNImputer.is_nan (fst d)) l = false ->
  exists h t, sort KNNImputer.dist_leb l = h :: t /\
              KNNImputer.is_nan (fst h) = false.
Proof.
  induction l as [|a l IH]; simpl; [discriminate|].
  intros H. apply andb_false_iff in H. unfold sort. simpl.
  apply insert_head_finite. destruct H as [H|H]; [now left|].
  right. apply IH. exact H.
Qed.

Lemma calc_impute_defined (k : nat) (donors : list (option Q * Q)) :
  (0 < k)%nat ->
  forallb (fun d => KNNImputer.is_nan (fst d)) donors = false ->
  exists q, KNNImputer.calc_impute k donors = Some q.
Proof.
  intros Hk Hd. unfold KNNImputer.calc_impute.
  destruct (sort_head_finite donors Hd) as [h [t [Es Hh]]].
  assert (Hlen : (0 < List.length donors)%nat).
  { rewrite <- (sort_length KNNImputer.dist_leb), Es. simpl. lia. }
  rewrite Es.
  destruct (Nat.min k (List.length donors)) as [|m] eqn:Em; [lia|].
  simpl. rewrite Hh. simpl. eauto.
Qed.

Lemma Qmean_defined (l : list Q) : l <> [] -> exists q, Qmean l = Some q.
Proof. destruct l; [congruence|]. simpl. eauto. Qed.

Lemma is_valid_present (col : list (option Q)) :
  KNNImputer.is_valid col = true -> present col <> [].
Proof.
  induction col as [|[a|] col IH]; simpl; [discriminate|discriminate|exact IH].
Qed.

Lemma impute_cell_defined (k : nat) (X : KNNImputer.matrix) (n : nat)
    (col : list (option Q)) (i : nat) :
  (0 < k)%nat -> KNNImputer.is_valid col = true ->
  exists q, KNNImputer.impute_cell k X n col i = Some q.
Proof.
  intros Hk Hv. unfold KNNImputer.impute_cell.
  destruct (forallb _ _) eqn:E.
  - apply Qmean_defined. now apply is_valid_present.
  - now apply calc_impute_defined.
Qed.

Lemma transform_column_fills (k : nat) (X : KNNImputer.matrix) (n : nat)
    (col : list (option Q)) :
  (0 < k)%nat -> KNNImputer.is_valid col = true ->
  no_missing (KNNImputer.transform_column k X n col).
Proof.
  intros Hk Hv. unfold KNNImputer.transform_column. apply Forall_forall.
  intros o Ho. apply in_map_iff in Ho. destruct Ho as [i [<- _]].
  destruct (nth i col None); [discriminate|].
  destruct (impute_cell_defined k X n col i Hk Hv) as [q Hq]. now rewrite Hq.
Qed.

(** Whenever [knn_impute] returns, the result has the input's labels and
    every numeric column of the input comes back without a missing value. *)
Lemma knn_impute_fills_numeric (df df' : DataFrame) (k : Z) :
  knn_impute df k = Ok df' ->
  names df' = names df /\
  forall j name v,
    nth_error (columns df) j = Some (name, NumCol v) ->
    exists v', nth_error (columns df') j = Some (name, NumCol v') /\
               no_missing v'.
Proof.
  intros H. split; [now apply knn_impute_keeps_labels in H|].
  destruct (knn_impute_ok_inv df df' k H) as [Hk [Hvalid Hd]].
  intros j name v Hj.
  set (X := map (fun nc => encode_for_knn (snd nc)) (columns df)) in *.
  assert (Hx : nth_error X j = Some v).
  { unfold X. now apply map_nth_error with (f := fun nc => encode_for_knn (snd nc)) in Hj. }
  pose (tc := KNNImputer.transform_column (Z.to_nat k) X (nrows df)).
  assert (Hp : nth_error
                 (combine (columns df)
                    (combine (names df) (map NumCol (map tc X)))) j
               = Some ((name, NumCol v), (name, NumCol (tc v)))).
  { apply nth_error_combine; [exact Hj|]. apply nth_error_combine.
    - unfold names. now apply map_nth_error with (f := fst) in Hj.
    - apply map_nth_error. now apply map_nth_error. }
  destruct (mapM_nth_error _ _ _ _ _ Hd Hp) as [b [Hb Hdec]].
  unfold decode_named in Hdec. simpl in Hdec. injection Hdec as <-.
  exists (tc v). split; [exact Hb|].
  apply transform_column_fills; [lia|].
  rewrite Forall_forall in Hvalid. apply Hvalid.
  now apply nth_error_In in Hx.
Qed.

(** ** When [knn_impute] returns *)

Lemma mapM_defined {A B : Type} (f : A -> result B) (l : list A) :
  (forall a, In a l -> exists b, f a = Ok b) -> exists m, mapM f l = Ok m.
Proof.
  induction l as [|a l IH]; intros H; simpl; [eauto|].
  destruct (H a) as [b Hb]; [now left|].
  destruct IH as [m Hm]; [intros; apply H; now right|].
  rewrite Hb, Hm. simpl. eauto.
Qed.

Lemma present_is_valid (col : list (option Q)) :
  present col <> [] -> KNNImputer.is_valid col = true.
Proof.
  induction col as [|[a|] col IH]; simpl; [congruence|reflexivity|exact IH].
Qed.

Lemma encode_for_knn_valid (n : nat) (c : column) :
  (0 < n)%nat -> col_length c = n ->
  (forall v, c = NumCol v -> present v <> []) ->
  KNNImputer.is_valid (encode_for_knn c) = true.
Proof.
  intros Hn Hl Hv. destruct c as [v|v]; simpl.
  - apply present_is_valid. now apply Hv.
  - simpl in Hl. unfold cat_codes. destruct v as [|o v]; [simpl in Hl; lia|].
    reflexivity.
Qed.

Lemma decode_column_defined (c : column) (imputed : list (option Q)) :
  no_missing imputed -> exists c', decode_column c imputed = Ok c'.
Proof.
  intros Hm. destruct c as [v|v]; simpl; [eauto|].
  destruct (mapM_defined round_to_int imputed) as [ints Hi].
  - intros o Ho. unfold no_missing in Hm. rewrite Forall_forall in Hm.
    specialize (Hm o Ho). destruct o as [q|]; [simpl; eauto | congruence].
  - rewrite Hi. simpl. destruct (categories v); eauto.
Qed.

(** [knn_impute] returns on every aligned frame with at least one row and
    one column in which no numeric column is entirely missing, for every
    positive neighbour count. *)
Lemma knn_impute_returns (df : DataFrame) (k : Z) :
  aligned df -> (0 < k)%Z -> (0 < nrows df)%nat -> columns df <> [] ->
  (forall name v, In (name, NumCol v) (columns df) -> present v <> []) ->
  exists df', knn_impute df k = Ok df'.
Proof.
  intros Ha Hk Hn Hcols Hnum.
  unfold knn_impute, KNNImputer.fit_transform.
  unfold aligned in Ha. rewrite Forall_forall in Ha.
  destruct (Z.leb_spec k 0); [lia|].
  destruct (Nat.eqb_spec (nrows df) 0); [lia|]. rewrite !length_map.
  destruct (Nat.eqb_spec (List.length (columns df)) 0) as [E|_].
  { destruct (columns df); [congruence | discriminate]. }
  cbn [orb bind]. rewrite !map_map. cbn [fst snd].
  set (X := map (fun nc => encode_for_knn (snd nc)) (columns df)).
  assert (HX : forall col, In col X -> KNNImputer.is_valid col = true).
  { intros col Hin. unfold X in Hin. apply in_map_iff in Hin.
    destruct Hin as [[name c] [<- Hnc]]. simpl.
    apply (encode_for_knn_valid (nrows df)); [exact Hn | exact (Ha _ Hnc) |].
    intros v ->. exact (Hnum _ _ Hnc). }
  rewrite (filter_all _ X HX).
  unfold of_array. rewrite !length_map. unfold X at 1.
  rewrite length_map, Nat.eqb_refl. cbn [bind columns index].
  destruct (mapM_defined decode_named
              (combine (columns df)
                 (combine (map (fun x => fst x) (columns df))
                    (map NumCol
                       (map (KNNImputer.transform_column (Z.to_nat k) X (nrows df))
                          X))))) as [cols Hc].
  - intros [[l c] [l' c']] Hin. apply in_combine_r in Hin.
    apply in_combine_r in Hin. apply in_map_iff in Hin.
    destruct Hin as [imp [<- Himp]]. apply in_map_iff in Himp.
    destruct Himp as [col [<- Hcol]]. unfold decode_named. simpl.
    destruct (decode_column_defined c
                (KNNImputer.transform_column (Z.to_nat k) X (nrows df) col))
      as [c' Hc'].
    + apply transform_column_fills; [lia | now apply HX].
    + rewrite Hc'. simpl. eauto.
  - rewrite Hc. simpl. eauto.
Qed.

(** ** The row index after imputation *)

(** C10.  [knn_impute] returns on every aligned frame with at least one row
    and one column in which no numeric column is entirely missing, for a
    positive neighbour count; whenever it returns, the row index of the
    result is the fresh positional index 0, 1, ..., n-1 for the n rows of
    its input, whatever the input's index was; and so is the index of what
    [preprocess_data] returns on the inference path, which has no reset
    step. *)
Theorem fresh_positional_index (self : DataPreprocessor.t) (df : DataFrame)
    (k : Z) :
  (aligned df -> (0 < k)%Z -> (0 < nrows df)%nat -> columns df <> [] ->
   (forall name v, In (name, NumCol v) (columns df) -> present v <> []) ->
   exists df', knn_impute df k = Ok df') /\
  (forall df', knn_impute df k = Ok df' ->
     index df' = RangeIndex (nrows df)) /\
  (forall df', preprocess_data self df false = Ok df' ->
     index df' = RangeIndex (nrows df)).
Proof.
  split; [apply knn_impute_returns|].
  split; intros df' H.
  - now apply knn_impute_index in H.
  - rewrite preprocess_data_inference in H. now apply inference_index in H.
Qed.

(** ** Missing categorical values *)

(** C1.  On [missing_brand_frame] the imputer returns a frame with the
    input's columns in which the missing [milage] is filled and the missing
    [brand] is still missing: the category code of a missing value is -1,
    which the imputer takes for a number, and which the enumeration of the
    categories maps back to a missing value. *)
Theorem knn_impute_leaves_missing_category :
  cat_codes [Some "audi"; None; Some "bmw"] = [0; -1; 1]%Z /\
  exists df',
    knn_impute Examples.missing_brand_frame 25 = Ok df' /\
    names df' = names Examples.missing_brand_frame /\
    lookup "brand" (columns df') = Some (ObjCol [Some "audi"; None; Some "bmw"]) /\
    exists v, lookup "milage" (columns df') = Some (NumCol v) /\ no_missing v.
Proof.
  split; [reflexivity|].
  eexists. split; [vm_compute; reflexivity|].
  split; [reflexivity|]. split; [reflexivity|].
  eexists. split; [reflexivity|].
  repeat constructor; discriminate.
Qed.

(** ** The scaler *)

Lemma Qsum_scaled (mu scale : Q) (xs : list Q) :
  ~ (scale == 0)%Q ->
  (Qsum (map (fun x => (x - mu) / scale) xs)
   == (Qsum xs - Qlen xs * mu) / scale)%Q.
Proof.
  intros Hs. unfold Qlen. induction xs as [|x xs IH].
  - simpl. field. exact Hs.
  - cbn [map Qsum fold_right List.length]. fold (Qsum xs).
    fold (Qsum (map (fun x => (x - mu) / scale) xs)). rewrite IH.
    rewrite Nat2Z.inj_succ. unfold Z.succ. rewrite inject_Z_plus.
    field. exact Hs.
Qed.

Lemma Qlen_nonzero (xs : list Q) : xs <> [] -> ~ (Qlen xs == 0)%Q.
Proof.
  intros H. unfold Qlen. destruct xs as [|x xs]; [congruence|].
  unfold Qeq. simpl. lia.
Qed.

Lemma no_missing_present {A : Type} (v : list (option A)) :
  no_missing v -> v = map Some (present v).
Proof.
  induction 1 as [|[a|] v Ho Hv IH]; simpl; [reflexivity | | congruence].
  now rewrite <- IH.
Qed.

(** A column without missing values comes out of the scaler with mean 0. *)
Lemma scaled_column_zero_mean (fsqrt : Q -> Q) (v : list (option Q)) :
  no_missing v -> v <> [] ->
  exists xs,
    StandardScaler.transform_column fsqrt v = map Some xs /\
    List.length xs = List.length v /\
    (Qsum xs == 0)%Q.
Proof.
  intros Hm Hv. pose proof (no_missing_present v Hm) as Ev.
  assert (Hxs : present v <> []).
  { intros E. rewrite E in Ev. simpl in Ev. congruence. }
  unfold StandardScaler.transform_column, StandardScaler.fit_column, Qmean.
  destruct (present v) as [|x xs] eqn:E; [congruence|].
  set (mu := (Qsum (x :: xs) / Qlen (x :: xs))%Q).
  set (scale := if Qeq_bool (fsqrt _) 0 then 1%Q else fsqrt _).
  assert (Hs : ~ (scale == 0)%Q).
  { unfold scale. destruct (Qeq_bool (fsqrt _) 0) eqn:Eb.
    - discriminate.
    - now apply Qeq_bool_neq. }
  exists (map (fun y => ((y - mu) / scale)%Q) (x :: xs)). split; [|split].
  - rewrite Ev. now rewrite !map_map.
  - rewrite Ev. now rewrite !length_map.
  - rewrite Qsum_scaled by exact Hs. unfold mu. field.
    split; [now apply Qlen_nonzero | exact Hs].
Qed.

(** C7.  On [brandless_frame], whatever the square root, the training call
    with target [price] and scaling returns a pair (X, y) in which X has no
    [price] column and y is the [price] column, but the [brand] column of X
    holds no value: it has no mean at all, and so not the mean 0.  The
    missing brands are not imputed (see C1); mapped back through an empty
    enumeration they form a float column of [NaN], which is neither encoded
    nor changed by the scaler. *)
Theorem prepare_for_training_brand_without_mean (fsqrt : Q -> Q) :
  exists self' X y,
    prepare_for_training fsqrt (init None) Examples.brandless_frame "price" true
      = Ok (self', (X, y)) /\
    lookup "price" (columns X) = None /\
    s_values y = Examples.floats [100; 200; 300; 400]%Z /\
    lookup "brand" (columns X) = Some (NumCol [None; None; None; None]) /\
    Qmean (present [@None Q; None; None; None]) = None.
Proof.
  eexists. eexists. eexists. split; [vm_compute; reflexivity|].
  repeat split; reflexivity.
Qed.

(** ** What [prepare_for_training] does deliver *)

Lemma fit_transform_columns (fsqrt : Q -> Q) (n : nat) (cols : list column)
    (st : StandardScaler.t) (arr : list (list (option Q))) (j : nat)
    (v : list (option Q)) :
  StandardScaler.fit_transform fsqrt n cols = Ok (st, arr) ->
  nth_error cols j = Some (NumCol v) ->
  nth_error arr j = Some (StandardScaler.transform_column fsqrt v).
Proof.
  unfold StandardScaler.fit_transform. intros H Hj. bind_inv H.
  destruct (_ || _)%bool; [discriminate|]. injection H as _ <-.
  destruct (mapM_nth_error _ _ _ _ _ Hx Hj) as [w [Hw Hf]].
  simpl in Hf. injection Hf as <-. now apply map_nth_error.
Qed.

Lemma drop_inv (df df' : DataFrame) (labels : list string) :
  drop df labels = Ok df' ->
  df' = mkDF (index df)
          (filter (fun nc => negb (existsb (String.eqb (fst nc)) labels))
             (columns df)).
Proof.
  unfold drop. destruct (find _ labels); [discriminate|].
  intros H. inversion H. reflexivity.
Qed.

(** Whenever the training call with scaling returns (X, y) for a target
    outside the scaled columns: X has no target column, y is the target
    column of the preprocessed frame with its index, and each scaled column
    of X is the scaler's image of that column of the preprocessed frame,
    with mean 0 when the column has no missing value. *)
Lemma prepare_for_training_splits_and_scales (fsqrt : Q -> Q)
    (self self' : DataPreprocessor.t) (df X : DataFrame) (y : Series)
    (target : string) :
  prepare_for_training fsqrt self df target true = Ok (self', (X, y)) ->
  ~ In target numeric_cols ->
  exists P,
    preprocess_data self df true = Ok P /\
    lookup target (columns X) = None /\
    lookup target (columns P) = Some (s_values y) /\
    s_index y = index P /\
    forall c v,
      In c numeric_cols -> lookup c (columns P) = Some (NumCol v) ->
      lookup c (columns X)
        = Some (NumCol (StandardScaler.transform_column fsqrt v)) /\
      (no_missing v -> v <> [] ->
       exists xs,
         lookup c (columns X) = Some (NumCol (map Some xs)) /\
         (Qsum xs == 0)%Q).
Proof.
  unfold prepare_for_training. intros H Ht. bind_inv H. rename x into P.
  exists P. split; [exact Hx|]. bind_inv H. bind_inv Hx0. bind_inv Hx0.
  injection Hx0 as <-. destruct x1 as [st arr]. cbn [fst snd] in H.
  bind_inv H. bind_inv H. injection H as _ HX Hy.
  rewrite <- HX, <- Hy. clear HX Hy X y.
  assert (Hother : lookup target (columns (assign_columns P numeric_cols arr))
                   = lookup target (columns P)).
  { unfold assign_columns. apply fold_setitem_other. intros Hin.
    apply Ht. apply in_map_iff in Hin. destruct Hin as [[l a] [<- Hp]].
    now apply in_combine_l in Hp. }
  apply drop_inv in Hx0. subst x. cbn [columns index].
  split; [rewrite lookup_filter; simpl; now rewrite String.eqb_refl|].
  split.
  { unfold getitem in Hx3. rewrite Hother in Hx3.
    destruct (lookup target (columns P)); [|discriminate].
    cbn [s_values]. now injection Hx3 as <-. }
  split; [cbn [s_index]; apply assign_columns_index|].
  intros c v Hc Hv.
  assert (Hcx : lookup c (columns (assign_columns P numeric_cols arr))
                = Some (NumCol (StandardScaler.transform_column fsqrt v))).
  { destruct (In_nth_error _ _ Hc) as [j Hj].
    apply (assign_columns_lookup _ _ _ j).
    - unfold numeric_cols.
      repeat (constructor;
              [simpl; intros Hd;
               repeat (destruct Hd as [Hd|Hd]; [discriminate|]); exact Hd|]).
      constructor.
    - exact Hj.
    - apply (fit_transform_columns fsqrt _ _ _ _ _ _ Hx2).
      destruct (mapM_nth_error _ _ _ _ _ Hx1 Hj) as [w [Hw Hg]].
      unfold getitem in Hg. rewrite Hv in Hg. now injection Hg as <-. }
  assert (Hlx : lookup c
                  (filter (fun nc => negb (existsb (String.eqb (fst nc)) [target]))
                     (columns (assign_columns P numeric_cols arr)))
                = Some (NumCol (StandardScaler.transform_column fsqrt v))).
  { rewrite lookup_filter. simpl.
    destruct (String.eqb c target) eqn:E; [|exact Hcx].
    apply String.eqb_eq in E. subst. contradiction. }
  split; [exact Hlx|].
  intros Hm Hne.
  destruct (scaled_column_zero_mean fsqrt v Hm Hne) as [xs [Hxs [_ Hsum]]].
  exists xs. split; [now rewrite Hlx, Hxs | exact Hsum].
Qed.

(** ** Instances *)

(** C4 as stated fails on string columns: with all five source columns
    present no frame is returned, and with [int_col] absent the error is a
    type error, not a missing-key error. *)
Lemma create_features_type_error_first :
  (forall x, In x source_columns ->
     has_column x Examples.string_engine_frame = true) /\
  create_features Examples.string_engine_frame = Raise TypeError /\
  has_column "int_col" Examples.string_engine_frame_without_int_col = false /\
  create_features Examples.string_engine_frame_without_int_col = Raise TypeError.
Proof.
  split; [|repeat split; reflexivity].
  intros x Hin. simpl in Hin.
  repeat (destruct Hin as [<-|Hin]; [reflexivity|]). contradiction.
Qed.

Lemma knn_impute_without_missing_witness :
  exists df',
    knn_impute Examples.complete_frame 25 = Ok df' /\
    columns df' = columns Examples.complete_frame.
Proof.
  assert (Ha : aligned Examples.complete_frame) by (repeat constructor).
  assert (Hc : complete Examples.complete_frame)
    by (repeat constructor; discriminate).
  destruct (knn_impute_without_missing Examples.complete_frame 25 Ha Hc)
    as [Hex Hcols].
  destruct Hex as [df' Hdf']; [reflexivity | unfold nrows; simpl; lia | discriminate |].
  exists df'. split; [exact Hdf' | now apply Hcols].
Defined.

Lemma fresh_positional_index_witness :
  (exists df',
     knn_impute Examples.inference_frame 25 = Ok df' /\
     index df' = [0; 1; 2]%Z) /\
  (exists df',
     preprocess_data (init (Some Examples.fitted_encoder))
       Examples.inference_frame false = Ok df' /\
     index df' = [0; 1; 2]%Z).
Proof.
  destruct (fresh_positional_index (init (Some Examples.fitted_encoder))
              Examples.inference_frame 25) as [Hr [Hk Hp]].
  split.
  - destruct Hr as [df' H].
    + repeat constructor.
    + reflexivity.
    + unfold nrows. simpl. lia.
    + discriminate.
    + intros name v Hin. simpl in Hin.
      repeat (destruct Hin as [Hin|Hin];
              [first [discriminate Hin
                     | injection Hin as _ <-; simpl; discriminate]|]).
      contradiction.
    + exists df'. split; [exact H | exact (Hk df' H)].
  - assert (H : exists df',
               preprocess_data (init (Some Examples.fitted_encoder))
                 Examples.inference_frame false = Ok df')
      by (eexists; vm_compute; reflexivity).
    destruct H as [df' H]. exists df'. split; [exact H | exact (Hp df' H)].
Defined.

Lemma inference_keeps_row_count_witness :
  exists df',
    preprocess_data (init (Some Examples.fitted_encoder))
      Examples.inference_frame false = Ok df' /\
    nrows df' = 3%nat /\
    Forall (fun nc => col_length (snd nc) = 3%nat) (columns df').
Proof.
  assert (H : exists df',
             preprocess_data (init (Some Examples.fitted_encoder))
               Examples.inference_frame false = Ok df')
    by (eexists; vm_compute; reflexivity).
  destruct H as [df' H]. exists df'. split; [exact H|].
  exact (proj2 (inference_keeps_row_count _ _ _ H)).
Defined.

Lemma create_features_on_numeric_columns_witness :
  (exists df',
     create_features Examples.order_frame = Ok df' /\
     lookup "car_age" (columns df')
       = Some (NumCol (map (option_map (fun y => (inject_Z 2024 - y)%Q))
                         (map (fun z => Some (inject_Z z))
                            [2020; 2020; 2020; 2020; 2020; 2020]%Z)))) /\
  (exists k,
     create_features Examples.missing_brand_frame = Raise (KeyError k)).
Proof.
  split.
  - destruct (proj1 (create_features_on_numeric_columns Examples.order_frame)
                _ _ _ _ _ eq_refl eq_refl eq_refl eq_refl eq_refl)
      as [df' [Hok [_ [_ [_ [Hage _]]]]]].
    exists df'. split; [exact Hok | exact Hage].
  - destruct (proj2 (create_features_on_numeric_columns
                       Examples.missing_brand_frame)) as [e [He Hk]].
    + exists "engine". split; [now left | reflexivity].
    + destruct Hk as [k [_ [_ Hek]]].
      * intros x c Hin. simpl in Hin.
        repeat (destruct Hin as [<-|Hin]; [discriminate|]). contradiction.
      * exists k. now rewrite <- Hek.
Defined.

Lemma unseen_category_gets_sentinel_witness :
  exists df' col,
    encode_categoricals (init (Some Examples.fitted_encoder))
      Examples.inference_frame = Ok df' /\
    lookup "model" (columns df') = Some (NumCol col) /\
    nth_error col 2 = Some (Some (inject_Z (-1))).
Proof.
  destruct unseen_category_gets_sentinel as [_ [_ [Hs _]]].
  destruct (Hs (init (Some Examples.fitted_encoder))
              (OrdinalEncoder.mkFitted [["audi"; "bmw"]; ["a4"; "x5"]]
                 (Some ["brand"; "model"]))
              Examples.inference_frame eq_refl eq_refl)
    as [df' [Hok Hcell]].
  - split; reflexivity.
  - repeat (constructor;
            [simpl; intros H;
             repeat (destruct H as [H|H]; [discriminate|]); exact H|]).
    constructor.
  - destruct (Hcell 1%nat "model" [Some "a4"; Some "x5"; Some "q7"]
                ["a4"; "x5"] 2%nat "q7" eq_refl eq_refl eq_refl)
      as [col [Hl Hn]].
    + simpl. intros [H|[H|H]]; [discriminate | discriminate | exact H].
    + exists df', col. repeat split; assumption.
Defined.

(** * Further properties of the class *)

(** ** [knn_impute]: failures *)

Lemma filter_length_lt {A : Type} (p : A -> bool) (l : list A) (a : A) :
  In a l -> p a = false -> (List.length (filter p l) < List.length l)%nat.
Proof.
  induction l as [|x l IH]; simpl; intros Hin Hp; [contradiction|].
  destruct Hin as [->|Hin].
  - rewrite Hp. pose proof (filter_length_le p l). lia.
  - specialize (IH Hin Hp). destruct (p x); simpl; lia.
Qed.

Lemma present_none_invalid (col : list (option Q)) :
  present col = [] -> KNNImputer.is_valid col = false.
Proof.
  induction col as [|[a|] col IH]; simpl; [reflexivity|discriminate|exact IH].
Qed.

(** X1.  [knn_impute] raises a value error when the neighbour count is not
    positive, when the frame has no row or no column, and when a numeric
    column holds no value at all (the imputer drops such a column, and the
    frame cannot be rebuilt under the input's labels). *)
Theorem knn_impute_rejects (df : DataFrame) (k : Z) :
  (k <= 0)%Z \/ nrows df = 0%nat \/ columns df = [] \/
  (exists name v, In (name, NumCol v) (columns df) /\ present v = []) ->
  knn_impute df k = Raise ValueError.
Proof.
  intros H. unfold knn_impute, KNNImputer.fit_transform.
  destruct (Z.leb_spec k 0) as [Hk|Hk]; [reflexivity|].
  rewrite !length_map.
  destruct (Nat.eqb_spec (nrows df) 0) as [Hn|Hn]; [reflexivity|].
  destruct (Nat.eqb_spec (List.length (columns df)) 0) as [Hc|Hc];
    [reflexivity|].
  cbn [orb bind].
  destruct H as [H|[H|[H|[name [v [Hin Hv]]]]]];
    [lia | contradiction | rewrite H in Hc; simpl in Hc; lia |].
  unfold of_array. rewrite !length_map.
  set (X := map snd (map (fun nc => (fst nc, encode_for_knn (snd nc))) (columns df))).
  assert (Hlt : (List.length (filter KNNImputer.is_valid X)
                 < List.length (columns df))%nat).
  { replace (List.length (columns df)) with (List.length X)
      by (unfold X; now rewrite !length_map).
    apply (filter_length_lt _ _ v).
    - unfold X. rewrite map_map. simpl.
      apply in_map_iff. exists (name, NumCol v). split; [reflexivity|exact Hin].
    - now apply present_none_invalid. }
  destruct (Nat.eqb_spec (List.length (filter KNNImputer.is_valid X))
              (List.length (columns df))); [lia|reflexivity].
Qed.

(** ** [knn_impute]: what a successful call returns *)

Lemma mapM_ext {A B : Type} (f g : A -> result B) (l : list A) :
  (forall a, f a = g a) -> mapM f l = mapM g l.
Proof.
  intros H. induction l as [|a l IH]; simpl; [reflexivity|].
  now rewrite H, IH.
Qed.

Lemma mapM_combine_maps {A B C D : Type} (f : A * (B * C) -> result D)
    (g : A -> B) (h : A -> C) (l : list A) :
  mapM f (combine l (combine (map g l) (map h l)))
  = mapM (fun x => f (x, (g x, h x))) l.
Proof.
  induction l as [|a l IH]; simpl; [reflexivity|]. now rewrite IH.
Qed.

(** The columns of the result, column by column: each input column decoded
    from its imputed encoding. *)
Lemma knn_impute_decoded (df df' : DataFrame) (k : Z) :
  knn_impute df k = Ok df' ->
  mapM (fun nc =>
          c <- decode_column (snd nc)
                 (KNNImputer.transform_column (Z.to_nat k)
                    (map (fun nc => encode_for_knn (snd nc)) (columns df))
                    (nrows df) (encode_for_knn (snd nc))) ;;
          Ok (fst nc, c))
       (columns df)
  = Ok (columns df').
Proof.
  intros H. destruct (knn_impute_ok_inv df df' k H) as [_ [_ Hd]].
  cbv zeta in Hd. unfold names in Hd. rewrite !map_map in Hd.
  rewrite (mapM_combine_maps decode_named (fun x => fst x)
             (fun x => NumCol _)) in Hd.
  exact Hd.
Qed.

Lemma nth_error_seq_map {B : Type} (f : nat -> B) (n i : nat) :
  (i < n)%nat -> nth_error (map f (seq 0 n)) i = Some (f i).
Proof.
  intros H. apply map_nth_error. rewrite nth_error_nth' with (d := O)
    by now rewrite length_seq.
  now rewrite seq_nth.
Qed.

Lemma nth_error_nth_some {A : Type} (l : list A) (i : nat) (a d : A) :
  nth_error l i = Some a -> nth i l d = a /\ (i < List.length l)%nat.
Proof.
  intros H. split.
  - now apply nth_error_nth.
  - apply nth_error_Some. congruence.
Qed.

Lemma transform_column_keeps (k : nat) (X : KNNImputer.matrix)
    (col : list (option Q)) (i : nat) (q : Q) :
  nth_error col i = Some (Some q) ->
  nth_error (KNNImputer.transform_column k X (List.length col) col) i
    = Some (Some q).
Proof.
  intros H. destruct (nth_error_nth_some _ _ _ None H) as [Hn Hi].
  unfold KNNImputer.transform_column.
  rewrite nth_error_seq_map by exact Hi. now rewrite Hn.
Qed.

Lemma decode_object_keeps (v : list (option string)) (i : nat) (s : string) :
  nth_error v i = Some (Some s) ->
  exists v',
    decode_column (ObjCol v) (encode_for_knn (ObjCol v)) = Ok (ObjCol v') /\
    nth_error v' i = Some (Some s).
Proof.
  intros H. simpl. rewrite mapM_round_codes. simpl.
  assert (Hin : In s (categories v)).
  { apply categories_in. now apply nth_error_In in H. }
  destruct (categories v) as [|c cs] eqn:Ec; [contradiction|].
  eexists. split; [reflexivity|].
  unfold cat_codes. rewrite Ec. rewrite map_map.
  apply map_nth_error with (f := fun o => map_enumerate (c :: cs)
                                         (cat_code (c :: cs) o)) in H.
  rewrite H. f_equal.
  destruct (index_of_in s (c :: cs) Hin) as [j Hj].
  unfold cat_code. rewrite Hj, map_enumerate_of_nat.
  now apply index_of_nth_error.
Qed.

Lemma codes_present (v : list (option string)) :
  no_missing (encode_for_knn (ObjCol v)).
Proof.
  simpl. apply Forall_forall. intros o Ho. apply in_map_iff in Ho.
  destruct Ho as [z [<- _]]. discriminate.
Qed.

(** The cells that hold a value, through [knn_impute]. *)
Lemma knn_impute_cells_kept (df df' : DataFrame) (k : Z)
    (j : nat) (name : string) :
  aligned df ->
  knn_impute df k = Ok df' ->
  (forall v i q,
     nth_error (columns df) j = Some (name, NumCol v) ->
     nth_error v i = Some (Some q) ->
     exists v', nth_error (columns df') j = Some (name, NumCol v') /\
                nth_error v' i = Some (Some q)) /\
  (forall v i s,
     nth_error (columns df) j = Some (name, ObjCol v) ->
     nth_error v i = Some (Some s) ->
     exists v', nth_error (columns df') j = Some (name, ObjCol v') /\
                nth_error v' i = Some (Some s)).
Proof.
  intros Ha H. pose proof (knn_impute_decoded df df' k H) as Hd.
  unfold aligned in Ha. rewrite Forall_forall in Ha.
  split; intros v i x Hj Hi.
  - destruct (mapM_nth_error _ _ _ _ _ Hd Hj) as [b [Hb Hdec]].
    simpl in Hdec. injection Hdec as <-.
    eexists. split; [exact Hb|].
    pose proof (Ha _ (nth_error_In _ _ Hj)) as Hl. simpl in Hl.
    rewrite <- Hl. now apply transform_column_keeps.
  - destruct (mapM_nth_error _ _ _ _ _ Hd Hj) as [b [Hb Hdec]].
    cbn [fst snd] in Hdec.
    pose proof (Ha _ (nth_error_In _ _ Hj)) as Hl. simpl in Hl.
    assert (Hl' : nrows df = List.length (encode_for_knn (ObjCol v)))
      by (rewrite encode_for_knn_length; simpl; congruence).
    rewrite Hl' in Hdec.
    rewrite transform_column_complete in Hdec by apply codes_present.
    destruct (decode_object_keeps v i x Hi) as [v' [Hv' Hn]].
    rewrite Hv' in Hdec. simpl in Hdec. injection Hdec as <-.
    exists v'. split; assumption.
Qed.

(** X2.  [knn_impute] never changes a value that is present: in the frame
    it returns for an aligned frame, every numeric cell and every
    categorical cell that held a value holds the same value, in the same
    column position, under the same label and with the same kind of
    column. *)
Theorem knn_impute_keeps_present_values (df df' : DataFrame) (k : Z)
    (j : nat) (name : string) :
  aligned df ->
  knn_impute df k = Ok df' ->
  (forall v i q,
     nth_error (columns df) j = Some (name, NumCol v) ->
     nth_error v i = Some (Some q) ->
     exists v', nth_error (columns df') j = Some (name, NumCol v') /\
                nth_error v' i = Some (Some q)) /\
  (forall v i s,
     nth_error (columns df) j = Some (name, ObjCol v) ->
     nth_error v i = Some (Some s) ->
     exists v', nth_error (columns df') j = Some (name, ObjCol v') /\
                nth_error v' i = Some (Some s)).
Proof. exact (knn_impute_cells_kept df df' k j name). Qed.

(** X3.  Whenever [knn_impute] returns, the result has the input's labels
    in the input's order, every column of the result has as many entries
    as the input has rows, and every column that was numeric is still
    numeric, in its position, and has no missing value left. *)
Theorem knn_impute_completes_numeric_columns (df df' : DataFrame) (k : Z) :
  knn_impute df k = Ok df' ->
  names df' = names df /\
  Forall (fun nc => col_length (snd nc) = nrows df) (columns df') /\
  forall j name v,
    nth_error (columns df) j = Some (name, NumCol v) ->
    exists v', nth_error (columns df') j = Some (name, NumCol v') /\
               no_missing v'.
Proof.
  intros H. destruct (knn_impute_fills_numeric df df' k H) as [Hn Hf].
  split; [exact Hn|]. split; [now apply knn_impute_aligned in H | exact Hf].
Qed.

Lemma knn_impute_output_complete (df a : DataFrame) (k : Z) :
  aligned df ->
  (forall name v, In (name, ObjCol v) (columns df) -> no_missing v) ->
  knn_impute df k = Ok a -> complete a.
Proof.
  intros Ha Hobj H. pose proof (knn_impute_decoded df a k H) as Hd.
  destruct (knn_impute_ok_inv df a k H) as [Hk [Hvalid _]].
  destruct (knn_impute_ok_guards df a k H) as [_ [Hn _]].
  cbv zeta in Hvalid. rewrite Forall_forall in Hvalid.
  unfold aligned in Ha. rewrite Forall_forall in Ha.
  unfold complete. revert Hd. apply mapM_Forall.
  intros [name c] b Hin Hb. cbn [fst snd] in Hb. bind_inv Hb.
  injection Hb as <-. cbn [snd].
  pose proof (Ha _ Hin) as Hl. cbn [snd] in Hl.
  destruct c as [v|v].
  - simpl in Hx. injection Hx as <-. simpl.
    apply transform_column_fills; [lia|]. apply Hvalid.
    apply in_map_iff. exists (name, NumCol v). split; [reflexivity|exact Hin].
  - simpl in Hl.
    assert (Hl' : nrows df = List.length (encode_for_knn (ObjCol v)))
      by (rewrite encode_for_knn_length; simpl; congruence).
    rewrite Hl' in Hx.
    rewrite transform_column_complete in Hx by apply codes_present.
    rewrite decode_encode_object in Hx.
    + injection Hx as <-. simpl. exact (Hobj _ _ Hin).
    + exact (Hobj _ _ Hin).
    + intros ->. simpl in Hl. lia.
Qed.

(** X4.  Imputing twice is imputing once: on an aligned frame in which no
    categorical value is missing, the frame [knn_impute] returns is returned
    unchanged (index included) by a second call. *)
Theorem knn_impute_idempotent (df a : DataFrame) (k : Z) :
  aligned df ->
  (forall name v, In (name, ObjCol v) (columns df) -> no_missing v) ->
  knn_impute df k = Ok a ->
  knn_impute a k = Ok a.
Proof.
  intros Ha Hobj H.
  pose proof (knn_impute_output_complete df a k Ha Hobj H) as Hc.
  pose proof (knn_impute_aligned df a k H) as Hal.
  pose proof (knn_impute_index df a k H) as Hi.
  pose proof (knn_impute_keeps_labels df a k H) as Hn.
  destruct (knn_impute_ok_guards df a k H) as [Hk [Hr Hcols]].
  assert (Hrows : nrows a = nrows df).
  { unfold nrows at 1. rewrite Hi. apply RangeIndex_length. }
  rewrite knn_impute_complete_ok.
  - rewrite Hrows, <- Hi. now destruct a.
  - unfold aligned. now rewrite Hrows.
  - exact Hc.
  - exact Hk.
  - lia.
  - intros E. apply Hcols. unfold names in Hn. rewrite E in Hn.
    simpl in Hn. destruct (columns df); [reflexivity|discriminate].
Qed.

(** ** Lists: masks and present values *)

Lemma mask_filter_all_false {A B : Type} (v : list B) (l : list A) :
  mask_filter (map (fun _ => false) v) l = [].
Proof.
  revert l. induction v as [|b v IH]; intros [|a l]; simpl; auto.
Qed.

Lemma present_in {A : Type} (v : list (option A)) (a : A) :
  In a (present v) <-> In (Some a) v.
Proof.
  induction v as [|[x|] v IH]; simpl.
  - tauto.
  - rewrite IH. split; intros [H|H]; auto; [left; congruence | left; congruence].
  - rewrite IH. split; [auto | intros [H|H]; [discriminate | exact H]].
Qed.

(** ** [remove_outliers_iqr] in double precision *)

(** *** Comparisons of doubles *)

Lemma SFcompare_antisym (f1 f2 : spec_float) :
  SFcompare f2 f1 = option_map CompOpp (SFcompare f1 f2).
Proof.
  destruct f1 as [s1|s1| |s1 m1 e1], f2 as [s2|s2| |s2 m2 e2]; simpl;
    try destruct s1; try destruct s2; try reflexivity;
    rewrite (Z.compare_antisym e1 e2); destruct (e1 ?= e2)%Z; simpl;
    try reflexivity;
    rewrite (Pos.compare_cont_antisym m1 m2 Eq); simpl;
    now rewrite ?CompOpp_involutive.
Qed.

Lemma SFcompare_refl (f : spec_float) :
  f <> S754_nan -> SFcompare f f = Some Eq.
Proof.
  destruct f as [s|s| |s m e]; simpl; intros H; try congruence;
    destruct s; try reflexivity;
    rewrite Z.compare_refl, Pos.compare_cont_refl; reflexivity.
Qed.

Lemma is_nan_spec (x : float) :
  PrimFloat.is_nan x = true <-> Prim2SF x = S754_nan.
Proof.
  unfold PrimFloat.is_nan. rewrite FloatAxioms.eqb_spec. unfold SFeqb. split.
  - intros H. destruct (Prim2SF x) eqn:E; try reflexivity;
      rewrite SFcompare_refl in H by discriminate; discriminate.
  - intros ->. reflexivity.
Qed.

(** A comparison with NaN is false. *)
Lemma leb_nan_l (a x : float) :
  PrimFloat.is_nan a = true -> PrimFloat.leb a x = false.
Proof.
  intros H. apply is_nan_spec in H. rewrite FloatAxioms.leb_spec, H. reflexivity.
Qed.

Lemma leb_nan_r (x a : float) :
  PrimFloat.is_nan a = true -> PrimFloat.leb x a = false.
Proof.
  intros H. apply is_nan_spec in H. rewrite FloatAxioms.leb_spec, H. unfold SFleb.
  destruct (Prim2SF x); reflexivity.
Qed.

(** Two doubles that are not NaN are comparable. *)
Lemma leb_total (x y : float) :
  PrimFloat.is_nan x = false -> PrimFloat.is_nan y = false ->
  PrimFloat.leb x y = false -> PrimFloat.leb y x = true.
Proof.
  intros Hx Hy. rewrite !FloatAxioms.leb_spec. unfold SFleb.
  rewrite (SFcompare_antisym (Prim2SF x) (Prim2SF y)).
  assert (Hx' : Prim2SF x <> S754_nan)
    by (intros E; apply is_nan_spec in E; congruence).
  assert (Hy' : Prim2SF y <> S754_nan)
    by (intros E; apply is_nan_spec in E; congruence).
  destruct (SFcompare (Prim2SF x) (Prim2SF y)) as [[| |]|] eqn:E; simpl;
    try discriminate; try reflexivity.
  exfalso. destruct (Prim2SF x), (Prim2SF y); simpl in E;
    try discriminate; congruence.
Qed.

(** *** Sorting doubles *)

Lemma dropna_not_nan (v : list float) :
  Forall (fun x => PrimFloat.is_nan x = false) (Float64.dropna v).
Proof.
  apply Forall_forall. intros x Hx. apply filter_In in Hx.
  destruct Hx as [_ Hx]. now apply negb_true_iff in Hx.
Qed.

Lemma insert_sorted_doubles (x : float) (l : list float) :
  PrimFloat.is_nan x = false ->
  Forall (fun y => PrimFloat.is_nan y = false) l ->
  Sorted (fun a b => PrimFloat.leb a b = true) l ->
  Sorted (fun a b => PrimFloat.leb a b = true) (insert PrimFloat.leb x l).
Proof.
  intros Hx Hl Hs. induction Hs as [|h t Ht IH Hd]; simpl.
  - repeat constructor.
  - inversion Hl as [|? ? Hh Hl']; subst.
    destruct (PrimFloat.leb x h) eqn:E.
    + constructor; [now constructor|]. now constructor.
    + constructor; [now apply IH|].
      destruct t as [|h' t']; simpl.
      * constructor. now apply leb_total.
      * destruct (PrimFloat.leb x h'); constructor.
        -- now apply leb_total.
        -- now inversion Hd.
Qed.

Lemma insert_not_nan (x : float) (l : list float) :
  PrimFloat.is_nan x = false ->
  Forall (fun y => PrimFloat.is_nan y = false) l ->
  Forall (fun y => PrimFloat.is_nan y = false) (insert PrimFloat.leb x l).
Proof.
  intros Hx Hl. apply Forall_forall. intros y Hy.
  apply (Permutation_in _ (insert_perm PrimFloat.leb x l)) in Hy.
  rewrite Forall_forall in Hl. destruct Hy as [<-|Hy]; auto.
Qed.

Lemma sort_sorted_doubles (l : list float) :
  Forall (fun y => PrimFloat.is_nan y = false) l ->
  Sorted (fun a b => PrimFloat.leb a b = true) (sort PrimFloat.leb l) /\
  Forall (fun y => PrimFloat.is_nan y = false) (sort PrimFloat.leb l).
Proof.
  induction 1 as [|a l Ha Hl IH]; simpl; [split; constructor|].
  destruct IH as [Hs Hn]. unfold sort in *. simpl. split.
  - now apply insert_sorted_doubles.
  - now apply insert_not_nan.
Qed.

(** The quantile the code computes is the percentile of the contract. *)
Lemma quantile_is_percentile_doubles (v : list float) (q : float) :
  Float64.dropna v <> [] ->
  PrimFloat.div (PrimFloat.mul q 100) 100 = q ->
  Float64.is_percentile v q (Float64.quantile v q).
Proof.
  intros Hne Hq. unfold Float64.quantile, Float64.is_percentile.
  destruct (Float64.dropna v) as [|x0 rest] eqn:E; [congruence|].
  exists (sort PrimFloat.leb (x0 :: rest)).
  split; [apply sort_perm|]. split.
  - apply sort_sorted_doubles. rewrite <- E. apply dropna_not_nan.
  - split.
    + intros En. pose proof (sort_perm PrimFloat.leb (x0 :: rest)) as Hp.
      rewrite En in Hp. apply Permutation_nil in Hp. discriminate.
    + unfold Float64.percentile. now rewrite Hq.
Qed.

(** *** Row selection on frames of doubles *)

Lemma cell_at_mask_doubles (mask : list bool) (c : Float64.column) (j : nat) :
  Float64.col_length c = List.length mask ->
  (j < List.length (kept mask))%nat ->
  Float64.cell_at (Float64.mask_column mask c) j
    = Float64.cell_at c (nth j (kept mask) O).
Proof.
  intros Hl Hj. destruct c as [v|v]; simpl in *.
  - rewrite (mask_filter_kept nan mask v Hl). f_equal.
    now apply (nth_map_in (fun i => nth i v nan)).
  - rewrite (mask_filter_kept None mask v Hl). f_equal.
    now apply (nth_map_in (fun i => nth i v None)).
Qed.

(** Selecting by a mask keeps exactly the rows at the kept positions,
    with their index labels. *)
Lemma rows_select_rows_doubles (df : Float64.DataFrame) (mask : list bool) :
  Float64.aligned df -> List.length mask = Float64.nrows df ->
  Float64.rows (Float64.select_rows df mask) = map (Float64.row df) (kept mask).
Proof.
  intros Ha Hm. unfold Float64.rows, Float64.nrows. simpl.
  rewrite (mask_filter_kept 0%Z mask (Float64.index df)) by (symmetry; exact Hm).
  rewrite length_map.
  transitivity (map (fun j => Float64.row df (nth j (kept mask) O))
                  (seq 0 (List.length (kept mask)))).
  - apply map_ext_in. intros j Hj. apply in_seq in Hj.
    unfold Float64.row. simpl. f_equal.
    + rewrite (mask_filter_kept 0%Z mask (Float64.index df))
        by (symmetry; exact Hm).
      apply (nth_map_in (fun i => nth i (Float64.index df) 0%Z)). lia.
    + rewrite map_map. apply map_ext_in. intros [n c] Hin. simpl. f_equal.
      apply cell_at_mask_doubles; [|lia].
      unfold Float64.aligned in Ha. rewrite Forall_forall in Ha.
      pose proof (Ha _ Hin) as E. simpl in E. now rewrite E, Hm.
  - rewrite <- map_map. now rewrite map_nth_seq.
Qed.

Lemma getitem_In_doubles (df : Float64.DataFrame) (name : string)
    (c : Float64.column) :
  Float64.getitem df name = Ok c -> In (name, c) (Float64.columns df).
Proof.
  unfold Float64.getitem.
  destruct (Float64.lookup name (Float64.columns df)) as [c'|] eqn:E;
    [|discriminate].
  injection 1 as ->. revert E.
  induction (Float64.columns df) as [|[n c''] t IH]; simpl; [discriminate|].
  destruct (String.eqb name n) eqn:En.
  - apply String.eqb_eq in En. subst. injection 1 as ->. now left.
  - intros H. right. now apply IH.
Qed.

(** *** The outlier filter *)

(** C3.  For a numeric column of an aligned frame of doubles,
    [remove_outliers_iqr] returns the frame made of exactly the input rows,
    in their order and with their index labels, whose value in the column
    lies within [Q1 - 1.5 IQR, Q3 + 1.5 IQR]; Q1 and Q3 are the 25th and
    75th percentiles of the column of the given input by linear
    interpolation; the quartiles, their difference and the bounds are the
    doubles the code computes, each operation rounded.  A row whose value
    is NaN is never kept, and the result has the labels of the input and at
    most as many rows.  (The function is a function of its arguments, and
    its argument is a value: determinism and the absence of mutation are
    built into the embedding.) *)
Theorem remove_outliers_iqr_keeps_inliers (df : Float64.DataFrame)
    (column : string) (v : list float) :
  Float64.aligned df ->
  Float64.getitem df column = Ok (Float64.NumCol v) ->
  exists df' keep,
    Float64.remove_outliers_iqr df column = Ok df' /\
    Float64.rows df'
      = map (Float64.row df) (filter keep (seq 0 (Float64.nrows df))) /\
    (forall i, keep i = true <-> Float64.within_iqr v (nth i v nan)) /\
    (Float64.dropna v <> [] ->
     Float64.is_percentile v 0.25 (Float64.quantile v 0.25) /\
     Float64.is_percentile v 0.75 (Float64.quantile v 0.75)) /\
    (forall i, PrimFloat.is_nan (nth i v nan) = true -> keep i = false) /\
    (Float64.nrows df' <= Float64.nrows df)%nat /\
    Float64.names df' = Float64.names df.
Proof.
  intros Ha Hg.
  assert (Hl : List.length v = Float64.nrows df).
  { apply getitem_In_doubles in Hg. unfold Float64.aligned in Ha.
    rewrite Forall_forall in Ha. exact (Ha _ Hg). }
  unfold Float64.remove_outliers_iqr. rewrite Hg. cbn [bind].
  set (lower_bound := PrimFloat.sub (Float64.quantile v 0.25)
         (PrimFloat.mul 1.5
            (PrimFloat.sub (Float64.quantile v 0.75) (Float64.quantile v 0.25)))).
  set (upper_bound := PrimFloat.add (Float64.quantile v 0.75)
         (PrimFloat.mul 1.5
            (PrimFloat.sub (Float64.quantile v 0.75) (Float64.quantile v 0.25)))).
  set (test := fun x => PrimFloat.leb lower_bound x && PrimFloat.leb x upper_bound).
  eexists. exists (fun i => test (nth i v nan)).
  split; [reflexivity|].
  assert (Hnan : test nan = false) by (unfold test; now rewrite leb_nan_r).
  split; [|split; [|split; [|split; [|split]]]].
  - rewrite rows_select_rows_doubles by (try rewrite length_map; assumption).
    f_equal. rewrite (kept_map test nan) by exact Hnan. now rewrite Hl.
  - intros i. unfold test, Float64.within_iqr. cbv zeta.
    fold lower_bound upper_bound. apply andb_true_iff.
  - intros Hne. split; apply quantile_is_percentile_doubles;
      try exact Hne; reflexivity.
  - intros i Hi. unfold test. now rewrite (leb_nan_r lower_bound).
  - unfold Float64.nrows. simpl.
    rewrite (mask_filter_kept 0%Z) by (rewrite length_map; now rewrite Hl).
    rewrite length_map. etransitivity; [apply kept_length_le|].
    rewrite length_map. now rewrite Hl.
  - unfold Float64.names. simpl. now rewrite map_map.
Qed.

(** X5.  On a frame of doubles [remove_outliers_iqr] raises a missing-key
    error (naming the column) when the frame has no such column, and a
    type error when the column holds strings and at least one of them is
    present.  On a column without any value, of strings or of numbers,
    the quartiles are NaN, every comparison is false and the result, which
    keeps the labels, has no row at all. *)
Theorem remove_outliers_iqr_edge_cases (df : Float64.DataFrame)
    (column : string) :
  (Float64.lookup column (Float64.columns df) = None ->
   Float64.remove_outliers_iqr df column = Raise (KeyError column)) /\
  (forall v,
     Float64.lookup column (Float64.columns df) = Some (Float64.ObjCol v) ->
     present v <> [] ->
     Float64.remove_outliers_iqr df column = Raise TypeError) /\
  (forall c,
     Float64.lookup column (Float64.columns df) = Some c ->
     match c with
     | Float64.NumCol v => Float64.dropna v = []
     | Float64.ObjCol v => present v = []
     end ->
     exists df',
       Float64.remove_outliers_iqr df column = Ok df' /\
       Float64.nrows df' = 0%nat /\
       Float64.names df' = Float64.names df /\
       Forall (fun nc => Float64.col_length (snd nc) = 0%nat)
         (Float64.columns df')).
Proof.
  assert (Hempty : forall (B : Type) (w : list B),
            Float64.nrows (Float64.select_rows df (map (fun _ => false) w))
              = 0%nat /\
            Float64.names (Float64.select_rows df (map (fun _ => false) w))
              = Float64.names df /\
            Forall (fun nc => Float64.col_length (snd nc) = 0%nat)
              (Float64.columns
                 (Float64.select_rows df (map (fun _ => false) w)))).
  { intros B w. unfold Float64.nrows, Float64.names, Float64.select_rows.
    cbn [Float64.index Float64.columns].
    rewrite mask_filter_all_false. split; [reflexivity|]. split.
    - now rewrite map_map.
    - apply Forall_forall. intros [n c] Hin. apply in_map_iff in Hin.
      destruct Hin as [[n' c'] [E _]]. injection E as _ <-.
      destruct c'; simpl; now rewrite mask_filter_all_false. }
  unfold Float64.remove_outliers_iqr, Float64.getitem. repeat split.
  - intros H. now rewrite H.
  - intros v H Hv. rewrite H. cbn [bind].
    destruct (present v); [congruence | reflexivity].
  - intros c H Hc. rewrite H. cbn [bind]. destruct c as [v|v].
    + assert (Hmask :
        map (fun x =>
               PrimFloat.leb
                 (PrimFloat.sub (Float64.quantile v 0.25)
                    (PrimFloat.mul 1.5
                       (PrimFloat.sub (Float64.quantile v 0.75)
                          (Float64.quantile v 0.25)))) x
               && PrimFloat.leb x
                    (PrimFloat.add (Float64.quantile v 0.75)
                       (PrimFloat.mul 1.5
                          (PrimFloat.sub (Float64.quantile v 0.75)
                             (Float64.quantile v 0.25))))) v
        = map (fun _ => false) v).
      { apply map_ext. intros x. unfold Float64.quantile. rewrite Hc.
        now rewrite (leb_nan_l _ x) by reflexivity. }
      cbv zeta. rewrite Hmask. eexists. split; [reflexivity|]. apply Hempty.
    + rewrite Hc. eexists. split; [reflexivity|]. apply Hempty.
Qed.

(** ** [create_features]: shape of the result *)

(** The frame the composer returns on numeric source columns. *)
Lemma create_features_value (df : DataFrame) (e t ic ec my : list (option Q)) :
  lookup "engine" (columns df) = Some (NumCol e) ->
  lookup "transmission" (columns df) = Some (NumCol t) ->
  lookup "int_col" (columns df) = Some (NumCol ic) ->
  lookup "ext_col" (columns df) = Some (NumCol ec) ->
  lookup "model_year" (columns df) = Some (NumCol my) ->
  create_features df =
    Ok (mkDF (index df)
          (filter (fun nc => negb (existsb (String.eqb (fst nc)) ["model_year"]))
             (set_col "car_age"
                (NumCol (map (option_map (fun y => (inject_Z 2024 - y)%Q)) my))
                (filter (fun nc => negb (existsb (String.eqb (fst nc))
                                           ["engine"; "transmission"; "int_col";
                                            "ext_col"]))
                   (set_col "int_ext_color" (NumCol (zip_with (lift2 Qmult) ic ec))
                      (set_col "engine_transmission"
                         (NumCol (zip_with (lift2 Qmult) e t)) (columns df))))))).
Proof.
  intros He Ht Hic Hec Hmy. unfold create_features. cbv zeta.
  getitem_step He. getitem_step Ht. cbn [col_mul bind].
  getitem_step Hic. getitem_step Hec. cbn [col_mul bind].
  rewrite drop_ok by all_present. cbn [bind].
  getitem_step Hmy. cbn [rsub bind].
  rewrite drop_ok by all_present. reflexivity.
Qed.

(** The composer returns only when its five source columns are numeric. *)
Lemma create_features_cases (df : DataFrame) :
  (exists e t ic ec my,
     lookup "engine" (columns df) = Some (NumCol e) /\
     lookup "transmission" (columns df) = Some (NumCol t) /\
     lookup "int_col" (columns df) = Some (NumCol ic) /\
     lookup "ext_col" (columns df) = Some (NumCol ec) /\
     lookup "model_year" (columns df) = Some (NumCol my)) \/
  (exists err, create_features df = Raise err).
Proof.
  unfold create_features. cbv zeta.
  getitem_case "engine" He; [| |right; eauto].
  - getitem_case "transmission" Ht; [| |right; eauto].
    + getitem_case "int_col" Hic; [| |right; eauto].
      * getitem_case "ext_col" Hec; [| |right; eauto].
        -- rewrite drop_ok by all_present. cbn [bind].
           getitem_case "model_year" Hmy; [|right; eauto|right; eauto].
           left. do 5 eexists. repeat split; eassumption.
        -- right; eauto.
      * getitem_case "ext_col" Hec; right; eauto.
    + right; eauto.
  - getitem_case "transmission" Ht; right; eauto.
Qed.

Lemma create_features_ok_inv (df df' : DataFrame) :
  create_features df = Ok df' ->
  exists e t ic ec my,
    lookup "engine" (columns df) = Some (NumCol e) /\
    lookup "transmission" (columns df) = Some (NumCol t) /\
    lookup "int_col" (columns df) = Some (NumCol ic) /\
    lookup "ext_col" (columns df) = Some (NumCol ec) /\
    lookup "model_year" (columns df) = Some (NumCol my).
Proof.
  intros H. destruct (create_features_cases df) as [Hc|[err He]];
    [exact Hc | congruence].
Qed.

Lemma names_filter (p : string -> bool) (cols : list (string * column)) :
  map fst (filter (fun nc => p (fst nc)) cols) = filter p (map fst cols).
Proof.
  induction cols as [|[n c] cols IH]; simpl; [reflexivity|].
  destruct (p n); simpl; now rewrite IH.
Qed.

Lemma names_set_col_new (l : string) (c : column) (cols : list (string * column)) :
  ~ In l (map fst cols) -> map fst (set_col l c cols) = map fst cols ++ [l].
Proof.
  induction cols as [|[n c'] cols IH]; simpl; intros H; [reflexivity|].
  destruct (String.eqb l n) eqn:E.
  - apply String.eqb_eq in E. subst. exfalso. apply H. now left.
  - simpl. f_equal. apply IH. intros Hin. apply H. now right.
Qed.

Lemma names_set_col_old (l : string) (c : column) (cols : list (string * column)) :
  In l (map fst cols) -> map fst (set_col l c cols) = map fst cols.
Proof.
  induction cols as [|[n c'] cols IH]; simpl; intros H; [contradiction|].
  destruct (String.eqb l n) eqn:E; [reflexivity|].
  simpl. f_equal. apply IH. destruct H as [H|H]; [|exact H].
  subst. now rewrite String.eqb_refl in E.
Qed.

Lemma filter_twice {A : Type} (p q : A -> bool) (l : list A) :
  filter p (filter q l) = filter (fun x => q x && p x) l.
Proof.
  induction l as [|a l IH]; simpl; [reflexivity|].
  destruct (q a); simpl; [destruct (p a)|]; now rewrite IH.
Qed.

(** X7.  Column order after [create_features]: on a frame whose five source
    columns are numeric and which has no column named like a feature, the
    labels of the result are the input's labels in their order with the
    five source columns taken out, followed by [engine_transmission],
    [int_ext_color] and [car_age], in this order. *)
Theorem create_features_column_order (df df' : DataFrame) :
  create_features df = Ok df' ->
  (forall x, In x feature_columns -> ~ In x (names df)) ->
  names df' =
    filter (fun x => negb (existsb (String.eqb x) source_columns)) (names df)
    ++ feature_columns.
Proof.
  intros H Hnew.
  destruct (create_features_ok_inv df df' H)
    as [e [t [ic [ec [my [He [Ht [Hic [Hec Hmy]]]]]]]]].
  rewrite (create_features_value df e t ic ec my He Ht Hic Hec Hmy) in H.
  injection H as <-. unfold names. cbn [columns].
  rewrite (names_filter (fun x => negb (existsb (String.eqb x) ["model_year"]))).
  rewrite names_set_col_new.
  2:{ rewrite (names_filter
                 (fun x => negb (existsb (String.eqb x)
                                   ["engine"; "transmission"; "int_col"; "ext_col"]))).
      intros Hin. apply filter_In in Hin. destruct Hin as [Hin _].
      rewrite names_set_col_new in Hin.
      - apply in_app_or in Hin. destruct Hin as [Hin|[Hin|[]]]; [|discriminate].
        rewrite names_set_col_new in Hin
          by (apply Hnew; simpl; tauto).
        apply in_app_or in Hin. destruct Hin as [Hin|[Hin|[]]]; [|discriminate].
        apply (Hnew "car_age"); [simpl; tauto | exact Hin].
      - rewrite names_set_col_new by (apply Hnew; simpl; tauto).
        intros Hin'. apply in_app_or in Hin'.
        destruct Hin' as [Hin'|[Hin'|[]]]; [|discriminate].
        apply (Hnew "int_ext_color"); [simpl; tauto | exact Hin']. }
  rewrite (names_filter
             (fun x => negb (existsb (String.eqb x)
                               ["engine"; "transmission"; "int_col"; "ext_col"]))).
  rewrite names_set_col_new.
  2:{ rewrite names_set_col_new by (apply Hnew; simpl; tauto).
      intros Hin'. apply in_app_or in Hin'.
      destruct Hin' as [Hin'|[Hin'|[]]]; [|discriminate].
      apply (Hnew "int_ext_color"); [simpl; tauto | exact Hin']. }
  rewrite names_set_col_new by (apply Hnew; simpl; tauto).
  rewrite !filter_app. simpl. rewrite <- !app_assoc. simpl.
  f_equal. rewrite filter_twice. apply filter_ext. intros x.
  destruct (x =? "engine"), (x =? "transmission"), (x =? "int_col"),
    (x =? "ext_col"), (x =? "model_year"); reflexivity.
Qed.

(** X8.  [create_features] consumes its input: the frame it returns has no
    [engine] column any more, so applying it to its own result raises the
    missing-key error for [engine]. *)
Theorem create_features_not_reapplicable (df df' : DataFrame) :
  create_features df = Ok df' ->
  create_features df' = Raise (KeyError "engine").
Proof.
  intros H.
  destruct (create_features_ok_inv df df' H)
    as [e [t [ic [ec [my [He [Ht [Hic [Hec Hmy]]]]]]]]].
  destruct (create_features_ok df e t ic ec my He Ht Hic Hec Hmy)
    as [d [Hd [_ Hl]]].
  assert (d = df') by congruence. subst d.
  unfold create_features, getitem. cbv zeta. now rewrite (Hl "engine").
Qed.

(** X9.  The missing-key error of [create_features] names the first source
    column that is absent, in the order the function reads them: [engine],
    [transmission], then (the first two being numeric) [int_col],
    [ext_col], then (those four being numeric) [model_year]. *)
Theorem create_features_reports_first_missing_key (df : DataFrame) :
  (lookup "engine" (columns df) = None ->
   create_features df = Raise (KeyError "engine")) /\
  (forall c,
     lookup "engine" (columns df) = Some c ->
     lookup "transmission" (columns df) = None ->
     create_features df = Raise (KeyError "transmission")) /\
  (forall e t,
     lookup "engine" (columns df) = Some (NumCol e) ->
     lookup "transmission" (columns df) = Some (NumCol t) ->
     lookup "int_col" (columns df) = None ->
     create_features df = Raise (KeyError "int_col")) /\
  (forall e t c,
     lookup "engine" (columns df) = Some (NumCol e) ->
     lookup "transmission" (columns df) = Some (NumCol t) ->
     lookup "int_col" (columns df) = Some c ->
     lookup "ext_col" (columns df) = None ->
     create_features df = Raise (KeyError "ext_col")) /\
  (forall e t ic ec,
     lookup "engine" (columns df) = Some (NumCol e) ->
     lookup "transmission" (columns df) = Some (NumCol t) ->
     lookup "int_col" (columns df) = Some (NumCol ic) ->
     lookup "ext_col" (columns df) = Some (NumCol ec) ->
     lookup "model_year" (columns df) = None ->
     create_features df = Raise (KeyError "model_year")).
Proof.
  unfold create_features. cbv zeta. repeat split.
  - intros He. now getitem_step He.
  - intros c He Ht. getitem_step He. now getitem_step Ht.
  - intros e t He Ht Hic. getitem_step He. getitem_step Ht.
    cbn [col_mul bind]. now getitem_step Hic.
  - intros e t c He Ht Hic Hec. getitem_step He. getitem_step Ht.
    cbn [col_mul bind]. getitem_step Hic. now getitem_step Hec.
  - intros e t ic ec He Ht Hic Hec Hmy. getitem_step He. getitem_step Ht.
    cbn [col_mul bind]. getitem_step Hic. getitem_step Hec.
    cbn [col_mul bind]. rewrite drop_ok by all_present. cbn [bind].
    now getitem_step Hmy.
Qed.


Lemma map_no_missing (f : Q -> Q) (x : list (option Q)) :
  no_missing x -> no_missing (map (option_map f) x).
Proof.
  induction 1 as [|[a|] x Ha Hx IH]; simpl; [constructor | | congruence].
  constructor; [discriminate | exact IH].
Qed.


(** ** [preprocess_data]: the stages of a successful call *)

Lemma preprocess_data_ok_inv (self : DataPreprocessor.t) (df P : DataFrame)
    (is_training : bool) :
  preprocess_data self df is_training = Ok P ->
  exists a b c d,
    drop_id df = Ok a /\
    knn_impute a 25 = Ok b /\
    encode_categoricals self b = Ok c /\
    create_features c = Ok d /\
    if is_training
    then exists e f,
           remove_outliers_iqr d "milage" = Ok e /\
           remove_outliers_iqr e "price" = Ok f /\
           P = reset_index f
    else P = d.
Proof.
  destruct is_training; intros H.
  - rewrite preprocess_data_training in H. unfold training_sequence in H.
    do 6 bind_inv H. injection H as <-.
    exists x, x0, x1, x2. repeat (split; [assumption|]).
    exists x3, x4. repeat split; assumption.
  - rewrite preprocess_data_inference in H. unfold inference_sequence in H.
    do 3 bind_inv H. exists x, x0, x1, P. repeat split; assumption.
Qed.

Lemma drop_id_lookup (df a : DataFrame) :
  drop_id df = Ok a ->
  index a = index df /\
  forall x, lookup x (columns a) =
            if String.eqb x "id" then None else lookup x (columns df).
Proof.
  unfold drop_id. rewrite has_column_lookup.
  destruct (lookup "id" (columns df)) as [c|] eqn:E.
  - intros H. apply drop_inv in H. subst a. split; [reflexivity|].
    intros x. cbn [columns]. rewrite lookup_filter. simpl.
    now rewrite orb_false_r.
  - injection 1 as <-. split; [reflexivity|]. intros x.
    destruct (String.eqb x "id") eqn:Ex; [|reflexivity].
    apply String.eqb_eq in Ex. now subst.
Qed.

Lemma drop_id_returns (df : DataFrame) : exists a, drop_id df = Ok a.
Proof.
  unfold drop_id. rewrite has_column_lookup.
  destruct (lookup "id" (columns df)) as [c|] eqn:E; [|eauto].
  rewrite drop_ok by (intros l [<-|[]]; congruence). eauto.
Qed.

Lemma assign_columns_names (df : DataFrame) (labels : list string)
    (arr : list (list (option Q))) :
  (forall l, In l labels -> In l (names df)) ->
  names (assign_columns df labels arr) = names df.
Proof.
  unfold assign_columns. intros H.
  assert (Hla : forall la, In la (combine labels arr) -> In (fst la) (names df)).
  { intros [l a] Hin. apply in_combine_l in Hin. now apply H. }
  clear H. revert df Hla. induction (combine labels arr) as [|[l a] la IH];
    intros df Hla; [reflexivity|].
  simpl. rewrite IH.
  - unfold names. simpl. apply names_set_col_old. apply (Hla (l, a)). now left.
  - intros p Hp. unfold names. simpl. rewrite names_set_col_old.
    + apply Hla. now right.
    + apply (Hla (l, a)). now left.
Qed.

Lemma object_columns_are_names (df : DataFrame) (l : string) :
  In l (object_columns df) -> In l (names df).
Proof.
  unfold object_columns, names. intros H. apply in_map_iff in H.
  destruct H as [nc [<- Hnc]]. apply filter_In in Hnc. apply in_map. tauto.
Qed.

Lemma encode_categoricals_names (self : DataPreprocessor.t) (b c : DataFrame) :
  encode_categoricals self b = Ok c -> names c = names b.
Proof.
  unfold encode_categoricals. destruct (_ <? _)%nat.
  - intros H. bind_inv H. injection H as <-.
    apply assign_columns_names. apply object_columns_are_names.
  - now injection 1 as <-.
Qed.

Lemma names_set_col_in (x l : string) (c : column) (cols : list (string * column)) :
  In x (map fst (set_col l c cols)) <-> x = l \/ In x (map fst cols).
Proof.
  rewrite !lookup_names, lookup_set_col.
  destruct (String.eqb x l) eqn:E.
  - apply String.eqb_eq in E. split; [now left | discriminate].
  - apply String.eqb_neq in E. split; [now right | intros [H|H]; [contradiction | exact H]].
Qed.

Lemma create_features_names (df df' : DataFrame) (x : string) :
  create_features df = Ok df' ->
  (In x (names df') <->
   (In x (names df) /\ ~ In x source_columns) \/ In x feature_columns).
Proof.
  intros H.
  destruct (create_features_ok_inv df df' H)
    as [e [t [ic [ec [my [He [Ht [Hic [Hec Hmy]]]]]]]]].
  destruct (create_features_ok df e t ic ec my He Ht Hic Hec Hmy)
    as [d [Hd [_ Hl]]].
  assert (d = df') by congruence. subst d.
  unfold names. rewrite !lookup_names, Hl.
  destruct (existsb (String.eqb x) source_columns) eqn:Es.
  - apply existsb_exists in Es. destruct Es as [y [Hy Exy]].
    apply String.eqb_eq in Exy. subst y. split; [congruence|].
    intros [[_ Hn]|Hf]; [contradiction|]. exfalso.
    unfold source_columns, feature_columns in *. simpl in Hy, Hf.
    repeat (destruct Hy as [<-|Hy];
            [repeat (destruct Hf as [Hf|Hf]; [discriminate|]); exact Hf|]).
    exact Hy.
  - assert (Hns : ~ In x source_columns).
    { intros Hin.
      assert (existsb (String.eqb x) source_columns = true) as Et.
      { apply existsb_exists. exists x. split; [exact Hin|].
        apply String.eqb_refl. }
      congruence. }
    unfold feature_columns.
    destruct (String.eqb x "car_age") eqn:E1.
    { apply String.eqb_eq in E1. subst. split; [intros _|discriminate].
      right. simpl. tauto. }
    destruct (String.eqb x "int_ext_color") eqn:E2.
    { apply String.eqb_eq in E2. subst. split; [intros _|discriminate].
      right. simpl. tauto. }
    destruct (String.eqb x "engine_transmission") eqn:E3.
    { apply String.eqb_eq in E3. subst. split; [intros _|discriminate].
      right. simpl. tauto. }
    apply String.eqb_neq in E1, E2, E3. split.
    + intros H0. left. split; assumption.
    + intros [[H0 _]|Hf]; [exact H0|]. exfalso. simpl in Hf.
      destruct Hf as [Hf|[Hf|[Hf|Hf]]]; congruence || contradiction.
Qed.

Lemma remove_outliers_iqr_inv (d e : DataFrame) (column : string) :
  remove_outliers_iqr d column = Ok e ->
  exists v,
    lookup column (columns d) = Some (NumCol v) /\
    e = select_rows d (map (iqr_mask v) v).
Proof.
  unfold remove_outliers_iqr, getitem.
  destruct (lookup column (columns d)) as [[v|v]|]; simpl; try discriminate.
  injection 1 as <-. exists v. split; reflexivity.
Qed.

Lemma select_rows_names (d : DataFrame) (mask : list bool) :
  names (select_rows d mask) = names d.
Proof. unfold names, select_rows. simpl. now rewrite map_map. Qed.

(** The labels of what [preprocess_data] returns. *)
Lemma preprocess_data_names (self : DataPreprocessor.t) (df P : DataFrame)
    (is_training : bool) (x : string) :
  preprocess_data self df is_training = Ok P ->
  (In x (names P) <->
   (In x (names df) /\ x <> "id" /\ ~ In x source_columns)
   \/ In x feature_columns).
Proof.
  intros H.
  destruct (preprocess_data_ok_inv self df P is_training H)
    as [a [b [c [d [Ha [Hb [Hc [Hd Hend]]]]]]]].
  assert (HP : names P = names d).
  { destruct is_training.
    - destruct Hend as [e [f [He [Hf ->]]]].
      apply remove_outliers_iqr_inv in He, Hf.
      destruct He as [v [_ ->]]. destruct Hf as [w [_ ->]].
      unfold reset_index, names at 1. cbn [columns].
      fold (names (select_rows (select_rows d (map (iqr_mask v) v))
                     (map (iqr_mask w) w))).
      now rewrite !select_rows_names.
    - now subst. }
  rewrite HP, (create_features_names c d x Hd).
  rewrite (encode_categoricals_names self b c Hc).
  rewrite (knn_impute_keeps_labels a b 25 Hb).
  destruct (drop_id_lookup df a Ha) as [_ Hl].
  assert (Hna : In x (names a) <-> In x (names df) /\ x <> "id").
  { unfold names. rewrite !lookup_names, Hl.
    destruct (String.eqb x "id") eqn:E.
    - apply String.eqb_eq in E. split; [congruence | tauto].
    - apply String.eqb_neq in E. tauto. }
  rewrite Hna. tauto.
Qed.

(** ** Row selection keeps frames in shape *)

Lemma mask_filter_length {A B : Type} (mask : list bool) (l : list A)
    (l' : list B) :
  List.length l = List.length mask -> List.length l' = List.length mask ->
  List.length (mask_filter mask l) = List.length (mask_filter mask l').
Proof.
  revert l l'. induction mask as [|b m IH]; intros [|a l] [|a' l'] H H';
    simpl in *; try discriminate; try reflexivity.
  destruct b; simpl; [f_equal|]; apply IH; lia.
Qed.

Lemma mask_filter_length_le {A : Type} (mask : list bool) (l : list A) :
  (List.length (mask_filter mask l) <= List.length l)%nat.
Proof.
  revert l. induction mask as [|b m IH]; intros [|a l]; simpl; try lia.
  - destruct b; simpl; lia.
  - specialize (IH l). destruct b; simpl; lia.
Qed.

Lemma mask_filter_Forall {A : Type} (P : A -> Prop) (mask : list bool)
    (l : list A) :
  Forall P l -> Forall P (mask_filter mask l).
Proof.
  intros H. revert mask. induction H as [|a l Ha Hl IH]; intros [|b m];
    simpl; try constructor.
  - destruct b; constructor.
  - destruct b; [constructor; [exact Ha | apply IH] | apply IH].
Qed.

Lemma mask_filter_own {A : Type} (p : A -> bool) (l : list A) :
  mask_filter (map p l) l = filter p l.
Proof.
  induction l as [|a l IH]; simpl; [reflexivity|].
  destruct (p a); now rewrite IH.
Qed.

Lemma lookup_select_rows (d : DataFrame) (mask : list bool) (x : string) :
  lookup x (columns (select_rows d mask))
  = option_map (mask_column mask) (lookup x (columns d)).
Proof.
  unfold select_rows. cbn [columns].
  induction (columns d) as [|[n c] cols IH]; simpl; [reflexivity|].
  destruct (String.eqb x n); [reflexivity | exact IH].
Qed.

Lemma select_rows_aligned (d : DataFrame) (mask : list bool) :
  aligned d -> List.length mask = nrows d -> aligned (select_rows d mask).
Proof.
  intros Ha Hm. unfold aligned in *. rewrite Forall_forall in *.
  intros [n c] Hin. unfold select_rows in Hin. cbn [columns] in Hin.
  apply in_map_iff in Hin. destruct Hin as [[n' c'] [E Hin]].
  injection E as _ <-. pose proof (Ha _ Hin) as Hl. cbn [snd] in *.
  unfold nrows, select_rows. cbn [index].
  destruct c' as [v|v]; simpl in *;
    apply mask_filter_length; unfold nrows in *; congruence.
Qed.

Lemma iqr_mask_present (v : list (option Q)) (x : option Q) :
  iqr_mask v x = true -> x <> None.
Proof. intros H ->. unfold iqr_mask in H. simpl in H. discriminate. Qed.

Lemma remove_outliers_iqr_shape (d e : DataFrame) (column : string) :
  remove_outliers_iqr d column = Ok e ->
  aligned d ->
  aligned e /\
  (nrows e <= nrows d)%nat /\
  names e = names d /\
  (exists w, lookup column (columns e) = Some (NumCol w) /\ no_missing w) /\
  (forall x w, lookup x (columns d) = Some (NumCol w) -> no_missing w ->
     exists w', lookup x (columns e) = Some (NumCol w') /\ no_missing w').
Proof.
  intros H Ha. destruct (remove_outliers_iqr_inv d e column H) as [v [Hv ->]].
  assert (Hl : List.length v = nrows d).
  { apply lookup_In in Hv. unfold aligned in Ha. rewrite Forall_forall in Ha.
    exact (Ha _ Hv). }
  split; [apply select_rows_aligned; [exact Ha | now rewrite length_map]|].
  split; [unfold nrows, select_rows; cbn [index]; apply mask_filter_length_le|].
  split; [apply select_rows_names|]. split.
  - rewrite lookup_select_rows, Hv. simpl. eexists. split; [reflexivity|].
    rewrite mask_filter_own. apply Forall_forall. intros x Hx.
    apply filter_In in Hx. now apply (iqr_mask_present v).
  - intros x w Hx Hw. rewrite lookup_select_rows, Hx. simpl.
    eexists. split; [reflexivity|]. now apply mask_filter_Forall.
Qed.

Lemma inference_output_aligned (self : DataPreprocessor.t) (df d : DataFrame) :
  preprocess_data self df false = Ok d ->
  aligned d /\ nrows d = nrows df /\ index d = RangeIndex (nrows df).
Proof.
  intros H. rewrite preprocess_data_inference in H.
  pose proof (inference_index self df d H) as Hi.
  pose proof (inference_aligned self df d H) as Ha.
  assert (Hn : nrows d = nrows df).
  { unfold nrows at 1. rewrite Hi. apply RangeIndex_length. }
  split; [unfold aligned; now rewrite Hn | split; assumption].
Qed.

(** A successful training call is a successful inference call followed by
    the two filters and the reset. *)
Lemma training_after_inference (self : DataPreprocessor.t) (df P : DataFrame) :
  preprocess_data self df true = Ok P ->
  exists d e f,
    preprocess_data self df false = Ok d /\
    remove_outliers_iqr d "milage" = Ok e /\
    remove_outliers_iqr e "price" = Ok f /\
    P = reset_index f.
Proof.
  intros H.
  destruct (preprocess_data_ok_inv self df P true H)
    as [a [b [c [d [Ha [Hb [Hc [Hd [e [f [He [Hf HP]]]]]]]]]]]].
  exists d, e, f. split; [|repeat split; assumption].
  rewrite preprocess_data_inference. unfold inference_sequence.
  rewrite Ha. cbn [bind]. rewrite Hb. cbn [bind]. rewrite Hc. cbn [bind].
  exact Hd.
Qed.

(** ** [preprocess_data]: what every result satisfies *)

(** X11.  [preprocess_data] rejects an empty frame: with no row the call
    raises a value error in training and in inference mode alike, whatever
    the columns, and so does [prepare_for_training]. *)
Theorem preprocess_data_rejects_empty_frame (fsqrt : Q -> Q)
    (self : DataPreprocessor.t) (df : DataFrame) :
  nrows df = 0%nat ->
  (forall is_training,
     preprocess_data self df is_training = Raise ValueError) /\
  (forall target scale_features,
     prepare_for_training fsqrt self df target scale_features
       = Raise ValueError).
Proof.
  intros Hn.
  assert (Hp : forall is_training,
             preprocess_data self df is_training = Raise ValueError).
  { intros is_training. destruct (drop_id_returns df) as [a Ha].
    assert (Hk : knn_impute a 25 = Raise ValueError).
    { unfold knn_impute, KNNImputer.fit_transform.
      rewrite (drop_id_nrows df a Ha), Hn. reflexivity. }
    destruct is_training.
    - rewrite preprocess_data_training. unfold training_sequence.
      rewrite Ha. cbn [bind]. now rewrite Hk.
    - rewrite preprocess_data_inference. unfold inference_sequence.
      rewrite Ha. cbn [bind]. now rewrite Hk. }
  split; [exact Hp|]. intros target scale_features.
  unfold prepare_for_training. now rewrite Hp.
Qed.

(** X12.  Whatever the mode, a frame returned by [preprocess_data] has no
    [id] column and none of the five source columns, has the three feature
    columns, and has otherwise exactly the labels of the input. *)
Theorem preprocess_data_labels (self : DataPreprocessor.t) (df P : DataFrame)
    (is_training : bool) :
  preprocess_data self df is_training = Ok P ->
  lookup "id" (columns P) = None /\
  (forall x, In x source_columns -> lookup x (columns P) = None) /\
  (forall x, In x feature_columns -> lookup x (columns P) <> None) /\
  (forall x, x <> "id" -> ~ In x source_columns -> ~ In x feature_columns ->
     (In x (names P) <-> In x (names df))).
Proof.
  intros H.
  pose proof (fun x => preprocess_data_names self df P is_training x H) as Hn.
  assert (Hnone : forall x, ~ In x (names P) -> lookup x (columns P) = None).
  { intros x Hx. destruct (lookup x (columns P)) eqn:E; [|reflexivity].
    exfalso. apply Hx. apply lookup_names. congruence. }
  split; [|split; [|split]].
  - apply Hnone. rewrite Hn. intros [[_ [Hid _]]|Hf]; [congruence|].
    simpl in Hf. destruct Hf as [Hf|[Hf|[Hf|[]]]]; discriminate.
  - intros x Hx. apply Hnone. rewrite Hn. intros [[_ [_ Hs]]|Hf];
      [contradiction|].
    simpl in Hx, Hf.
    repeat (destruct Hx as [<-|Hx];
            [repeat (destruct Hf as [Hf|Hf]; [discriminate|]); exact Hf|]).
    exact Hx.
  - intros x Hx. apply lookup_names. apply Hn. now right.
  - intros x Hid Hs Hf. rewrite Hn. tauto.
Qed.

Lemma training_shape (self : DataPreprocessor.t) (df P : DataFrame) :
  preprocess_data self df true = Ok P ->
  index P = RangeIndex (nrows P) /\
  aligned P /\
  (nrows P <= nrows df)%nat /\
  (exists w, lookup "milage" (columns P) = Some (NumCol w) /\ no_missing w) /\
  (exists w, lookup "price" (columns P) = Some (NumCol w) /\ no_missing w).
Proof.
  intros H.
  destruct (training_after_inference self df P H)
    as [d [e [f [Hd [He [Hf ->]]]]]].
  destruct (inference_output_aligned self df d Hd) as [Had [Hnd _]].
  destruct (remove_outliers_iqr_shape d e "milage" He Had)
    as [Hae [Hne [_ [[w [Hw Hwm]] _]]]].
  destruct (remove_outliers_iqr_shape e f "price" Hf Hae)
    as [Haf [Hnf [_ [Hprice Hkeep]]]].
  assert (Hr : nrows (reset_index f) = nrows f).
  { unfold reset_index, nrows at 1. cbn [index]. apply RangeIndex_length. }
  split; [now rewrite Hr|].
  split; [unfold aligned; rewrite Hr; exact Haf|].
  split; [rewrite Hr; lia|].
  split; [exact (Hkeep "milage" w Hw Hwm) | exact Hprice].
Qed.

(** X13.  A frame returned by the training path has a fresh positional
    index, one entry per row in every column, at most as many rows as the
    input, and no missing value in [milage] and in [price]. *)
Theorem training_output_invariants (self : DataPreprocessor.t)
    (df P : DataFrame) :
  preprocess_data self df true = Ok P ->
  index P = RangeIndex (nrows P) /\
  Forall (fun nc => col_length (snd nc) = nrows P) (columns P) /\
  (nrows P <= nrows df)%nat /\
  (exists w, lookup "milage" (columns P) = Some (NumCol w) /\ no_missing w) /\
  (exists w, lookup "price" (columns P) = Some (NumCol w) /\ no_missing w).
Proof. intros H. exact (training_shape self df P H). Qed.

(** X14.  Training only drops rows: whenever the training path returns,
    the inference path returns on the same input, and each column of the
    training result is, under the same label and in the same position, the
    column of the inference result with the rows of two masks taken out
    (first the [milage] filter, then the [price] filter). *)
Theorem training_is_inference_with_rows_dropped (self : DataPreprocessor.t)
    (df P : DataFrame) :
  preprocess_data self df true = Ok P ->
  exists d m1 m2,
    preprocess_data self df false = Ok d /\
    List.length m1 = nrows d /\
    columns P =
      map (fun nc => (fst nc, mask_column m2 (mask_column m1 (snd nc))))
        (columns d).
Proof.
  intros H.
  destruct (training_after_inference self df P H)
    as [d [e [f [Hd [He [Hf ->]]]]]].
  destruct (inference_output_aligned self df d Hd) as [Had _].
  destruct (remove_outliers_iqr_inv d e "milage" He) as [v [Hv ->]].
  destruct (remove_outliers_iqr_inv _ f "price" Hf) as [w [Hw ->]].
  exists d, (map (iqr_mask v) v), (map (iqr_mask w) w).
  split; [exact Hd|]. split.
  - rewrite length_map. apply lookup_In in Hv. unfold aligned in Had.
    rewrite Forall_forall in Had. exact (Had _ Hv).
  - unfold reset_index, select_rows. cbn [columns]. now rewrite map_map.
Qed.

(** X15.  [preprocess_data] needs its columns: when one of the five source
    columns is absent from the input the call raises in both modes, and in
    training mode it also raises when [milage] or [price] is absent. *)
Theorem preprocess_data_requires_columns (self : DataPreprocessor.t)
    (df : DataFrame) :
  (forall x is_training,
     In x source_columns -> lookup x (columns df) = None ->
     exists err, preprocess_data self df is_training = Raise err) /\
  (forall x,
     x = "milage" \/ x = "price" -> lookup x (columns df) = None ->
     exists err, preprocess_data self df true = Raise err).
Proof.
  split.
  - intros x is_training Hx Habs.
    destruct (preprocess_data self df is_training) as [P|err] eqn:H; [|eauto].
    exfalso.
    destruct (preprocess_data_ok_inv self df P is_training H)
      as [a [b [c [d [Ha [Hb [Hc [Hd _]]]]]]]].
    assert (Hin : In x (names c)).
    { destruct (create_features_ok_inv c d Hd)
        as [e [t [ic [ec [my [He [Ht [Hic [Hec Hmy]]]]]]]]].
      apply lookup_names. simpl in Hx.
      destruct Hx as [<-|[<-|[<-|[<-|[<-|[]]]]]]; congruence. }
    rewrite (encode_categoricals_names self b c Hc) in Hin.
    rewrite (knn_impute_keeps_labels a b 25 Hb) in Hin.
    destruct (drop_id_lookup df a Ha) as [_ Hl].
    apply lookup_names in Hin. rewrite Hl in Hin.
    destruct (String.eqb x "id"); congruence.
  - intros x Hx Habs.
    destruct (preprocess_data self df true) as [P|err] eqn:H; [|eauto].
    exfalso.
    destruct (training_shape self df P H)
      as [_ [_ [_ [[w [Hw _]] [w' [Hw' _]]]]]].
    assert (Hin : In x (names P)).
    { apply lookup_names. destruct Hx as [->| ->]; congruence. }
    apply (preprocess_data_names self df P true x H) in Hin.
    destruct Hin as [[Hin _]|Hf].
    + apply lookup_names in Hin. contradiction.
    + simpl in Hf. destruct Hx as [->| ->];
        destruct Hf as [Hf|[Hf|[Hf|[]]]]; discriminate.
Qed.

(** ** [preprocess_data] returns numbers only *)

Lemma NoDup_lookup (l : string) (c : column) (cols : list (string * column)) :
  NoDup (map fst cols) -> In (l, c) cols -> lookup l cols = Some c.
Proof.
  induction cols as [|[n c'] cols IH]; simpl; intros Hnd Hin; [contradiction|].
  inversion Hnd as [|? ? Hn Hnd']; subst.
  destruct Hin as [E|Hin].
  - injection E as -> ->. now rewrite String.eqb_refl.
  - destruct (String.eqb l n) eqn:E; [|now apply IH].
    apply String.eqb_eq in E. subst. exfalso. apply Hn.
    apply in_map_iff. exists (n, c). split; [reflexivity | exact Hin].
Qed.

Lemma encode_columns_count (p : OrdinalEncoder.unknown_policy)
    (cats : list (list string)) (X : list (list string)) (arr : list (list Q)) :
  OrdinalEncoder.encode_columns p cats X = Ok arr ->
  List.length X = List.length cats -> List.length arr = List.length X.
Proof.
  revert X arr. induction cats as [|c cats IH]; intros [|x X] arr; simpl;
    try discriminate.
  - now injection 1 as <-.
  - intros H Hl. bind_inv H. bind_inv H. injection H as <-. simpl.
    f_equal. apply IH; [assumption | lia].
Qed.

Lemma transform_count (enc : OrdinalEncoder.t) (labels : list string)
    (X : list (list string)) (arr : list (list Q)) :
  OrdinalEncoder.transform enc labels X = Ok arr ->
  List.length arr = List.length X.
Proof.
  unfold OrdinalEncoder.transform.
  destruct (OrdinalEncoder.state enc) as [st|]; [|discriminate].
  destruct (match OrdinalEncoder.feature_names_in_ st with
            | Some fn => _ | None => _ end); [discriminate|].
  destruct (Nat.eqb_spec (List.length X)
              (List.length (OrdinalEncoder.categories_ st))) as [E|E];
    [|discriminate].
  simpl. intros H. now apply encode_columns_count in H.
Qed.

Lemma object_column_label (cols : list (string * column)) (l : string)
    (c : column) :
  In (l, c) cols -> is_object c = true ->
  In l (map fst (filter (fun nc => is_object (snd nc)) cols)).
Proof.
  intros Hin Ho. apply in_map_iff. exists (l, c). split; [reflexivity|].
  apply filter_In. split; assumption.
Qed.

Lemma encode_categoricals_all_numeric (self : DataPreprocessor.t)
    (b c : DataFrame) :
  NoDup (names b) ->
  encode_categoricals self b = Ok c ->
  Forall (fun nc => is_object (snd nc) = false) (columns c).
Proof.
  intros Hnd H. pose proof (encode_categoricals_names self b c H) as Hn.
  unfold encode_categoricals in H.
  destruct (Nat.ltb_spec 0 (List.length (object_columns b))) as [Hpos|Hzero].
  - bind_inv H. injection H as <-. rename x into arr.
    pose proof (transform_count _ _ _ _ Hx) as Hcount.
    rewrite object_values_items in Hcount.
    apply Forall_forall. intros [l col] Hin.
    assert (Hl : lookup l (columns (assign_columns b (object_columns b)
                                      (map (map Some) arr))) = Some col).
    { apply NoDup_lookup; [|exact Hin].
      fold (names (assign_columns b (object_columns b) (map (map Some) arr))).
      now rewrite Hn. }
    cbn [snd].
    destruct (in_dec string_dec l (object_columns b)) as [Hobj|Hobj].
    + destruct (In_nth_error _ _ Hobj) as [j Hj].
      assert (Hjl : (j < List.length (map (map Some) arr))%nat).
      { rewrite length_map, Hcount, length_map.
        rewrite <- (length_map fst), <- object_columns_items.
        apply nth_error_Some. congruence. }
      destruct (nth_error (map (map Some) arr) j) as [a|] eqn:Ea;
        [|apply nth_error_None in Ea; lia].
      rewrite (assign_columns_lookup b _ _ j l a
                 (NoDup_object_columns b Hnd) Hj Ea) in Hl.
      injection Hl as <-. reflexivity.
    + unfold assign_columns in Hl. rewrite fold_setitem_other in Hl.
      * destruct (is_object col) eqn:Eo; [|reflexivity].
        exfalso. apply Hobj. apply lookup_In in Hl.
        now apply (object_column_label _ _ col).
      * intros Hin'. apply Hobj. apply in_map_iff in Hin'.
        destruct Hin' as [[l' a'] [<- Hp]]. now apply in_combine_l in Hp.
  - injection H as <-. apply Forall_forall. intros [l col] Hin. cbn [snd].
    destruct (is_object col) eqn:Eo; [|reflexivity]. exfalso.
    pose proof (object_column_label _ _ _ Hin Eo) as Hl.
    fold (object_columns b) in Hl.
    destruct (object_columns b); [contradiction | simpl in Hzero; lia].
Qed.

Lemma create_features_all_numeric (c d : DataFrame) :
  create_features c = Ok d ->
  Forall (fun nc => is_object (snd nc) = false) (columns c) ->
  Forall (fun nc => is_object (snd nc) = false) (columns d).
Proof.
  intros H Hc.
  destruct (create_features_ok_inv c d H)
    as [e [t [ic [ec [my [He [Ht [Hic [Hec Hmy]]]]]]]]].
  rewrite (create_features_value c e t ic ec my He Ht Hic Hec Hmy) in H.
  injection H as <-. cbn [columns].
  apply Forall_forall. intros nc Hin. apply filter_In in Hin.
  destruct Hin as [Hin _]. revert nc Hin. apply Forall_forall.
  apply set_col_Forall; [reflexivity|].
  apply Forall_forall. intros nc Hin. apply filter_In in Hin.
  destruct Hin as [Hin _]. revert nc Hin. apply Forall_forall.
  apply set_col_Forall; [reflexivity|].
  apply set_col_Forall; [reflexivity | exact Hc].
Qed.

Lemma select_rows_all_numeric (d : DataFrame) (mask : list bool) :
  Forall (fun nc => is_object (snd nc) = false) (columns d) ->
  Forall (fun nc => is_object (snd nc) = false) (columns (select_rows d mask)).
Proof.
  intros H. unfold select_rows. cbn [columns]. rewrite Forall_forall in *.
  intros nc Hin. apply in_map_iff in Hin. destruct Hin as [[n c] [<- Hin]].
  specialize (H _ Hin). cbn [fst snd] in *. now destruct c.
Qed.

Lemma drop_id_NoDup (df a : DataFrame) :
  drop_id df = Ok a -> NoDup (names df) -> NoDup (names a).
Proof.
  unfold drop_id. destruct (has_column "id" df).
  - intros H. apply drop_inv in H. subst a. unfold names. cbn [columns].
    rewrite (names_filter (fun x => negb (existsb (String.eqb x) ["id"]))).
    apply NoDup_filter.
  - now injection 1 as <-.
Qed.

(** X16.  [preprocess_data] returns numbers only: for an input with
    distinct column labels, no column of a returned frame, in either mode,
    is a column of strings. *)
Theorem preprocess_data_returns_numeric_columns (self : DataPreprocessor.t)
    (df P : DataFrame) (is_training : bool) :
  NoDup (names df) ->
  preprocess_data self df is_training = Ok P ->
  Forall (fun nc => is_object (snd nc) = false) (columns P).
Proof.
  intros Hnd H.
  destruct (preprocess_data_ok_inv self df P is_training H)
    as [a [b [c [d [Ha [Hb [Hc [Hd Hend]]]]]]]].
  assert (Hndb : NoDup (names b)).
  { rewrite (knn_impute_keeps_labels a b 25 Hb).
    now apply (drop_id_NoDup df a). }
  pose proof (encode_categoricals_all_numeric self b c Hndb Hc) as Hnc.
  pose proof (create_features_all_numeric c d Hd Hnc) as Hnum.
  destruct is_training.
  - destruct Hend as [e [f [He [Hf ->]]]].
    destruct (remove_outliers_iqr_inv d e "milage" He) as [v [_ ->]].
    destruct (remove_outliers_iqr_inv _ f "price" Hf) as [w [_ ->]].
    unfold reset_index. cbn [columns].
    now apply select_rows_all_numeric, select_rows_all_numeric.
  - now subst.
Qed.

(** ** [prepare_for_training] *)

(** The parts of a successful call; [S] is the frame that is split. *)
Lemma prepare_for_training_ok_inv (fsqrt : Q -> Q)
    (self self' : DataPreprocessor.t) (df X : DataFrame) (y : Series)
    (target : string) (scale_features : bool) :
  prepare_for_training fsqrt self df target scale_features
    = Ok (self', (X, y)) ->
  exists P S,
    preprocess_data self df true = Ok P /\
    (if scale_features
     then exists cols st arr,
            mapM (getitem P) numeric_cols = Ok cols /\
            StandardScaler.fit_transform fsqrt (nrows P) cols = Ok (st, arr) /\
            self' = mkPreprocessor (ordinal_encoder self) st /\
            S = assign_columns P numeric_cols arr
     else self' = self /\ S = P) /\
    X = mkDF (index S)
          (filter (fun nc => negb (existsb (String.eqb (fst nc)) [target]))
             (columns S)) /\
    lookup target (columns S) = Some (s_values y) /\
    s_index y = index S.
Proof.
  unfold prepare_for_training. intros H. bind_inv H. rename x into P.
  bind_inv H. destruct x as [self1 S]. cbn [fst snd] in H.
  bind_inv H. bind_inv H. injection H as <- <- <-.
  apply drop_inv in Hx1. unfold getitem in Hx2.
  destruct (lookup target (columns S)) as [c|] eqn:Et; [|discriminate].
  injection Hx2 as <-.
  exists P, S. split; [exact Hx|]. split.
  - destruct scale_features.
    + bind_inv Hx0. bind_inv Hx0.
      match goal with
      | Hf : StandardScaler.fit_transform _ _ ?c = Ok ?p |- _ =>
          destruct p as [st arr]; injection Hx0 as <- <-;
          exists c, st, arr; repeat split; assumption
      end.
    + injection Hx0 as <- <-. split; reflexivity.
  - repeat split; assumption.
Qed.

Lemma fit_transform_inv (fsqrt : Q -> Q) (n : nat) (cols : list column)
    (st : StandardScaler.t) (arr : list (list (option Q))) :
  StandardScaler.fit_transform fsqrt n cols = Ok (st, arr) ->
  exists X,
    mapM StandardScaler.as_float cols = Ok X /\
    (0 < n)%nat /\
    st = Some (map (StandardScaler.fit_column fsqrt) X) /\
    arr = map (StandardScaler.transform_column fsqrt) X.
Proof.
  unfold StandardScaler.fit_transform. intros H. bind_inv H.
  destruct (Nat.eqb_spec n 0) as [E|E]; [discriminate|].
  destruct (_ =? _)%nat in H; [discriminate|]. simpl in H.
  injection H as <- <-. exists x. repeat split; [assumption | lia].
Qed.

(** X17.  [prepare_for_training] never changes the encoder.  Without
    scaling it returns the preprocessor unchanged, and X and y are the
    plain split of what the training path of [preprocess_data] returns;
    with scaling the returned preprocessor has a fitted scaler with one
    entry for each of the five scaled columns. *)
Theorem prepare_for_training_state (fsqrt : Q -> Q)
    (self self' : DataPreprocessor.t) (df X : DataFrame) (y : Series)
    (target : string) (scale_features : bool) :
  prepare_for_training fsqrt self df target scale_features
    = Ok (self', (X, y)) ->
  ordinal_encoder self' = ordinal_encoder self /\
  (scale_features = false ->
   self' = self /\
   exists P,
     preprocess_data self df true = Ok P /\
     index X = index P /\
     columns X
       = filter (fun nc => negb (String.eqb (fst nc) target)) (columns P) /\
     lookup target (columns P) = Some (s_values y)) /\
  (scale_features = true ->
   exists st, scaler self' = Some st /\ List.length st = 5%nat).
Proof.
  intros H.
  destruct (prepare_for_training_ok_inv fsqrt self self' df X y target
              scale_features H) as [P [S [HP [Hs [HX [Hy Hi]]]]]].
  destruct scale_features.
  - destruct Hs as [cols [st [arr [Hg [Hf [-> ->]]]]]].
    split; [reflexivity|]. split; [discriminate|]. intros _.
    destruct (fit_transform_inv fsqrt _ _ _ _ Hf) as [F [HF [_ [-> _]]]].
    eexists. split; [reflexivity|].
    rewrite length_map, (mapM_length _ _ _ HF), (mapM_length _ _ _ Hg).
    reflexivity.
  - destruct Hs as [-> ->]. split; [reflexivity|].
    split; [|discriminate]. intros _. split; [reflexivity|].
    exists P. rewrite HX. cbn [index columns].
    repeat split; try assumption.
    apply filter_ext. intros nc. simpl. now rewrite orb_false_r.
Qed.

Lemma present_map {A B : Type} (g : A -> B) (v : list (option A)) :
  present (map (option_map g) v) = map g (present v).
Proof.
  induction v as [|[a|] v IH]; simpl; [reflexivity | | exact IH].
  now rewrite IH.
Qed.

Lemma scaler_column_length (fsqrt : Q -> Q) (v : list (option Q)) :
  List.length (StandardScaler.transform_column fsqrt v) = List.length v.
Proof.
  unfold StandardScaler.transform_column.
  destruct (StandardScaler.fit_column fsqrt v) as [[mu s]|]; [|reflexivity].
  apply length_map.
Qed.

Lemma scaler_column_no_missing (fsqrt : Q -> Q) (v : list (option Q)) :
  no_missing v -> no_missing (StandardScaler.transform_column fsqrt v).
Proof.
  intros H. unfold StandardScaler.transform_column.
  destruct (StandardScaler.fit_column fsqrt v) as [[mu s]|]; [|exact H].
  now apply map_no_missing.
Qed.

(** The values the scaler leaves in a column sum to zero. *)
Lemma scaler_column_sum (fsqrt : Q -> Q) (v : list (option Q)) :
  (Qsum (present (StandardScaler.transform_column fsqrt v)) == 0)%Q.
Proof.
  unfold StandardScaler.transform_column, StandardScaler.fit_column, Qmean.
  destruct (present v) as [|x xs] eqn:E.
  - rewrite E. reflexivity.
  - set (mu := (Qsum (x :: xs) / Qlen (x :: xs))%Q).
    set (scale := if Qeq_bool (fsqrt _) 0 then 1%Q else fsqrt _).
    assert (Hs : ~ (scale == 0)%Q).
    { unfold scale. destruct (Qeq_bool (fsqrt _) 0) eqn:Eb.
      - discriminate.
      - now apply Qeq_bool_neq. }
    rewrite present_map, E, Qsum_scaled by exact Hs. unfold mu. field.
    split; [apply Qlen_nonzero; discriminate | exact Hs].
Qed.

Lemma NoDup_numeric_cols : NoDup numeric_cols.
Proof.
  unfold numeric_cols.
  repeat (constructor;
          [simpl; intros Hd;
           repeat (destruct Hd as [Hd|Hd]; [discriminate|]); exact Hd|]).
  constructor.
Qed.

(** The frame that is split when the features are scaled. *)
Lemma scaled_frame (fsqrt : Q -> Q) (P : DataFrame) (cols : list column)
    (st : StandardScaler.t) (arr : list (list (option Q))) :
  aligned P ->
  mapM (getitem P) numeric_cols = Ok cols ->
  StandardScaler.fit_transform fsqrt (nrows P) cols = Ok (st, arr) ->
  (0 < nrows P)%nat /\
  names (assign_columns P numeric_cols arr) = names P /\
  aligned (assign_columns P numeric_cols arr) /\
  forall c, In c numeric_cols ->
    exists v,
      lookup c (columns P) = Some (NumCol v) /\
      lookup c (columns (assign_columns P numeric_cols arr))
        = Some (NumCol (StandardScaler.transform_column fsqrt v)).
Proof.
  intros Ha Hg Hf.
  destruct (fit_transform_inv fsqrt _ _ _ _ Hf) as [F [HF [Hn [_ ->]]]].
  assert (Hcol : forall c, In c numeric_cols ->
            exists j v, nth_error numeric_cols j = Some c /\
                        lookup c (columns P) = Some (NumCol v) /\
                        nth_error F j = Some v).
  { intros c Hc. destruct (In_nth_error _ _ Hc) as [j Hj].
    destruct (mapM_nth_error _ _ _ _ _ Hg Hj) as [col [Hcol Hget]].
    destruct (mapM_nth_error _ _ _ _ _ HF Hcol) as [v [Hv Hfl]].
    destruct col as [w|w]; [|discriminate]. injection Hfl as <-.
    unfold getitem in Hget.
    destruct (lookup c (columns P)) as [c'|] eqn:E; [|discriminate].
    injection Hget as ->. exists j, w. repeat split; assumption. }
  split; [exact Hn|]. split; [|split].
  - apply assign_columns_names. intros l Hl.
    destruct (Hcol l Hl) as [_ [v [_ [Hv _]]]].
    apply lookup_names. congruence.
  - unfold aligned, nrows. rewrite assign_columns_index. fold (nrows P).
    apply assign_columns_aligned; [|exact Ha].
    apply Forall_forall. intros a Hin. apply in_map_iff in Hin.
    destruct Hin as [v [<- Hv]]. rewrite scaler_column_length.
    destruct (In_nth_error _ _ Hv) as [j Hj].
    assert (Hjc : (j < List.length cols)%nat).
    { rewrite <- (mapM_length _ _ _ HF). apply nth_error_Some. congruence. }
    destruct (nth_error cols j) as [col|] eqn:Ec;
      [|apply nth_error_None in Ec; lia].
    destruct (mapM_nth_error _ _ _ _ _ HF Ec) as [v' [Hv' Hfl]].
    assert (v' = v) by congruence. subst v'.
    destruct col as [w|w]; [|discriminate]. injection Hfl as ->.
    assert (Hjn : (j < List.length numeric_cols)%nat).
    { rewrite <- (mapM_length _ _ _ Hg). exact Hjc. }
    destruct (nth_error numeric_cols j) as [c|] eqn:En;
      [|apply nth_error_None in En; lia].
    destruct (mapM_nth_error _ _ _ _ _ Hg En) as [col' [Hc' Hget]].
    assert (col' = NumCol v) by congruence. subst col'.
    apply getitem_In in Hget. unfold aligned in Ha.
    rewrite Forall_forall in Ha. exact (Ha _ Hget).
  - intros c Hc. destruct (Hcol c Hc) as [j [v [Hj [Hv HFj]]]].
    exists v. split; [exact Hv|].
    apply (assign_columns_lookup _ _ _ j); [apply NoDup_numeric_cols | exact Hj |].
    now apply map_nth_error.
Qed.

(** The frame that is split, in both modes. *)
Lemma split_frame (fsqrt : Q -> Q) (self self' : DataPreprocessor.t)
    (df X : DataFrame) (y : Series) (target : string) (scale_features : bool) :
  prepare_for_training fsqrt self df target scale_features
    = Ok (self', (X, y)) ->
  exists P S,
    preprocess_data self df true = Ok P /\
    index S = index P /\ names S = names P /\ aligned S /\
    X = mkDF (index S)
          (filter (fun nc => negb (existsb (String.eqb (fst nc)) [target]))
             (columns S)) /\
    lookup target (columns S) = Some (s_values y) /\
    s_index y = index S /\
    (scale_features = true ->
     (0 < nrows P)%nat /\
     forall c, In c numeric_cols ->
       exists v,
         lookup c (columns P) = Some (NumCol v) /\
         lookup c (columns S)
           = Some (NumCol (StandardScaler.transform_column fsqrt v))).
Proof.
  intros H.
  destruct (prepare_for_training_ok_inv fsqrt self self' df X y target
              scale_features H) as [P [S [HP [Hs [HX [Hy Hi]]]]]].
  destruct (training_shape self df P HP) as [_ [Ha _]].
  exists P, S. split; [exact HP|].
  destruct scale_features.
  - destruct Hs as [cols [st [arr [Hg [Hf [_ ->]]]]]].
    destruct (scaled_frame fsqrt P cols st arr Ha Hg Hf)
      as [Hn [Hnames [Hal Hcols]]].
    split; [apply assign_columns_index|].
    do 5 (split; [assumption|]). intros _. split; assumption.
  - destruct Hs as [_ ->].
    do 6 (split; [first [reflexivity | assumption]|]). discriminate.
Qed.

(** X18.  X and y of [prepare_for_training] fit together: X has a fresh
    positional index, y carries the same index and has one entry per row
    of X, every column of X has one entry per row, X has no column under
    the target's label, and with scaling X has at least one row. *)
Theorem prepare_for_training_X_y_agree (fsqrt : Q -> Q)
    (self self' : DataPreprocessor.t) (df X : DataFrame) (y : Series)
    (target : string) (scale_features : bool) :
  prepare_for_training fsqrt self df target scale_features
    = Ok (self', (X, y)) ->
  index X = RangeIndex (nrows X) /\
  s_index y = index X /\
  col_length (s_values y) = nrows X /\
  Forall (fun nc => col_length (snd nc) = nrows X) (columns X) /\
  lookup target (columns X) = None /\
  (scale_features = true -> (0 < nrows X)%nat).
Proof.
  intros H.
  destruct (split_frame fsqrt self self' df X y target scale_features H)
    as [P [S [HP [Hi [_ [Ha [-> [Hy [Hyi Hsc]]]]]]]]].
  destruct (training_shape self df P HP) as [HiP _].
  assert (Hn : nrows S = nrows P) by (unfold nrows; now rewrite Hi).
  unfold nrows at 1 2 3 4. cbn [index columns]. fold (nrows S).
  split; [now rewrite Hi, Hn|]. split; [exact Hyi|]. split; [|split; [|split]].
  - apply lookup_In in Hy. unfold aligned in Ha. rewrite Forall_forall in Ha.
    exact (Ha _ Hy).
  - apply Forall_forall. intros nc Hin. apply filter_In in Hin.
    unfold aligned in Ha. rewrite Forall_forall in Ha. now apply Ha.
  - rewrite lookup_filter. simpl. now rewrite String.eqb_refl.
  - intros E. destruct (Hsc E) as [Hpos _]. lia.
Qed.

(** X19.  With scaling, each of the five scaled columns other than the
    target is, in X, a numeric column with one entry per row whose values
    sum to zero (missing entries left aside); [milage] has no missing
    entry, so its mean over the rows of X is zero. *)
Theorem prepare_for_training_scaled_columns_sum_to_zero (fsqrt : Q -> Q)
    (self self' : DataPreprocessor.t) (df X : DataFrame) (y : Series)
    (target : string) :
  prepare_for_training fsqrt self df target true = Ok (self', (X, y)) ->
  forall c, In c numeric_cols -> c <> target ->
    exists w,
      lookup c (columns X) = Some (NumCol w) /\
      List.length w = nrows X /\
      (Qsum (present w) == 0)%Q /\
      (c = "milage" -> no_missing w).
Proof.
  intros H c Hc Hct.
  destruct (split_frame fsqrt self self' df X y target true H)
    as [P [S [HP [Hi [_ [Ha [-> [_ [_ Hsc]]]]]]]]].
  destruct (Hsc eq_refl) as [_ Hcols].
  destruct (Hcols c Hc) as [v [Hv Hs]].
  exists (StandardScaler.transform_column fsqrt v). split; [|split; [|split]].
  - cbn [columns]. rewrite lookup_filter. simpl.
    destruct (String.eqb c target) eqn:E; [|exact Hs].
    apply String.eqb_eq in E. contradiction.
  - unfold nrows. cbn [index]. apply lookup_In in Hs.
    unfold aligned in Ha. rewrite Forall_forall in Ha. exact (Ha _ Hs).
  - apply scaler_column_sum.
  - intros ->. apply scaler_column_no_missing.
    destruct (training_shape self df P HP) as [_ [_ [_ [[w [Hw Hwm]] _]]]].
    assert (w = v) by congruence. now subst.
Qed.

(** X20.  [prepare_for_training] needs more columns than [preprocess_data]:
    with scaling it raises when the input has no [brand] or no [model]
    column, and in both modes it raises when the target is neither a
    column of the input nor one of the three features. *)
Theorem prepare_for_training_requires_columns (fsqrt : Q -> Q)
    (self : DataPreprocessor.t) (df : DataFrame) (target : string) :
  (forall c, c = "brand" \/ c = "model" -> lookup c (columns df) = None ->
     exists err,
       prepare_for_training fsqrt self df target true = Raise err) /\
  (forall scale_features,
     lookup target (columns df) = None -> ~ In target feature_columns ->
     exists err,
       prepare_for_training fsqrt self df target scale_features = Raise err).
Proof.
  split.
  - intros c Hc Habs.
    destruct (prepare_for_training fsqrt self df target true)
      as [[self' [X y]]|err] eqn:H; [|eauto].
    exfalso.
    destruct (split_frame fsqrt self self' df X y target true H)
      as [P [S [HP [_ [_ [_ [_ [_ [_ Hsc]]]]]]]]].
    destruct (Hsc eq_refl) as [_ Hcols].
    destruct (Hcols c) as [v [Hv _]];
      [destruct Hc as [->| ->]; simpl; tauto|].
    assert (Hin : In c (names P)) by (apply lookup_names; congruence).
    apply (preprocess_data_names self df P true c HP) in Hin.
    destruct Hin as [[Hin _]|Hf].
    + apply lookup_names in Hin. contradiction.
    + simpl in Hf. destruct Hc as [->| ->];
        destruct Hf as [Hf|[Hf|[Hf|[]]]]; discriminate.
  - intros scale_features Habs Hnf.
    destruct (prepare_for_training fsqrt self df target scale_features)
      as [[self' [X y]]|err] eqn:H; [|eauto].
    exfalso.
    destruct (split_frame fsqrt self self' df X y target scale_features H)
      as [P [S [HP [_ [Hn [_ [_ [Hy _]]]]]]]].
    assert (Hin : In target (names P)).
    { rewrite <- Hn. apply lookup_names. congruence. }
    apply (preprocess_data_names self df P true target HP) in Hin.
    destruct Hin as [[Hin _]|Hf]; [|contradiction].
    apply lookup_names in Hin. contradiction.
Qed.

(** ** A preprocessor without a fitted encoder *)

Lemma drop_id_aligned (df a : DataFrame) :
  drop_id df = Ok a -> aligned df -> aligned a.
Proof.
  unfold drop_id. destruct (has_column "id" df).
  - intros H Ha. unfold aligned, nrows. rewrite (drop_index _ _ _ H).
    exact (drop_Forall _ _ _ _ H Ha).
  - now injection 1 as <-.
Qed.

Lemma drop_id_In (df a : DataFrame) (nc : string * column) :
  drop_id df = Ok a -> In nc (columns df) -> fst nc <> "id" ->
  In nc (columns a).
Proof.
  unfold drop_id. destruct (has_column "id" df).
  - intros H Hin Hne. apply drop_inv in H. subst a. cbn [columns].
    apply filter_In. split; [exact Hin|].
    cbn [existsb]. rewrite orb_false_r. apply negb_true_iff.
    now apply String.eqb_neq.
  - now injection 1 as <-.
Qed.

Lemma present_nth_error {A : Type} (v : list (option A)) :
  present v <> [] -> exists i a, nth_error v i = Some (Some a).
Proof.
  induction v as [|[a|] v IH]; simpl; intros H.
  - congruence.
  - now exists 0%nat, a.
  - destruct (IH H) as [i [a Hi]]. now exists (S i), a.
Qed.

Lemma encode_categoricals_not_fitted (self : DataPreprocessor.t)
    (b : DataFrame) :
  OrdinalEncoder.state (ordinal_encoder self) = None ->
  object_columns b <> [] ->
  encode_categoricals self b = Raise NotFittedError.
Proof.
  intros Hs H. unfold encode_categoricals, OrdinalEncoder.transform.
  rewrite Hs. destruct (object_columns b) as [|c cs]; [congruence|].
  reflexivity.
Qed.

(** A categorical column that holds a value is still categorical after
    [drop_id] and [knn_impute]. *)
Lemma imputed_frame_has_object_column (df a b : DataFrame) (name : string)
    (v : list (option string)) :
  aligned df ->
  In (name, ObjCol v) (columns df) -> name <> "id" -> present v <> [] ->
  drop_id df = Ok a -> knn_impute a 25 = Ok b ->
  object_columns b <> [].
Proof.
  intros Hal Hin Hne Hp Ha Hb.
  pose proof (drop_id_In df a (name, ObjCol v) Ha Hin Hne) as Hia.
  destruct (In_nth_error _ _ Hia) as [j Hj].
  destruct (present_nth_error v Hp) as [i [s Hi]].
  destruct (proj2 (knn_impute_cells_kept a b 25 j name
                     (drop_id_aligned df a Ha Hal) Hb) v i s Hj Hi)
    as [v' [Hv' _]].
  apply nth_error_In in Hv'.
  pose proof (object_column_label _ _ _ Hv' eq_refl) as Hl.
  unfold object_columns. intros E. rewrite E in Hl. contradiction.
Qed.

(** X21.  Nothing in the class fits the encoder: with a preprocessor whose
    encoder is not fitted (the one [__init__] builds when no saved encoder
    can be loaded), [preprocess_data] and [prepare_for_training] raise on
    every aligned frame that has a categorical column, other than [id],
    holding at least one value; when the imputation itself succeeds the
    error is the not-fitted error of the encoder. *)
Theorem unfitted_encoder_rejects_categorical_frames (fsqrt : Q -> Q)
    (self : DataPreprocessor.t) (df : DataFrame) (name : string)
    (v : list (option string)) :
  OrdinalEncoder.state (ordinal_encoder self) = None ->
  aligned df ->
  In (name, ObjCol v) (columns df) -> name <> "id" -> present v <> [] ->
  OrdinalEncoder.state (ordinal_encoder (init None)) = None /\
  (forall is_training,
     exists err, preprocess_data self df is_training = Raise err) /\
  (forall is_training a b,
     drop_id df = Ok a -> knn_impute a 25 = Ok b ->
     preprocess_data self df is_training = Raise NotFittedError) /\
  (forall target scale_features,
     exists err,
       prepare_for_training fsqrt self df target scale_features = Raise err).
Proof.
  intros Hs Hal Hin Hne Hp.
  assert (Hstep : forall is_training a b,
             drop_id df = Ok a -> knn_impute a 25 = Ok b ->
             preprocess_data self df is_training = Raise NotFittedError).
  { intros is_training a b Ha Hb.
    pose proof (imputed_frame_has_object_column df a b name v Hal Hin Hne Hp
                  Ha Hb) as Ho.
    pose proof (encode_categoricals_not_fitted self b Hs Ho) as He.
    destruct is_training.
    - rewrite preprocess_data_training. unfold training_sequence.
      rewrite Ha. cbn [bind]. rewrite Hb. cbn [bind]. rewrite He. reflexivity.
    - rewrite preprocess_data_inference. unfold inference_sequence.
      rewrite Ha. cbn [bind]. rewrite Hb. cbn [bind]. rewrite He. reflexivity. }
  assert (Hall : forall is_training,
             exists err, preprocess_data self df is_training = Raise err).
  { intros is_training.
    destruct (preprocess_data self df is_training) as [P|err] eqn:E; [|eauto].
    destruct (preprocess_data_ok_inv self df P is_training E)
      as [a [b [_ [_ [Ha [Hb _]]]]]].
    rewrite (Hstep is_training a b Ha Hb) in E. discriminate. }
  split; [reflexivity|]. split; [exact Hall|]. split; [exact Hstep|].
  intros target scale_features.
  destruct (prepare_for_training fsqrt self df target scale_features)
    as [[self' [X y]]|err] eqn:E; [|eauto].
  destruct (prepare_for_training_ok_inv fsqrt self self' df X y target
              scale_features E) as [P [_ [HP _]]].
  destruct (Hall true) as [err Herr]. rewrite Herr in HP. discriminate.
Qed.

(** ** Imputed values are averages over their own column *)

Lemma donors_are_column_values (X : KNNImputer.matrix) (n : nat)
    (col : list (option Q)) (i : nat) (d : option Q * Q) :
  In d (KNNImputer.potential_donors X n col i) -> In (snd d) (present col).
Proof.
  unfold KNNImputer.potential_donors. intros H. apply in_flat_map in H.
  destruct H as [j [_ Hd]].
  destruct (nth j col None) as [x|] eqn:E; [|contradiction].
  destruct Hd as [<-|[]]. cbn [snd]. apply present_in.
  destruct (Nat.lt_ge_cases j (List.length col)) as [Hlt|Hge].
  - rewrite <- E. now apply nth_In.
  - rewrite nth_overflow in E by exact Hge. discriminate.
Qed.

Lemma Qmean_some_nonempty (l : list Q) (q : Q) : Qmean l = Some q -> l <> [].
Proof. intros H ->. discriminate. Qed.

(** The value [impute_cell] computes is the mean of donors taken from the
    column: the nearest ones, at most [k], or the whole column when no
    row is at a defined distance. *)
Lemma impute_cell_donors (k : nat) (X : KNNImputer.matrix) (n : nat)
    (col : list (option Q)) (i : nat) (q : Q) :
  KNNImputer.impute_cell k X n col i = Some q ->
  exists donors,
    donors <> [] /\
    (forall x, In x donors -> In x (present col)) /\
    ((List.length donors <= k)%nat \/ donors = present col) /\
    Qmean donors = Some q.
Proof.
  unfold KNNImputer.impute_cell, KNNImputer.calc_impute.
  destruct (forallb _ _); intros H.
  - exists (present col). split; [now apply Qmean_some_nonempty in H|].
    split; [auto|]. split; [now right | exact H].
  - set (pot := KNNImputer.potential_donors X n col i) in *.
    set (nearest := firstn (Nat.min k (List.length pot))
                      (sort KNNImputer.dist_leb pot)) in *.
    exists (map snd (filter (fun d => negb (KNNImputer.is_nan (fst d))) nearest)).
    split; [now apply Qmean_some_nonempty in H|]. split; [|split; [left|exact H]].
    + intros x Hx. apply in_map_iff in Hx. destruct Hx as [d [<- Hd]].
      apply filter_In in Hd. destruct Hd as [Hd _].
      assert (Hd' : In d (sort KNNImputer.dist_leb pot)).
      { rewrite <- (firstn_skipn (Nat.min k (List.length pot))).
        apply in_or_app. now left. }
      apply (Permutation_in _ (sort_perm _ _)) in Hd'.
      now apply donors_are_column_values in Hd'.
    + rewrite length_map. etransitivity; [apply filter_length_le|].
      unfold nearest. rewrite length_firstn. lia.
Qed.

Lemma transform_column_donors (k : nat) (X : KNNImputer.matrix) (n : nat)
    (col : list (option Q)) (i : nat) (q : Q) :
  nth_error (KNNImputer.transform_column k X n col) i = Some (Some q) ->
  nth i col None = Some q \/
  (nth i col None = None /\ KNNImputer.impute_cell k X n col i = Some q).
Proof.
  unfold KNNImputer.transform_column. intros H.
  assert (Hi : (i < n)%nat).
  { assert (Hs : nth_error
                   (map (fun i0 => match nth i0 col None with
                                   | Some v => Some v
                                   | None => KNNImputer.impute_cell k X n col i0
                                   end) (seq 0 n)) i <> None)
      by congruence.
    apply nth_error_Some in Hs. now rewrite length_map, length_seq in Hs. }
  rewrite nth_error_seq_map in H by exact Hi. injection H as H.
  destruct (nth i col None) as [x|] eqn:E.
  - left. exact H.
  - right. split; [reflexivity | exact H].
Qed.

(** X22.  [knn_impute] fills a numeric cell from its own column only:
    every value of a numeric column of the result is the value the input
    held at that row or, where the input held none, the arithmetic mean
    (as a formula: sum over count) of a non-empty list of values that the
    same column held in the input, at most [n_neighbors] of them, or all
    of them when no row is at a defined distance. *)
Theorem knn_impute_imputes_column_averages (df df' : DataFrame) (k : Z)
    (j i : nat) (name : string) (v v' : list (option Q)) (q : Q) :
  knn_impute df k = Ok df' ->
  nth_error (columns df) j = Some (name, NumCol v) ->
  nth_error (columns df') j = Some (name, NumCol v') ->
  nth_error v' i = Some (Some q) ->
  nth i v None = Some q \/
  (nth i v None = None /\
   exists donors,
     donors <> [] /\
     (forall x, In x donors -> In (Some x) v) /\
     ((List.length donors <= Z.to_nat k)%nat \/ donors = present v) /\
     Qmean donors = Some q).
Proof.
  intros H Hj Hj' Hi.
  pose proof (knn_impute_decoded df df' k H) as Hd.
  destruct (mapM_nth_error _ _ _ _ _ Hd Hj) as [b [Hb Hdec]].
  simpl in Hdec. injection Hdec as <-.
  rewrite Hj' in Hb. injection Hb as ->.
  destruct (transform_column_donors _ _ _ _ _ _ Hi) as [Hv|[Hv Hc]];
    [now left|].
  right. split; [exact Hv|].
  destruct (impute_cell_donors _ _ _ _ _ _ Hc)
    as [donors [Hne [Hin [Hlen Hm]]]].
  exists donors. split; [exact Hne|]. split; [|split; assumption].
  intros x Hx. apply present_in. now apply Hin.
Qed.

(** ** Columns that the pipeline only carries along *)

Lemma existsb_eqb_false (x : string) (l : list string) :
  ~ In x l -> existsb (String.eqb x) l = false.
Proof.
  intros H. destruct (existsb (String.eqb x) l) eqn:E; [|reflexivity].
  apply existsb_exists in E. destruct E as [y [Hy Hxy]].
  apply String.eqb_eq in Hxy. subst. contradiction.
Qed.

Lemma knn_transform_length (k : nat) (X : KNNImputer.matrix) (n : nat)
    (col : list (option Q)) :
  List.length (KNNImputer.transform_column k X n col) = n.
Proof.
  unfold KNNImputer.transform_column. now rewrite length_map, length_seq.
Qed.

(** A numeric column through [knn_impute], by label. *)
Lemma knn_impute_numeric_lookup (a b : DataFrame) (k : Z) (x : string)
    (v : list (option Q)) :
  NoDup (names a) -> aligned a ->
  knn_impute a k = Ok b ->
  lookup x (columns a) = Some (NumCol v) ->
  exists w,
    lookup x (columns b) = Some (NumCol w) /\
    List.length w = List.length v /\
    no_missing w /\
    forall i q, nth_error v i = Some (Some q) -> nth_error w i = Some (Some q).
Proof.
  intros Hnd Hal H Hl.
  pose proof (lookup_In _ _ _ Hl) as Hin.
  destruct (In_nth_error _ _ Hin) as [j Hj].
  destruct (knn_impute_fills_numeric a b k H) as [Hn Hfill].
  destruct (Hfill j x v Hj) as [w [Hw Hwm]].
  exists w. split; [|split; [|split]].
  - apply NoDup_lookup; [unfold names in Hn; rewrite Hn; exact Hnd|].
    now apply nth_error_In in Hw.
  - pose proof (knn_impute_decoded a b k H) as Hd.
    destruct (mapM_nth_error _ _ _ _ _ Hd Hj) as [c [Hc Hdec]].
    simpl in Hdec. injection Hdec as <-.
    rewrite Hw in Hc. injection Hc as ->.
    rewrite knn_transform_length.
    unfold aligned in Hal. rewrite Forall_forall in Hal.
    symmetry. exact (Hal _ Hin).
  - exact Hwm.
  - intros i q Hi.
    destruct (proj1 (knn_impute_cells_kept a b k j x Hal H) v i q Hj Hi)
      as [w' [Hw' Hq]].
    rewrite Hw in Hw'. injection Hw' as <-. exact Hq.
Qed.

(** The encoding step leaves a numeric column as it is. *)
Lemma encode_categoricals_numeric_lookup (self : DataPreprocessor.t)
    (b c : DataFrame) (x : string) (w : list (option Q)) :
  NoDup (names b) ->
  encode_categoricals self b = Ok c ->
  lookup x (columns b) = Some (NumCol w) ->
  lookup x (columns c) = Some (NumCol w).
Proof.
  intros Hnd H Hl. unfold encode_categoricals in H.
  destruct (0 <? List.length (object_columns b))%nat; [|now injection H as <-].
  bind_inv H. injection H as <-. rewrite <- Hl.
  unfold assign_columns. apply fold_setitem_other.
  intros Hin. apply in_map_iff in Hin. destruct Hin as [[l a] [Hxl Hla]].
  simpl in Hxl. subst l. apply in_combine_l in Hla.
  unfold object_columns in Hla. apply in_map_iff in Hla.
  destruct Hla as [[l c'] [Hxl Hf]]. simpl in Hxl. subst l.
  apply filter_In in Hf. destruct Hf as [Hin Hobj]. simpl in Hobj.
  rewrite (NoDup_lookup x c' (columns b) Hnd Hin) in Hl.
  injection Hl as ->. discriminate.
Qed.

(** [create_features] leaves the columns it does not read as they are. *)
Lemma create_features_other_lookup (c d : DataFrame) (x : string) :
  create_features c = Ok d ->
  ~ In x source_columns -> ~ In x feature_columns ->
  lookup x (columns d) = lookup x (columns c).
Proof.
  intros H Hs Hf.
  destruct (create_features_ok_inv c d H)
    as [e [t [ic [ec [my [He [Ht [Hic [Hec Hmy]]]]]]]]].
  destruct (create_features_ok c e t ic ec my He Ht Hic Hec Hmy)
    as [d' [Hd' [_ Hlook]]].
  rewrite H in Hd'. injection Hd' as <-.
  rewrite Hlook, (existsb_eqb_false x source_columns Hs).
  destruct (String.eqb x "car_age") eqn:E1;
    [apply String.eqb_eq in E1; subst x; exfalso; apply Hf; simpl; tauto|].
  destruct (String.eqb x "int_ext_color") eqn:E2;
    [apply String.eqb_eq in E2; subst x; exfalso; apply Hf; simpl; tauto|].
  destruct (String.eqb x "engine_transmission") eqn:E3;
    [apply String.eqb_eq in E3; subst x; exfalso; apply Hf; simpl; tauto|].
  reflexivity.
Qed.

(** X23.  At inference the pipeline only fills the columns it does not
    consume: for an aligned frame with distinct labels, a numeric column
    that is neither [id], nor a source column, nor named like a feature is
    found in the result under its label, still numeric, with the same
    number of entries, every value it held at the same row, and no missing
    entry left. *)
Theorem inference_carries_numeric_columns (self : DataPreprocessor.t)
    (df P : DataFrame) (x : string) (v : list (option Q)) :
  NoDup (names df) -> aligned df ->
  preprocess_data self df false = Ok P ->
  x <> "id" -> ~ In x source_columns -> ~ In x feature_columns ->
  lookup x (columns df) = Some (NumCol v) ->
  exists w,
    lookup x (columns P) = Some (NumCol w) /\
    List.length w = List.length v /\
    no_missing w /\
    forall i q, nth_error v i = Some (Some q) -> nth_error w i = Some (Some q).
Proof.
  intros Hnd Hal H Hid Hs Hf Hl.
  destruct (preprocess_data_ok_inv self df P false H)
    as [a [b [c [d [Ha [Hb [Hc [Hd ->]]]]]]]].
  destruct (drop_id_lookup df a Ha) as [_ Hla].
  assert (Hxa : lookup x (columns a) = Some (NumCol v)).
  { rewrite Hla. apply String.eqb_neq in Hid. now rewrite Hid. }
  pose proof (drop_id_NoDup df a Ha Hnd) as Hnda.
  destruct (knn_impute_numeric_lookup a b 25 x v Hnda
              (drop_id_aligned df a Ha Hal) Hb Hxa) as [w [Hw Hrest]].
  exists w. split; [|exact Hrest].
  rewrite (create_features_other_lookup c d x Hd Hs Hf).
  apply (encode_categoricals_numeric_lookup self b c x w); [|exact Hc|exact Hw].
  rewrite (knn_impute_keeps_labels a b 25 Hb). exact Hnda.
Qed.

(** ** The properties above on concrete frames *)

Lemma knn_impute_rejects_witness :
  knn_impute Examples.complete_frame 0 = Raise ValueError /\
  knn_impute Frames.unmeasured_frame 25 = Raise ValueError.
Proof.
  split.
  - apply knn_impute_rejects. left. lia.
  - apply knn_impute_rejects. right. right. right.
    exists "milage", [None; None]. split; [now left | reflexivity].
Defined.

Lemma knn_impute_keeps_present_values_witness :
  exists df',
    knn_impute Examples.inference_frame 25 = Ok df' /\
    (exists v', nth_error (columns df') 3 = Some ("milage", NumCol v') /\
                nth_error v' 2 = Some (Some (inject_Z 30))) /\
    (exists v', nth_error (columns df') 1 = Some ("brand", ObjCol v') /\
                nth_error v' 1 = Some (Some "bmw")).
Proof.
  assert (H : exists df', knn_impute Examples.inference_frame 25 = Ok df')
    by (eexists; vm_compute; reflexivity).
  destruct H as [df' H].
  assert (Ha : aligned Examples.inference_frame) by repeat constructor.
  exists df'. split; [exact H|]. split.
  - exact (proj1 (knn_impute_keeps_present_values Examples.inference_frame df'
                    25 3 "milage" Ha H) _ 2%nat _ eq_refl eq_refl).
  - exact (proj2 (knn_impute_keeps_present_values Examples.inference_frame df'
                    25 1 "brand" Ha H) _ 1%nat _ eq_refl eq_refl).
Defined.

Lemma knn_impute_completes_numeric_columns_witness :
  exists df',
    knn_impute Examples.inference_frame 25 = Ok df' /\
    names df' = names Examples.inference_frame /\
    exists v', nth_error (columns df') 3 = Some ("milage", NumCol v') /\
               no_missing v'.
Proof.
  assert (H : exists df', knn_impute Examples.inference_frame 25 = Ok df')
    by (eexists; vm_compute; reflexivity).
  destruct H as [df' H].
  destruct (knn_impute_completes_numeric_columns Examples.inference_frame df'
              25 H) as [Hn [_ Hc]].
  exists df'. split; [exact H|]. split; [exact Hn|].
  exact (Hc 3%nat "milage" _ eq_refl).
Defined.

Lemma knn_impute_idempotent_witness :
  exists a,
    knn_impute Examples.inference_frame 25 = Ok a /\
    knn_impute a 25 = Ok a.
Proof.
  assert (H : exists a, knn_impute Examples.inference_frame 25 = Ok a)
    by (eexists; vm_compute; reflexivity).
  destruct H as [a H]. exists a. split; [exact H|].
  apply (knn_impute_idempotent Examples.inference_frame a 25).
  - repeat constructor.
  - intros name v Hin. simpl in Hin.
    repeat (destruct Hin as [Hin|Hin];
            [first [discriminate Hin
                   | injection Hin as _ <-; repeat constructor; discriminate]|]).
    contradiction.
  - exact H.
Defined.

Lemma remove_outliers_iqr_keeps_inliers_witness :
  exists df' keep,
    Float64.remove_outliers_iqr Frames.boundary_frame "milage" = Ok df' /\
    Float64.rows df'
      = map (Float64.row Frames.boundary_frame) (filter keep (seq 0 4)) /\
    keep 0%nat = false /\
    Float64.is_percentile [2.8; 3.5; 3.4; 3.7]%float 0.25 3.25 /\
    Float64.index df' = [1; 2; 3]%Z.
Proof.
  destruct (remove_outliers_iqr_keeps_inliers Frames.boundary_frame "milage"
              [2.8; 3.5; 3.4; 3.7]%float)
    as [df' [keep [Hok [Hrows [Hkeep [Hq [_ _]]]]]]].
  - repeat constructor.
  - reflexivity.
  - exists df', keep. split; [exact Hok|]. split; [exact Hrows|]. split.
    + destruct (keep 0%nat) eqn:E; [|reflexivity].
      apply Hkeep in E. vm_compute in E. destruct E as [E _]. discriminate E.
    + split.
      * destruct Hq as [Hq1 _]; [discriminate|]. exact Hq1.
      * vm_compute in Hok. injection Hok as <-. reflexivity.
Defined.

Lemma remove_outliers_iqr_edge_cases_witness :
  Float64.remove_outliers_iqr Frames.boundary_frame "price"
    = Raise (KeyError "price") /\
  Float64.remove_outliers_iqr Frames.boundary_frame "brand" = Raise TypeError /\
  (exists df',
     Float64.remove_outliers_iqr Frames.blank_frame "brand" = Ok df' /\
     Float64.nrows df' = 0%nat /\
     Float64.names df' = ["brand"; "milage"; "price"]) /\
  (exists df',
     Float64.remove_outliers_iqr Frames.blank_frame "milage" = Ok df' /\
     Float64.nrows df' = 0%nat /\
     Float64.names df' = ["brand"; "milage"; "price"]).
Proof.
  split; [|split; [|split]].
  - exact (proj1 (remove_outliers_iqr_edge_cases Frames.boundary_frame "price")
             eq_refl).
  - apply (proj1 (proj2 (remove_outliers_iqr_edge_cases Frames.boundary_frame
                           "brand")) _ eq_refl).
    discriminate.
  - destruct (proj2 (proj2 (remove_outliers_iqr_edge_cases Frames.blank_frame
                              "brand")) _ eq_refl eq_refl)
      as [df' [H [Hn [Hl _]]]].
    exists df'. repeat split; assumption.
  - destruct (proj2 (proj2 (remove_outliers_iqr_edge_cases Frames.blank_frame
                              "milage")) _ eq_refl eq_refl)
      as [df' [H [Hn [Hl _]]]].
    exists df'. repeat split; assumption.
Defined.

Lemma create_features_column_order_witness :
  exists df',
    create_features Examples.order_frame = Ok df' /\
    names df' =
      ["milage"; "price"; "engine_transmission"; "int_ext_color"; "car_age"].
Proof.
  assert (H : exists df', create_features Examples.order_frame = Ok df')
    by (eexists; vm_compute; reflexivity).
  destruct H as [df' H]. exists df'. split; [exact H|].
  apply (create_features_column_order Examples.order_frame df' H).
  intros x Hx Hin. simpl in Hx, Hin.
  repeat (destruct Hx as [<-|Hx];
          [repeat (destruct Hin as [Hin|Hin]; [discriminate Hin|]);
           exact Hin|]).
  exact Hx.
Defined.

Lemma create_features_not_reapplicable_witness :
  exists df',
    create_features Examples.order_frame = Ok df' /\
    create_features df' = Raise (KeyError "engine").
Proof.
  assert (H : exists df', create_features Examples.order_frame = Ok df')
    by (eexists; vm_compute; reflexivity).
  destruct H as [df' H]. exists df'. split; [exact H|].
  exact (create_features_not_reapplicable Examples.order_frame df' H).
Defined.

Lemma create_features_reports_first_missing_key_witness :
  create_features Examples.complete_frame = Raise (KeyError "engine") /\
  create_features Frames.engine_frame = Raise (KeyError "transmission").
Proof.
  split.
  - exact (proj1 (create_features_reports_first_missing_key
                    Examples.complete_frame) eq_refl).
  - exact (proj1 (proj2 (create_features_reports_first_missing_key
                           Frames.engine_frame)) _ eq_refl eq_refl).
Defined.


Lemma preprocess_data_rejects_empty_frame_witness :
  preprocess_data (init None) Frames.empty_frame false = Raise ValueError /\
  prepare_for_training Frames.sqrt6 (init None) Frames.empty_frame "price"
    true = Raise ValueError.
Proof.
  destruct (preprocess_data_rejects_empty_frame Frames.sqrt6 (init None)
              Frames.empty_frame eq_refl) as [Hp Ht].
  split; [apply Hp | apply Ht].
Defined.

Lemma preprocess_data_labels_witness :
  exists P,
    preprocess_data (init (Some Examples.fitted_encoder))
      Examples.inference_frame false = Ok P /\
    lookup "id" (columns P) = None /\
    lookup "model_year" (columns P) = None /\
    lookup "car_age" (columns P) <> None /\
    (In "brand" (names P) <-> In "brand" (names Examples.inference_frame)).
Proof.
  assert (H : exists P,
             preprocess_data (init (Some Examples.fitted_encoder))
               Examples.inference_frame false = Ok P)
    by (eexists; vm_compute; reflexivity).
  destruct H as [P H].
  destruct (preprocess_data_labels _ _ _ _ H) as [Hid [Hs [Hf Ho]]].
  exists P. split; [exact H|]. split; [exact Hid|]. split; [|split].
  - apply Hs. simpl. tauto.
  - apply Hf. simpl. tauto.
  - apply Ho; [discriminate | |];
      simpl; intros Hx;
      repeat (destruct Hx as [Hx|Hx]; [discriminate Hx|]); exact Hx.
Defined.

Lemma training_output_invariants_witness :
  exists P,
    preprocess_data (init (Some Examples.fitted_encoder))
      Frames.training_frame true = Ok P /\
    index P = RangeIndex (nrows P) /\
    (nrows P <= 6)%nat /\
    exists w, lookup "milage" (columns P) = Some (NumCol w) /\ no_missing w.
Proof.
  assert (H : exists P,
             preprocess_data (init (Some Examples.fitted_encoder))
               Frames.training_frame true = Ok P)
    by (eexists; vm_compute; reflexivity).
  destruct H as [P H].
  destruct (training_output_invariants _ _ _ H) as [Hi [_ [Hn [Hm _]]]].
  exists P. repeat split; assumption.
Defined.

Lemma training_is_inference_with_rows_dropped_witness :
  exists P d m1 m2,
    preprocess_data (init (Some Examples.fitted_encoder))
      Frames.training_frame true = Ok P /\
    preprocess_data (init (Some Examples.fitted_encoder))
      Frames.training_frame false = Ok d /\
    List.length m1 = nrows d /\
    columns P =
      map (fun nc => (fst nc, mask_column m2 (mask_column m1 (snd nc))))
        (columns d).
Proof.
  assert (H : exists P,
             preprocess_data (init (Some Examples.fitted_encoder))
               Frames.training_frame true = Ok P)
    by (eexists; vm_compute; reflexivity).
  destruct H as [P H].
  destruct (training_is_inference_with_rows_dropped _ _ _ H)
    as [d [m1 [m2 Hd]]].
  exists P, d, m1, m2. split; [exact H | exact Hd].
Defined.

Lemma preprocess_data_requires_columns_witness :
  (exists err,
     preprocess_data (init None) Examples.complete_frame false = Raise err) /\
  (exists err,
     preprocess_data (init (Some Examples.fitted_encoder))
       Examples.inference_frame true = Raise err).
Proof.
  split.
  - apply (proj1 (preprocess_data_requires_columns (init None)
                    Examples.complete_frame) "engine" false);
      [simpl; tauto | reflexivity].
  - apply (proj2 (preprocess_data_requires_columns
                    (init (Some Examples.fitted_encoder))
                    Examples.inference_frame) "price");
      [tauto | reflexivity].
Defined.

Lemma preprocess_data_returns_numeric_columns_witness :
  exists P,
    preprocess_data (init (Some Examples.fitted_encoder))
      Examples.inference_frame false = Ok P /\
    Forall (fun nc => is_object (snd nc) = false) (columns P).
Proof.
  assert (H : exists P,
             preprocess_data (init (Some Examples.fitted_encoder))
               Examples.inference_frame false = Ok P)
    by (eexists; vm_compute; reflexivity).
  destruct H as [P H]. exists P. split; [exact H|].
  apply (preprocess_data_returns_numeric_columns
           (init (Some Examples.fitted_encoder)) Examples.inference_frame P
           false); [|exact H].
  unfold names. simpl.
  repeat (constructor;
          [simpl; intros Hd;
           repeat (destruct Hd as [Hd|Hd]; [discriminate Hd|]); exact Hd|]).
  constructor.
Defined.

Lemma prepare_for_training_state_witness :
  (exists X y,
     prepare_for_training Frames.sqrt6 (init (Some Examples.fitted_encoder))
       Frames.training_frame "price" false
       = Ok (init (Some Examples.fitted_encoder), (X, y))) /\
  (exists self' X y st,
     prepare_for_training Frames.sqrt6 (init (Some Examples.fitted_encoder))
       Frames.training_frame "price" true = Ok (self', (X, y)) /\
     ordinal_encoder self' = Examples.fitted_encoder /\
     scaler self' = Some st /\ List.length st = 5%nat).
Proof.
  split.
  - assert (H : exists r,
               prepare_for_training Frames.sqrt6
                 (init (Some Examples.fitted_encoder)) Frames.training_frame
                 "price" false = Ok r)
      by (eexists; vm_compute; reflexivity).
    destruct H as [[self' [X y]] H].
    destruct (prepare_for_training_state _ _ _ _ _ _ _ _ H) as [_ [Hf _]].
    destruct (Hf eq_refl) as [Hs _]. exists X, y. rewrite Hs in H. exact H.
  - assert (H : exists r,
               prepare_for_training Frames.sqrt6
                 (init (Some Examples.fitted_encoder)) Frames.training_frame
                 "price" true = Ok r)
      by (eexists; vm_compute; reflexivity).
    destruct H as [[self' [X y]] H].
    destruct (prepare_for_training_state _ _ _ _ _ _ _ _ H) as [He [_ Ht]].
    destruct (Ht eq_refl) as [st [Hst Hlen]].
    exists self', X, y, st. repeat split; assumption.
Defined.

Lemma prepare_for_training_X_y_agree_witness :
  exists self' X y,
    prepare_for_training Frames.sqrt6 (init (Some Examples.fitted_encoder))
      Frames.training_frame "price" true = Ok (self', (X, y)) /\
    s_index y = index X /\
    col_length (s_values y) = nrows X /\
    lookup "price" (columns X) = None /\
    (0 < nrows X)%nat.
Proof.
  assert (H : exists r,
             prepare_for_training Frames.sqrt6
               (init (Some Examples.fitted_encoder)) Frames.training_frame
               "price" true = Ok r)
    by (eexists; vm_compute; reflexivity).
  destruct H as [[self' [X y]] H].
  destruct (prepare_for_training_X_y_agree _ _ _ _ _ _ _ _ H)
    as [_ [Hy [Hl [_ [Ht Hp]]]]].
  exists self', X, y. repeat split; try assumption. exact (Hp eq_refl).
Defined.

Lemma prepare_for_training_scaled_columns_sum_to_zero_witness :
  exists self' X y w,
    prepare_for_training Frames.sqrt6 (init (Some Examples.fitted_encoder))
      Frames.training_frame "price" true = Ok (self', (X, y)) /\
    lookup "milage" (columns X) = Some (NumCol w) /\
    List.length w = nrows X /\
    (Qsum (present w) == 0)%Q /\
    no_missing w.
Proof.
  assert (H : exists r,
             prepare_for_training Frames.sqrt6
               (init (Some Examples.fitted_encoder)) Frames.training_frame
               "price" true = Ok r)
    by (eexists; vm_compute; reflexivity).
  destruct H as [[self' [X y]] H].
  destruct (prepare_for_training_scaled_columns_sum_to_zero _ _ _ _ _ _ _ H
              "milage") as [w [Hw [Hl [Hs Hm]]]].
  - simpl. tauto.
  - discriminate.
  - exists self', X, y, w. repeat split; try assumption. exact (Hm eq_refl).
Defined.

Lemma prepare_for_training_requires_columns_witness :
  (exists err,
     prepare_for_training Frames.sqrt6 (init None) Examples.order_frame
       "price" true = Raise err) /\
  (exists err,
     prepare_for_training Frames.sqrt6 (init (Some Examples.fitted_encoder))
       Frames.training_frame "cost" false = Raise err).
Proof.
  split.
  - apply (proj1 (prepare_for_training_requires_columns Frames.sqrt6
                    (init None) Examples.order_frame "price") "brand");
      [tauto | reflexivity].
  - apply (proj2 (prepare_for_training_requires_columns Frames.sqrt6
                    (init (Some Examples.fitted_encoder))
                    Frames.training_frame "cost") false); [reflexivity|].
    simpl. intros Hx.
    repeat (destruct Hx as [Hx|Hx]; [discriminate Hx|]). exact Hx.
Defined.

Lemma unfitted_encoder_rejects_categorical_frames_witness :
  preprocess_data (init None) Examples.inference_frame false
    = Raise NotFittedError /\
  exists err,
    prepare_for_training Frames.sqrt6 (init None) Examples.inference_frame
      "price" true = Raise err.
Proof.
  destruct (unfitted_encoder_rejects_categorical_frames Frames.sqrt6
              (init None) Examples.inference_frame "brand"
              [Some "audi"; Some "bmw"; Some "audi"])
    as [_ [_ [Hstep Hprep]]].
  - reflexivity.
  - repeat constructor.
  - simpl. tauto.
  - discriminate.
  - discriminate.
  - split; [|apply Hprep].
    assert (H : exists a b,
               drop_id Examples.inference_frame = Ok a /\
               knn_impute a 25 = Ok b)
      by (do 2 eexists; split; vm_compute; reflexivity).
    destruct H as [a [b [Ha Hb]]]. exact (Hstep false a b Ha Hb).
Defined.

Lemma knn_impute_imputes_column_averages_witness :
  exists df' v' q donors,
    knn_impute Examples.inference_frame 25 = Ok df' /\
    nth_error (columns df') 3 = Some ("milage", NumCol v') /\
    nth_error v' 1 = Some (Some q) /\
    donors <> [] /\
    (forall x, In x donors ->
       In (Some x) [Some (inject_Z 10); None; Some (inject_Z 30)]) /\
    Qmean donors = Some q.
Proof.
  assert (H : exists df' v' q,
             knn_impute Examples.inference_frame 25 = Ok df' /\
             nth_error (columns df') 3 = Some ("milage", NumCol v') /\
             nth_error v' 1 = Some (Some q))
    by (do 3 eexists; split; [|split]; vm_compute; reflexivity).
  destruct H as [df' [v' [q [H [Hj Hi]]]]].
  destruct (knn_impute_imputes_column_averages Examples.inference_frame df' 25
              3 1 "milage" [Some (inject_Z 10); None; Some (inject_Z 30)] v' q
              H eq_refl Hj Hi) as [Hv|[_ [donors [Hne [Hin [_ Hm]]]]]].
  - discriminate Hv.
  - exists df', v', q, donors. repeat split; assumption.
Defined.

Lemma inference_carries_numeric_columns_witness :
  exists P w,
    preprocess_data (init (Some Examples.fitted_encoder))
      Examples.inference_frame false = Ok P /\
    lookup "milage" (columns P) = Some (NumCol w) /\
    List.length w = 3%nat /\
    no_missing w /\
    nth_error w 2 = Some (Some (inject_Z 30)).
Proof.
  assert (H : exists P,
             preprocess_data (init (Some Examples.fitted_encoder))
               Examples.inference_frame false = Ok P)
    by (eexists; vm_compute; reflexivity).
  destruct H as [P H].
  destruct (inference_carries_numeric_columns
              (init (Some Examples.fitted_encoder)) Examples.inference_frame P
              "milage" [Some (inject_Z 10); None; Some (inject_Z 30)])
    as [w [Hw [Hl [Hm Hk]]]].
  - unfold names. simpl.
    repeat (constructor;
            [simpl; intros Hd;
             repeat (destruct Hd as [Hd|Hd]; [discriminate Hd|]); exact Hd|]).
    constructor.
  - repeat constructor.
  - exact H.
  - discriminate.
  - simpl. intros Hx.
    repeat (destruct Hx as [Hx|Hx]; [discriminate Hx|]). exact Hx.
  - simpl. intros Hx.
    repeat (destruct Hx as [Hx|Hx]; [discriminate Hx|]). exact Hx.
  - reflexivity.
  - exists P, w. split; [exact H|]. split; [exact Hw|]. split; [exact Hl|].
    split; [exact Hm | exact (Hk 2%nat _ eq_refl)].
Defined.
